(** * Replay buffer and DQN agent: a shallow embedding of [buffer.py] and [model.py]

    The arrays of the program are JAX arrays.  A [float32] is an IEEE-754
    binary32 value, modelled by the Standard Library's [spec_float] at
    precision 24 and exponent bound 128; an [int32] is a [Z] with the
    wrap-around written out; an operation that raises returns [Raise].

    Layout: the numeric layer, then [buffer.py], then [model.py] (on a state
    without batch axis in [Model], on states of any shape in [ModelND]), then
    the theorems. *)

From Stdlib Require Import ZArith Bool Lia.
From Stdlib Require Import Floats.SpecFloat.
From stdpp Require Import base list.

Local Open Scope Z_scope.

(** ** Results of operations that may raise *)

Inductive exn : Type :=
  | BroadcastError   (* incompatible shapes in [jnp.broadcast_to] or a binary operation *)
  | EmptyReduction   (* [jnp.max] or [jnp.argmax] of an empty array, [choice] over nothing *)
  | IndexError       (* indexing an axis without entries, or an axis that is not there *)
  | ParamShapeError  (* flax: a parameter does not have the shape its layer expects *)
  | ZeroDivisionError. (* flax: the initializer of a kernel one of whose dimensions is 0 *)

Inductive result (A : Type) : Type :=
  | Ok (a : A)
  | Raise (e : exn).
Arguments Ok {A} a.
Arguments Raise {A} e.

#[global] Instance result_ret : MRet result := fun A a => Ok a.

#[global] Instance result_bind : MBind result := fun A B k r =>
  match r with
  | Ok a => k a
  | Raise e => Raise e
  end.

(** ** float32 *)

Module F32.

Definition prec : Z := 24.
Definition emax : Z := 128.

Definition t : Type := spec_float.

Definition zero : t := S754_zero false.
Definition neg_zero : t := S754_zero true.
Definition nan : t := S754_nan.
Definition infinity : t := S754_infinity false.

Definition of_Z (z : Z) : t := binary_normalize prec emax z 0 false.
Definition one : t := Eval cbv in of_Z 1.

Definition add : t -> t -> t := SFadd prec emax.
Definition sub : t -> t -> t := SFsub prec emax.
Definition mul : t -> t -> t := SFmul prec emax.
Definition ltb : t -> t -> bool := SFltb.
Definition leb : t -> t -> bool := SFleb.

Definition is_nan (x : t) : bool :=
  match x with S754_nan => true | _ => false end.

Definition is_zero (x : t) : bool :=
  match x with S754_zero _ => true | _ => false end.

(** Neither an infinity nor a NaN. *)
Definition is_finite (x : t) : bool :=
  match x with S754_zero _ | S754_finite _ _ _ => true | _ => false end.

(** A non-zero value below the smallest normal number [2^-126].  The
    operations above are those of IEEE 754, which keep such values; a backend
    that flushes them to zero (XLA does on some processors) differs on them.
    Statements that would depend on it leave the subnormal values out. *)
Definition is_subnormal (x : t) : bool :=
  match x with
  | S754_finite _ m e => Z.pos (digits2_pos m) + e <=? -126
  | _ => false
  end.

(** A [bool] read as a float32, as in [1.0 - done]. *)
Definition of_bool (b : bool) : t := if b then one else zero.

(** [jnp.maximum]: a NaN operand wins, otherwise the larger one; on a tie
    the left operand is kept. *)
Definition maximum (a b : t) : t :=
  if is_nan a then a
  else if is_nan b then b
  else if ltb a b then b else a.

(** Two values that compare equal as numbers: the same value, or two zeros
    that differ at most in sign. *)
Definition same_number (x y : t) : Prop :=
  x = y \/ (is_zero x = true /\ is_zero y = true).

End F32.

Abbreviation f32 := F32.t.

(** ** int32 *)

Definition int32_max : Z := 2147483647.

(** Two's complement wrap-around of a 32-bit signed integer. *)
Definition wrap32 (z : Z) : Z := (z + 2147483648) mod 4294967296 - 2147483648.

(** ** Arrays *)

(** A value without leading (row) dimension: a shape and the elements in
    row-major order. *)
Record Tensor (A : Type) : Type := mkTensor {
  shape : list nat;
  data : list A
}.
Arguments mkTensor {A} shape data.
Arguments shape {A} _.
Arguments data {A} _.

(** An array of shape [(length rows, *row_shape)], kept as the list of its
    rows, each row in row-major order. *)
Record Array (A : Type) : Type := mkArray {
  row_shape : list nat;
  rows : list (list A)
}.
Arguments mkArray {A} row_shape rows.
Arguments row_shape {A} _.
Arguments rows {A} _.

Definition numel (sh : list nat) : nat := fold_right Nat.mul 1%nat sh.

(** [jnp.zeros((n, *sh))] with fill element [z]. *)
Definition jnp_zeros {A} (z : A) (n : nat) (sh : list nat) : Array A :=
  mkArray sh (replicate n (replicate (numel sh) z)).

(** [n] consecutive blocks of [w] elements. *)
Fixpoint chunks {A} (w n : nat) (d : list A) : list (list A) :=
  match n with
  | O => []
  | S n' => take w d :: chunks w n' (drop w d)
  end.

(** Row-major data of [d] (of shape [src]) stretched to shape [tgt]; both
    shapes have the same rank and every dimension of [src] is 1 or equals
    the one of [tgt]. *)
Fixpoint expand {A} (src tgt : list nat) (d : list A) : list A :=
  match src, tgt with
  | s :: src', t :: tgt' =>
      if Nat.eqb s t
      then concat (map (expand src' tgt') (chunks (numel src') s d))
      else concat (replicate t (expand src' tgt' d))
  | _, _ => d
  end.

Fixpoint dims_compatible (src tgt : list nat) : bool :=
  match src, tgt with
  | s :: src', t :: tgt' =>
      (Nat.eqb s 1 || Nat.eqb s t) && dims_compatible src' tgt'
  | [], [] => true
  | _, _ => false
  end.

Definition shape_eqb (a b : list nat) : bool :=
  bool_decide (a = b).

(** Whether [jnp.broadcast_to] accepts a value of shape [src] for the shape
    [tgt]: not more dimensions than [tgt], and each trailing dimension is 1
    or the target's. *)
Definition broadcastable (src tgt : list nat) : bool :=
  shape_eqb src tgt
  || (Nat.leb (length src) (length tgt)
      && dims_compatible src (drop (length tgt - length src)%nat tgt)).

(** [jnp.broadcast_to(v, tgt)], returning the row-major data. *)
Definition broadcast_to {A} (v : Tensor A) (tgt : list nat) : result (list A) :=
  if shape_eqb (shape v) tgt then Ok (data v)
  else if Nat.leb (length (shape v)) (length tgt)
          && dims_compatible (shape v) (drop (length tgt - length (shape v))%nat tgt)
  then
    let nlead := (length tgt - length (shape v))%nat in
    Ok (expand (replicate nlead 1%nat ++ shape v) tgt (data v))
  else Raise BroadcastError.

(** A Python index into an axis of [n] entries: a negative index counts from
    the end. *)
Definition norm_index (n i : Z) : Z := if i <? 0 then i + n else i.

(** [arr.at[i].set(v)] for a traced scalar index.  The index is resolved
    first: an array without rows has no row to index, whatever [v] is.  Then
    [v] is broadcast to the shape of a row; an index out of bounds drops the
    update. *)
Definition at_set {A} (arr : Array A) (i : Z) (v : Tensor A) : result (Array A) :=
  let n := Z.of_nat (length (rows arr)) in
  if n =? 0 then Raise IndexError
  else
    row ← broadcast_to v (row_shape arr);
    let j := norm_index n i in
    if (0 <=? j) && (j <? n)
    then Ok (mkArray (row_shape arr) (<[Z.to_nat j := row]> (rows arr)))
    else Ok arr.

(** The row number that [arr[i]] reads for a traced scalar index: a negative
    index counts from the end, and the result is clamped into bounds. *)
Definition read_index (n i : Z) : Z := Z.max 0 (Z.min (norm_index n i) (n - 1)).

(** [arr[i]]: the row, without the leading dimension.  An array without
    rows has nothing to read. *)
Definition getitem {A} (arr : Array A) (i : Z) : result (Tensor A) :=
  match rows arr !! Z.to_nat (read_index (Z.of_nat (length (rows arr))) i) with
  | Some row => Ok (mkTensor (row_shape arr) row)
  | None => Raise IndexError
  end.

(** ** The random source: [jax.random]

    The library is outside the repository; the program uses [split],
    [randint], [choice] and [uniform], with the ranges the library
    documents. *)

Class JaxRandom : Type := {
  PRNGKey : Type;
  (** [jax.random.split(rng, 2)] *)
  split : PRNGKey -> PRNGKey * PRNGKey;
  (** [jax.random.randint(key, minval, maxval, shape=())] *)
  randint : PRNGKey -> Z -> Z -> Z;
  (** [jax.random.choice(key, a=n)] for an integer [n] *)
  choice : PRNGKey -> nat -> nat;
  (** [jax.random.uniform(key)] *)
  uniform : PRNGKey -> f32;
  randint_range : forall k lo hi, lo < hi -> lo <= randint k lo hi < hi;
  choice_range : forall k n, (0 < n)%nat -> (choice k n < n)%nat;
  uniform_range : forall k,
    F32.leb F32.zero (uniform k) = true /\ F32.ltb (uniform k) F32.one = true
}.

(** ** buffer.py *)

Module Buffer.

Record ReplayBufferStorage : Type := mkStorage {
  states : Array f32;
  actions : Array Z;
  rewards : Array f32;
  dones : Array bool;
  next_states : Array f32;
  cursor : Z;
  full : bool
}.

(** (state, action, reward, done, next_state) *)
Definition Transition : Type :=
  (Tensor f32 * Tensor Z * Tensor f32 * Tensor bool * Tensor f32)%type.

Definition init_buffer (buffer_size : nat) (state_shape : list nat)
  : ReplayBufferStorage :=
  {| states := jnp_zeros F32.zero buffer_size state_shape;
     actions := jnp_zeros 0 buffer_size [1%nat];
     rewards := jnp_zeros F32.zero buffer_size [1%nat];
     dones := jnp_zeros false buffer_size [1%nat];
     next_states := jnp_zeros F32.zero buffer_size state_shape;
     cursor := 0;
     full := false |}.

Definition add_transition (buffer : ReplayBufferStorage) (transition : Transition)
  : result ReplayBufferStorage :=
  let '(state, action, reward, done, next_state) := transition in
  let cursor := cursor buffer in
  let max_buffer_size := Z.of_nat (length (rows (rewards buffer))) in
  new_states ← at_set (states buffer) cursor state;
  new_actions ← at_set (actions buffer) cursor action;
  new_rewards ← at_set (rewards buffer) cursor reward;
  new_dones ← at_set (dones buffer) cursor done;
  new_next_states ← at_set (next_states buffer) cursor next_state;
  (* int32 addition, then the floored remainder of [%] *)
  let new_cursor := wrap32 (cursor + 1) mod max_buffer_size in
  let new_full := if new_cursor =? 0 then true else full buffer in
  Ok {| states := new_states; actions := new_actions; rewards := new_rewards;
        dones := new_dones; next_states := new_next_states;
        cursor := new_cursor; full := new_full |}.

(** The number of rows eligible for sampling. *)
Definition sample_bound (buffer : ReplayBufferStorage) : Z :=
  let max_buffer_size := Z.of_nat (length (rows (rewards buffer))) in
  if Bool.eqb (full buffer) true then max_buffer_size else cursor buffer.

Section Sampling.
Context `{JaxRandom}.

(** The index [i] that [sample_transition] draws. *)
Definition sample_index (rng : PRNGKey) (buffer : ReplayBufferStorage) : Z :=
  let max_buffer_size := sample_bound buffer in
  let '(key, subkey) := split rng in
  randint subkey 0 max_buffer_size.

Definition sample_transition (rng : PRNGKey) (buffer : ReplayBufferStorage)
  : result Transition :=
  let max_buffer_size := Z.of_nat (length (rows (rewards buffer))) in
  let max_buffer_size :=
    if Bool.eqb (full buffer) true then max_buffer_size else cursor buffer in
  let '(key, subkey) := split rng in
  let i := randint subkey 0 max_buffer_size in
  sampled_states ← getitem (states buffer) i;
  sampled_actions ← getitem (actions buffer) i;
  sampled_rewards ← getitem (rewards buffer) i;
  sampled_dones ← getitem (dones buffer) i;
  samped_next_states ← getitem (next_states buffer) i;
  Ok (sampled_states, sampled_actions, sampled_rewards, sampled_dones,
      samped_next_states).
End Sampling.

(** A run of [add_transition] calls, oldest first. *)
Fixpoint add_all (buffer : ReplayBufferStorage) (ts : list Transition)
  : result ReplayBufferStorage :=
  match ts with
  | [] => Ok buffer
  | t :: ts' => b ← add_transition buffer t; add_all b ts'
  end.

End Buffer.

(** ** Element-wise arithmetic on arrays *)

Definition tensor_map {A B} (f : A -> B) (v : Tensor A) : Tensor B :=
  mkTensor (shape v) (map f (data v)).

(** The common shape of two operands, computed on the reversed shapes: the
    dimensions are aligned at the end and a dimension of 1 stretches. *)
Fixpoint broadcast_dims_rev (a b : list nat) : option (list nat) :=
  match a, b with
  | [], _ => Some b
  | _, [] => Some a
  | x :: a', y :: b' =>
      match broadcast_dims_rev a' b' with
      | Some r =>
          if Nat.eqb x y then Some (x :: r)
          else if Nat.eqb x 1 then Some (y :: r)
          else if Nat.eqb y 1 then Some (x :: r)
          else None
      | None => None
      end
  end.

Definition broadcast_shapes (a b : list nat) : option (list nat) :=
  match broadcast_dims_rev (rev a) (rev b) with
  | Some r => Some (rev r)
  | None => None
  end.

(** The data of [v] stretched to the shape [out], which [v] is known to
    broadcast to. *)
Definition stretch {A} (v : Tensor A) (out : list nat) : list A :=
  expand (replicate (length out - length (shape v))%nat 1%nat ++ shape v) out (data v).

(** A binary element-wise operation with NumPy broadcasting; operands of
    equal shape are combined as they are. *)
Definition tensor_binop {A B C} (f : A -> B -> C) (x : Tensor A) (y : Tensor B)
  : result (Tensor C) :=
  if shape_eqb (shape x) (shape y)
  then Ok (mkTensor (shape x) (zip_with f (data x) (data y)))
  else
    match broadcast_shapes (shape x) (shape y) with
    | Some out => Ok (mkTensor out (zip_with f (stretch x out) (stretch y out)))
    | None => Raise BroadcastError
    end.

(** [jnp.sum] over all elements, accumulated from the left. *)
Definition jnp_sum (v : Tensor f32) : f32 := fold_left F32.add (data v) F32.zero.

(** [jnp.max(q, axis=-1)] of a one-dimensional array: a NaN propagates. *)
Definition jnp_max (q : list f32) : result f32 :=
  match q with
  | [] => Raise EmptyReduction
  | x :: xs => Ok (fold_left F32.maximum xs x)
  end.

(** The scan behind [jnp.argmax]: [best] is the value at [best_i], [i] the
    position of the head of the rest.  The first NaN wins; otherwise the
    first largest value does. *)
Fixpoint argmax_from (best_i : nat) (best : f32) (i : nat) (rest : list f32) : nat :=
  match rest with
  | [] => best_i
  | x :: rest' =>
      if negb (F32.is_nan best) && (F32.is_nan x || F32.ltb best x)
      then argmax_from i x (S i) rest'
      else argmax_from best_i best (S i) rest'
  end.

Definition jnp_argmax (q : list f32) : result nat :=
  match q with
  | [] => Raise EmptyReduction
  | x :: xs => Ok (argmax_from 0 x 1 xs)
  end.

(** [q[i]] for a one-dimensional [q] and a scalar index. *)
Definition getitem1 {A} (q : list A) (i : Z) : result A :=
  match q !! Z.to_nat (read_index (Z.of_nat (length q)) i) with
  | Some x => Ok x
  | None => Raise IndexError
  end.

Fixpoint result_mapM {A B} (f : A -> result B) (l : list A) : result (list B) :=
  match l with
  | [] => Ok []
  | a :: l' => b ← f a; bs ← result_mapM f l'; Ok (b :: bs)
  end.

(** [q[idx]] for a one-dimensional [q] and an integer array [idx]: the
    result has the shape of [idx]. *)
Definition take1 {A} (q : list A) (idx : Tensor Z) : result (Tensor A) :=
  vals ← result_mapM (getitem1 q) (data idx);
  Ok (mkTensor (shape idx) vals).

(** [jnp.arange(n)] *)
Definition jnp_arange (n : nat) : Tensor Z :=
  mkTensor [n] (map Z.of_nat (seq 0 n)).

(** ** model.py *)

Module Model.

Import Buffer.

(** The agent functions on a state without batch dimension, the case they
    are documented for: [dqn.apply(params, state)] then answers with the
    one-dimensional array of the [n_actions] Q-values, and [DQN] is a network
    seen through such calls.  [ModelND] below embeds the same functions for
    states of any shape; [OneAxis] proves that the two agree on states of
    one axis. *)
Record DQN : Type := mkDQN {
  DQNParameters : Type;
  n_actions : nat;
  apply : DQNParameters -> Tensor f32 -> result (list f32);
  apply_n_actions : forall params state q,
    apply params state = Ok q -> length q = n_actions
}.

(** *** The network of the repository: [class DQN]

    Three dense layers with ReLU in between.  A dense layer computes
    [x @ kernel + bias] along the last axis.  The products are summed here in
    the order of the inputs, starting from zero, each product and each sum
    rounded to float32; the backend may sum in another order or fuse a
    product with its sum, which gives the same values whenever no rounding
    occurs. *)

Record DenseParams : Type := mkDense {
  kernel : list (list f32);   (* shape (inputs, features), by rows *)
  bias : list f32             (* shape (features,) *)
}.

Definition vecmat (features : nat) (x : list f32) (k : list (list f32)) : list f32 :=
  fold_left
    (fun acc xr => zip_with F32.add acc (map (F32.mul (fst xr)) (snd xr)))
    (zip x k) (replicate features F32.zero).

(** What [nn.Dense(features)] checks before it computes, for inputs of
    [inputs] values.  flax (outside the repository) evaluates the shape of
    the kernel initializer, which divides by each of the two dimensions of
    the kernel, and then compares the shapes of the stored kernel and bias
    with the expected [(inputs, features)] and [(features,)]. *)
Definition dense_check (inputs features : nat) (p : DenseParams) : result unit :=
  if Nat.eqb inputs 0 || Nat.eqb features 0 then Raise ZeroDivisionError
  else if Nat.eqb (length (kernel p)) inputs
          && forallb (fun r => Nat.eqb (length r) features) (kernel p)
          && Nat.eqb (length (bias p)) features
  then Ok tt
  else Raise ParamShapeError.

(** [x @ kernel + bias] for one vector [x]. *)
Definition dense_apply (features : nat) (p : DenseParams) (x : list f32) : list f32 :=
  zip_with F32.add (vecmat features x (kernel p)) (bias p).

(** [nn.Dense(features)(x)] for one vector [x]. *)
Definition dense (features : nat) (p : DenseParams) (x : list f32) : result (list f32) :=
  _ ← dense_check (length x) features p;
  Ok (dense_apply features p x).

(** [nn.relu] *)
Definition relu (x : list f32) : list f32 := map (fun v => F32.maximum v F32.zero) x.

Record DQNLayers : Type := mkLayers {
  Dense_0 : DenseParams;
  Dense_1 : DenseParams;
  Dense_2 : DenseParams
}.

(** [DQN.__call__] through [dqn.apply], restricted to a state of shape
    [(k,)]; states of other shapes are left to [ModelND.DQN_call]. *)
Definition DQN_call (n_actions : nat) (p : DQNLayers) (state : Tensor f32)
  : result (list f32) :=
  match shape state with
  | [k] =>
      if Nat.eqb k (length (data state)) then
        x ← dense 128 (Dense_0 p) (data state);
        let x := relu x in
        x ← dense 64 (Dense_1 p) x;
        let x := relu x in
        x ← dense n_actions (Dense_2 p) x;
        Ok x
      else Raise ParamShapeError
  | _ => Raise ParamShapeError
  end.

Record DQNTrainState (Fn P Tx Opt : Type) : Type := mkTrainState {
  step : Z;
  apply_fn : Fn;
  params : P;
  tx : Tx;
  opt_state : Opt;
  target_params : P
}.
Arguments mkTrainState {Fn P Tx Opt}.
Arguments step {Fn P Tx Opt} _.
Arguments apply_fn {Fn P Tx Opt} _.
Arguments params {Fn P Tx Opt} _.
Arguments tx {Fn P Tx Opt} _.
Arguments opt_state {Fn P Tx Opt} _.
Arguments target_params {Fn P Tx Opt} _.

Section Agent.
Context `{JaxRandom}.

Definition select_action (dqn : DQN) (rng : PRNGKey) (params : DQNParameters dqn)
    (state : Tensor f32) (epsilon : f32) : result nat :=
  q_values ← apply dqn params state;
  max_action ← jnp_argmax q_values;
  let '(key, subkey) := split rng in
  random_action ←
    (if Nat.eqb (length q_values) 0 then Raise EmptyReduction
     else Ok (choice subkey (length q_values)));
  let '(key, subkey) := split key in
  let condition := F32.ltb (uniform subkey) epsilon in
  Ok (if condition then random_action else max_action).
End Agent.

Definition compute_loss (dqn : DQN) (params target_params : DQNParameters dqn)
    (transition : Transition) (gamma : f32) : result f32 :=
  let '(state, action, reward, done, next_state) := transition in
  q_values ← apply dqn params state;
  q_rows ← take1 q_values (jnp_arange (length q_values));
  q_value ← take1 (data q_rows) action;
  next_q_values ← apply dqn target_params next_state;
  max_next ← jnp_max next_q_values;
  let masked :=
    tensor_map (fun c => F32.mul c max_next)
      (tensor_map (F32.mul gamma)
         (tensor_map (fun d => F32.sub F32.one (F32.of_bool d)) done)) in
  target_q_value ← tensor_binop F32.add reward masked;
  diff ← tensor_binop F32.sub q_value target_q_value;
  let loss := jnp_sum (tensor_map (fun x => F32.mul x x) diff) in
  Ok loss.

Definition update_target {Fn P Tx Opt} (state : DQNTrainState Fn P Tx Opt)
  : DQNTrainState Fn P Tx Opt :=
  let new_state := state in
  let new_state :=
    mkTrainState (step state) (apply_fn state) (params state) (tx state)
      (opt_state state) (params state) in
  new_state.

Definition compute_loss_double_dqn (dqn : DQN) (params target_params : DQNParameters dqn)
    (transition : Transition) (gamma : f32) : result f32 :=
  let '(state, action, reward, done, next_state) := transition in
  q_values ← apply dqn params state;
  q_rows ← take1 q_values (jnp_arange (length q_values));
  q_value ← take1 (data q_rows) action;
  next_q_values ← apply dqn params next_state;
  next_actions ← jnp_argmax next_q_values;
  target_q_values ← apply dqn target_params next_state;
  target_rows ← take1 target_q_values (jnp_arange (length target_q_values));
  selected ← getitem1 (data target_rows) (Z.of_nat next_actions);
  let masked :=
    tensor_map (fun c => F32.mul c selected)
      (tensor_map (F32.mul gamma)
         (tensor_map (fun d => F32.sub F32.one (F32.of_bool d)) done)) in
  target_q_value ← tensor_binop F32.add reward masked;
  diff ← tensor_binop F32.sub q_value target_q_value;
  let loss := jnp_sum (tensor_map (fun x => F32.mul x x) diff) in
  Ok loss.

End Model.

(** ** model.py on states of any shape

    The agent functions as the code computes them whatever the shape of the
    state: the Q-values are an array of the shape of the state with its
    last axis replaced by the [n_actions] actions; [q[idx]] gathers along axis 0; [jnp.argmax] without [axis]
    indexes the flattened array; [axis=-1] reduces along the last axis; the
    arithmetic broadcasts. *)

(** [x.shape[0]] *)
Definition shape0 {A} (x : Tensor A) : result nat :=
  match shape x with
  | d :: _ => Ok d
  | [] => Raise IndexError
  end.

(** [x.shape[-1]] *)
Definition shape_last {A} (x : Tensor A) : result nat :=
  match last (shape x) with
  | Some d => Ok d
  | None => Raise IndexError
  end.

(** [x[idx]] for an integer array [idx]: the entries of [x] along axis 0 at
    the positions in [idx], each read like [getitem1] reads; the result has
    the shape of [idx] followed by the axes of [x] after the first. *)
Definition take0 {A} (x : Tensor A) (idx : Tensor Z) : result (Tensor A) :=
  match shape x with
  | [] => Raise IndexError
  | d :: rest =>
      picked ← result_mapM (getitem1 (chunks (numel rest) d (data x))) (data idx);
      Ok (mkTensor (shape idx ++ rest) (concat picked))
  end.

(** A reduction along the last axis ([axis=-1]) by [f], which is [jnp_max]
    or [jnp_argmax]: an axis without entries is refused, the other axes
    remain. *)
Definition reduce_last {A B} (f : list A -> result B) (x : Tensor A) : result (Tensor B) :=
  match last (shape x) with
  | None => Raise IndexError
  | Some n =>
      if Nat.eqb n 0 then Raise EmptyReduction
      else
        let lead := removelast (shape x) in
        vals ← result_mapM f (chunks n (numel lead) (data x));
        Ok (mkTensor lead vals)
  end.

Module ModelND.

Import Buffer.

(** The Deep Q-Network object: [dqn.apply(params, state)] for a state with
    at least one axis answers with Q-values of the shape of the state with
    its last axis replaced by the [n_actions] actions. *)
Record DQN : Type := mkDQN {
  DQNParameters : Type;
  n_actions : nat;
  apply : DQNParameters -> Tensor f32 -> result (Tensor f32);
  apply_shape : forall params state q,
    apply params state = Ok q ->
    shape state <> []
    /\ shape q = removelast (shape state) ++ [n_actions]
    /\ length (data q) = numel (shape q)
}.

(** [DQN.__call__] through [dqn.apply]: the layers act on the last axis,
    that is on each of the vectors of [state] along it. *)
Definition DQN_call (n_actions : nat) (p : Model.DQNLayers) (state : Tensor f32)
  : result (Tensor f32) :=
  match last (shape state) with
  | None => Raise IndexError   (* batch = state.shape[0] *)
  | Some k =>
      let lead := removelast (shape state) in
      let x := chunks k (numel lead) (data state) in
      _ ← Model.dense_check k 128 (Model.Dense_0 p);
      let x := map (Model.dense_apply 128 (Model.Dense_0 p)) x in
      let x := map Model.relu x in
      _ ← Model.dense_check 128 64 (Model.Dense_1 p);
      let x := map (Model.dense_apply 64 (Model.Dense_1 p)) x in
      let x := map Model.relu x in
      _ ← Model.dense_check 64 n_actions (Model.Dense_2 p);
      let x := map (Model.dense_apply n_actions (Model.Dense_2 p)) x in
      Ok (mkTensor (lead ++ [n_actions]) (concat x))
  end.

Section Agent.
Context `{JaxRandom}.

Definition select_action (dqn : DQN) (rng : PRNGKey) (params : DQNParameters dqn)
    (state : Tensor f32) (epsilon : f32) : result nat :=
  q_values ← apply dqn params state;
  (* no [axis]: the position in the flattened array *)
  max_action ← jnp_argmax (data q_values);
  let '(key, subkey) := split rng in
  a ← shape_last q_values;
  random_action ←
    (if Nat.eqb a 0 then Raise EmptyReduction else Ok (choice subkey a));
  let '(key, subkey) := split key in
  let condition := F32.ltb (uniform subkey) epsilon in
  Ok (if condition then random_action else max_action).
End Agent.

Definition compute_loss (dqn : DQN) (params target_params : DQNParameters dqn)
    (transition : Transition) (gamma : f32) : result f32 :=
  let '(state, action, reward, done, next_state) := transition in
  q_values ← apply dqn params state;
  n ← shape0 q_values;
  q_rows ← take0 q_values (jnp_arange n);
  q_value ← take0 q_rows action;
  next_q_values ← apply dqn target_params next_state;
  max_next ← reduce_last jnp_max next_q_values;
  let discount :=
    tensor_map (F32.mul gamma)
      (tensor_map (fun d => F32.sub F32.one (F32.of_bool d)) done) in
  masked ← tensor_binop F32.mul discount max_next;
  target_q_value ← tensor_binop F32.add reward masked;
  diff ← tensor_binop F32.sub q_value target_q_value;
  let loss := jnp_sum (tensor_map (fun x => F32.mul x x) diff) in
  Ok loss.

Definition compute_loss_double_dqn (dqn : DQN) (params target_params : DQNParameters dqn)
    (transition : Transition) (gamma : f32) : result f32 :=
  let '(state, action, reward, done, next_state) := transition in
  q_values ← apply dqn params state;
  n ← shape0 q_values;
  q_rows ← take0 q_values (jnp_arange n);
  q_value ← take0 q_rows action;
  next_q_values ← apply dqn params next_state;
  next_actions ← reduce_last jnp_argmax next_q_values;
  target_q_values ← apply dqn target_params next_state;
  m ← shape0 target_q_values;
  target_rows ← take0 target_q_values (jnp_arange m);
  selected ← take0 target_rows (tensor_map Z.of_nat next_actions);
  let discount :=
    tensor_map (F32.mul gamma)
      (tensor_map (fun d => F32.sub F32.one (F32.of_bool d)) done) in
  masked ← tensor_binop F32.mul discount selected;
  target_q_value ← tensor_binop F32.add reward masked;
  diff ← tensor_binop F32.sub q_value target_q_value;
  let loss := jnp_sum (tensor_map (fun x => F32.mul x x) diff) in
  Ok loss.

End ModelND.

(** * Properties *)

(** ** The error monad *)

Lemma bind_Ok_inv {A B} (r : result A) (k : A -> result B) (b : B) :
  r ≫= k = Ok b -> exists a, r = Ok a /\ k a = Ok b.
Proof. destruct r as [a|e]; simpl; [eauto | discriminate]. Qed.

Lemma bind_Ok {A B} (r : result A) (k : A -> result B) (a : A) :
  r = Ok a -> r ≫= k = k a.
Proof. intros ->. reflexivity. Qed.

(** Splits a successful chain of binds into its steps. *)
Ltac inv_binds :=
  repeat match goal with
  | H : _ ≫= _ = Ok _ |- _ =>
      let a := fresh "a" in
      let Ha := fresh "Ha" in
      apply bind_Ok_inv in H; destruct H as (a & Ha & H)
  | H : Ok _ = Ok _ |- _ => injection H as H
  end.

(** ** Arrays *)

Lemma shape_eqb_true (a b : list nat) : shape_eqb a b = true <-> a = b.
Proof. unfold shape_eqb. apply bool_decide_eq_true. Qed.

Lemma shape_eqb_refl (a : list nat) : shape_eqb a a = true.
Proof. apply shape_eqb_true. reflexivity. Qed.

Lemma broadcast_to_exact {A} (v : Tensor A) (tgt : list nat) :
  shape v = tgt -> broadcast_to v tgt = Ok (data v).
Proof. intros <-. unfold broadcast_to. rewrite shape_eqb_refl. reflexivity. Qed.

Lemma broadcast_to_Ok_iff {A} (v : Tensor A) (tgt : list nat) :
  (exists row, broadcast_to v tgt = Ok row) <-> broadcastable (shape v) tgt = true.
Proof.
  unfold broadcast_to, broadcastable.
  destruct (shape_eqb (shape v) tgt); simpl; [split; eauto |].
  destruct (_ && _); split; eauto; try discriminate.
  intros [row Hrow]. discriminate.
Qed.

Lemma broadcast_to_Raise {A} (v : Tensor A) (tgt : list nat) :
  broadcastable (shape v) tgt = false -> broadcast_to v tgt = Raise BroadcastError.
Proof.
  unfold broadcast_to, broadcastable.
  destruct (shape_eqb (shape v) tgt); simpl; [discriminate |].
  intros ->. reflexivity.
Qed.

Lemma norm_index_nonneg (n i : Z) : 0 <= i -> norm_index n i = i.
Proof. intros Hi. unfold norm_index. destruct (Z.ltb_spec i 0); lia. Qed.

Lemma read_index_in_bounds (n i : Z) : 0 <= i < n -> read_index n i = i.
Proof. intros Hi. unfold read_index. rewrite norm_index_nonneg by lia. lia. Qed.

Lemma read_index_bounds (n i : Z) : 0 < n -> 0 <= read_index n i < n.
Proof.
  intros Hn. unfold read_index.
  split; [apply Z.le_max_l |].
  apply Z.max_lub_lt; [lia |]. apply Z.min_lt_iff. right. lia.
Qed.

Section AtSet.
Context {A : Type}.
Implicit Types (arr : Array A) (v : Tensor A).

Lemma at_set_no_rows arr i v : rows arr = [] -> at_set arr i v = Raise IndexError.
Proof. intros Hrows. unfold at_set. rewrite Hrows. reflexivity. Qed.

(** On an array with rows the update is the broadcast followed by the
    write. *)
Lemma at_set_rows arr i v :
  rows arr <> [] ->
  at_set arr i v
  = (row ← broadcast_to v (row_shape arr);
     let n := Z.of_nat (length (rows arr)) in
     let j := norm_index n i in
     if (0 <=? j) && (j <? n)
     then Ok (mkArray (row_shape arr) (<[Z.to_nat j := row]> (rows arr)))
     else Ok arr).
Proof.
  intros Hrows. unfold at_set.
  destruct (Z.eqb_spec (Z.of_nat (length (rows arr))) 0) as [Hz|_]; [| reflexivity].
  destruct (rows arr); [congruence | simpl in Hz; lia].
Qed.

Lemma at_set_Ok_rows arr i v arr' : at_set arr i v = Ok arr' -> rows arr <> [].
Proof. intros Hset Hrows. rewrite (at_set_no_rows _ _ _ Hrows) in Hset. discriminate. Qed.

Lemma at_set_frame arr i v arr' :
  at_set arr i v = Ok arr' ->
  row_shape arr' = row_shape arr /\ length (rows arr') = length (rows arr).
Proof.
  intros Hset. pose proof (at_set_Ok_rows _ _ _ _ Hset) as Hrows.
  rewrite at_set_rows in Hset by assumption. inv_binds. cbv zeta in Hset.
  destruct (_ && _); inv_binds; subst arr'; simpl; [| tauto].
  split; [reflexivity | apply length_insert].
Qed.

Lemma at_set_other arr i v arr' (j : nat) :
  at_set arr i v = Ok arr' -> 0 <= i -> Z.of_nat j <> i ->
  rows arr' !! j = rows arr !! j.
Proof.
  intros Hset Hi Hj. pose proof (at_set_Ok_rows _ _ _ _ Hset) as Hrows.
  rewrite at_set_rows in Hset by assumption. inv_binds. cbv zeta in Hset.
  rewrite norm_index_nonneg in Hset by lia.
  destruct (_ && _); inv_binds; subst arr'; simpl; [| reflexivity].
  apply list_lookup_insert_ne. lia.
Qed.

Lemma at_set_exact arr i v :
  shape v = row_shape arr -> 0 <= i < Z.of_nat (length (rows arr)) ->
  at_set arr i v = Ok (mkArray (row_shape arr) (<[Z.to_nat i := data v]> (rows arr))).
Proof.
  intros Hsh Hi.
  rewrite at_set_rows by (destruct (rows arr); [simpl in Hi; lia | discriminate]).
  rewrite broadcast_to_exact by assumption. simpl.
  rewrite norm_index_nonneg by lia.
  destruct (Z.leb_spec 0 i); [| lia]. destruct (Z.ltb_spec i (Z.of_nat (length (rows arr)))); [| lia].
  reflexivity.
Qed.

Lemma at_set_Ok_iff arr i v :
  (exists arr', at_set arr i v = Ok arr')
  <-> rows arr <> [] /\ broadcastable (shape v) (row_shape arr) = true.
Proof.
  rewrite <- broadcast_to_Ok_iff. split.
  - intros [arr' Hset]. pose proof (at_set_Ok_rows _ _ _ _ Hset) as Hrows.
    rewrite at_set_rows in Hset by assumption. inv_binds. eauto.
  - intros [Hrows [row Hrow]]. rewrite at_set_rows by assumption.
    rewrite Hrow. simpl. cbv zeta. destruct (_ && _); eauto.
Qed.

(** The row written by a successful update at an index in bounds. *)
Lemma at_set_written arr i v arr' :
  at_set arr i v = Ok arr' -> 0 <= i < Z.of_nat (length (rows arr)) ->
  exists row,
    broadcast_to v (row_shape arr) = Ok row /\ rows arr' !! Z.to_nat i = Some row.
Proof.
  intros Hset Hi. pose proof (at_set_Ok_rows _ _ _ _ Hset) as Hrows.
  rewrite at_set_rows in Hset by assumption. inv_binds. cbv zeta in Hset.
  exists a. split; [assumption |].
  rewrite norm_index_nonneg in Hset by lia.
  destruct (Z.leb_spec 0 i); [| lia].
  destruct (Z.ltb_spec i (Z.of_nat (length (rows arr)))); [| lia].
  simpl in Hset. injection Hset as <-. simpl.
  apply list_lookup_insert_eq. lia.
Qed.

Lemma getitem_in_bounds arr i :
  0 <= i < Z.of_nat (length (rows arr)) ->
  exists row, rows arr !! Z.to_nat i = Some row /\ getitem arr i = Ok (mkTensor (row_shape arr) row).
Proof.
  intros Hi. unfold getitem. rewrite read_index_in_bounds by assumption.
  destruct (rows arr !! Z.to_nat i) as [row|] eqn:Hrow; [eauto |].
  apply lookup_ge_None in Hrow. lia.
Qed.

End AtSet.

(** ** The replay buffer *)

Module BufferFacts.

Import Buffer.

(** The transition has exactly the shapes of the rows of a storage for
    states of shape [state_shape]. *)
Definition fits (state_shape : list nat) (t : Transition) : Prop :=
  let '(state, action, reward, done, next_state) := t in
  shape state = state_shape /\ shape action = [1%nat] /\ shape reward = [1%nat]
  /\ shape done = [1%nat] /\ shape next_state = state_shape.

(** The shape invariant of a storage of the given capacity. *)
Record well_formed (capacity : nat) (state_shape : list nat)
    (b : ReplayBufferStorage) : Prop := mkWF {
  wf_states : length (rows (states b)) = capacity;
  wf_actions : length (rows (actions b)) = capacity;
  wf_rewards : length (rows (rewards b)) = capacity;
  wf_dones : length (rows (dones b)) = capacity;
  wf_next_states : length (rows (next_states b)) = capacity;
  wf_state_shape : row_shape (states b) = state_shape;
  wf_action_shape : row_shape (actions b) = [1%nat];
  wf_reward_shape : row_shape (rewards b) = [1%nat];
  wf_done_shape : row_shape (dones b) = [1%nat];
  wf_next_state_shape : row_shape (next_states b) = state_shape;
  wf_cursor : 0 <= cursor b < Z.of_nat capacity
}.

(** The transition stored at row [i], read field by field. *)
Definition row_at (b : ReplayBufferStorage) (i : nat) : option Transition :=
  s ← rows (states b) !! i;
  a ← rows (actions b) !! i;
  r ← rows (rewards b) !! i;
  d ← rows (dones b) !! i;
  n ← rows (next_states b) !! i;
  Some (mkTensor (row_shape (states b)) s, mkTensor (row_shape (actions b)) a,
        mkTensor (row_shape (rewards b)) r, mkTensor (row_shape (dones b)) d,
        mkTensor (row_shape (next_states b)) n).

Lemma wrap32_small (z : Z) : - 2147483648 <= z <= int32_max -> wrap32 z = z.
Proof.
  unfold wrap32, int32_max. intros Hz.
  rewrite Z.mod_small by lia. lia.
Qed.

Lemma add_transition_inv b t b' :
  add_transition b t = Ok b' ->
  exists s a r d n,
    at_set (states b) (cursor b) (t.1.1.1.1) = Ok s
    /\ at_set (actions b) (cursor b) (t.1.1.1.2) = Ok a
    /\ at_set (rewards b) (cursor b) (t.1.1.2) = Ok r
    /\ at_set (dones b) (cursor b) (t.1.2) = Ok d
    /\ at_set (next_states b) (cursor b) (t.2) = Ok n
    /\ b' = mkStorage s a r d n
              (wrap32 (cursor b + 1) mod Z.of_nat (length (rows (rewards b))))
              (if wrap32 (cursor b + 1) mod Z.of_nat (length (rows (rewards b))) =? 0
               then true else full b).
Proof.
  destruct t as [[[[state action] reward] done] next_state].
  unfold add_transition. intros Hadd. inv_binds. subst b'. simpl.
  eauto 12.
Qed.

Lemma init_buffer_well_formed capacity state_shape :
  (0 < capacity)%nat -> well_formed capacity state_shape (init_buffer capacity state_shape).
Proof.
  intros Hcap. split; simpl; try apply length_replicate; try reflexivity. lia.
Qed.

Lemma add_transition_well_formed capacity state_shape b t b' :
  Z.of_nat capacity <= int32_max ->
  well_formed capacity state_shape b ->
  add_transition b t = Ok b' ->
  well_formed capacity state_shape b'.
Proof.
  intros Hmax [] Hadd.
  apply add_transition_inv in Hadd as (s & a & r & d & n & Hs & Ha & Hr & Hd & Hn & ->).
  apply at_set_frame in Hs as [? ?], Ha as [? ?], Hr as [? ?], Hd as [? ?], Hn as [? ?].
  split; simpl; try congruence.
  rewrite wf_rewards0. apply Z.mod_pos_bound. lia.
Qed.

Lemma add_all_well_formed capacity state_shape ts : forall b b',
  Z.of_nat capacity <= int32_max ->
  well_formed capacity state_shape b ->
  add_all b ts = Ok b' ->
  well_formed capacity state_shape b'.
Proof.
  induction ts as [|t ts IH]; simpl; intros b b' Hmax Hwf Hall.
  - injection Hall as <-. assumption.
  - inv_binds. eapply IH; [assumption | | eassumption].
    eapply add_transition_well_formed; eassumption.
Qed.

(** The flag after one call: raised when the advanced cursor is 0, kept
    otherwise. *)
Lemma add_transition_full b t b' :
  add_transition b t = Ok b' -> full b' = (cursor b' =? 0) || full b.
Proof.
  intros Hadd.
  apply add_transition_inv in Hadd as (s & a & r & d & n & _ & _ & _ & _ & _ & ->).
  simpl. destruct (_ =? 0); reflexivity.
Qed.

Lemma add_all_full_stays ts : forall b b',
  add_all b ts = Ok b' -> full b = true -> full b' = true.
Proof.
  induction ts as [|t ts IH]; simpl; intros b b' Hall Hfull.
  - injection Hall as <-. assumption.
  - inv_binds. eapply IH; [eassumption |].
    rewrite (add_transition_full _ _ _ Ha), Hfull. apply orb_true_r.
Qed.

(** A transition of the right shapes is always accepted, lands in row
    [cursor] as it is, and leaves the other rows alone. *)
Lemma add_transition_fits capacity state_shape b t :
  Z.of_nat capacity <= int32_max ->
  well_formed capacity state_shape b -> fits state_shape t ->
  exists b',
    add_transition b t = Ok b'
    /\ cursor b' = (cursor b + 1) mod Z.of_nat capacity
    /\ row_at b' (Z.to_nat (cursor b)) = Some t
    /\ forall j, j <> Z.to_nat (cursor b) -> row_at b' j = row_at b j.
Proof.
  intros Hmax Hwf Hfits. pose proof Hwf as [].
  destruct t as [[[[state action] reward] done] next_state].
  destruct Hfits as (Hs & Ha & Hr & Hd & Hn).
  unfold add_transition.
  rewrite (at_set_exact (states b)); [simpl | congruence | lia].
  rewrite (at_set_exact (actions b)); [simpl | congruence | lia].
  rewrite (at_set_exact (rewards b)); [simpl | congruence | lia].
  rewrite (at_set_exact (dones b)); [simpl | congruence | lia].
  rewrite (at_set_exact (next_states b)); [simpl | congruence | lia].
  eexists. split; [reflexivity |]. simpl.
  rewrite wf_rewards0, wrap32_small by (unfold int32_max in *; lia).
  split; [reflexivity |]. split.
  - unfold row_at. simpl.
    rewrite !list_lookup_insert_eq by lia. simpl.
    destruct state, action, reward, done, next_state; simpl in *.
    rewrite wf_state_shape0, wf_action_shape0, wf_reward_shape0, wf_done_shape0,
      wf_next_state_shape0, Hs, Ha, Hr, Hd, Hn. reflexivity.
  - intros j Hj. unfold row_at. simpl.
    rewrite !list_lookup_insert_ne by lia. reflexivity.
Qed.

Lemma add_transition_cursor capacity state_shape b t b' :
  Z.of_nat capacity <= int32_max ->
  well_formed capacity state_shape b ->
  add_transition b t = Ok b' ->
  cursor b' = (cursor b + 1) mod Z.of_nat capacity.
Proof.
  intros Hmax [] Hadd.
  apply add_transition_inv in Hadd as (s & a & r & d & n & _ & _ & _ & _ & _ & ->).
  simpl. rewrite wf_rewards0, wrap32_small by (unfold int32_max in *; lia). reflexivity.
Qed.

(** The cursor and the flag after any run of successful calls. *)
Lemma add_all_cursor capacity state_shape ts : forall b b',
  Z.of_nat capacity <= int32_max ->
  well_formed capacity state_shape b ->
  add_all b ts = Ok b' ->
  cursor b' = (cursor b + Z.of_nat (length ts)) mod Z.of_nat capacity
  /\ (Z.of_nat capacity <= cursor b + Z.of_nat (length ts) -> full b' = true).
Proof.
  induction ts as [|t ts IH]; intros b b' Hmax Hwf Hrun; simpl in Hrun.
  - injection Hrun as <-. pose proof (wf_cursor _ _ _ Hwf). simpl.
    rewrite Z.add_0_r, Z.mod_small by lia. split; [reflexivity | lia].
  - inv_binds. rename a into b1.
    pose proof (add_transition_well_formed _ _ _ _ _ Hmax Hwf Ha) as Hwf1.
    pose proof (add_transition_cursor _ _ _ _ _ Hmax Hwf Ha) as Hcur1.
    pose proof (wf_cursor _ _ _ Hwf) as Hc.
    destruct (IH b1 b' Hmax Hwf1 Hrun) as [Hcur Hfull].
    split.
    + rewrite Hcur, Hcur1, Zplus_mod_idemp_l. f_equal. simpl length. lia.
    + intros Hover. simpl length in Hover.
      destruct (Z.eq_dec (cursor b + 1) (Z.of_nat capacity)) as [Hend|Hmid].
      * apply (add_all_full_stays ts b1 b' Hrun).
        rewrite (add_transition_full _ _ _ Ha), Hcur1, Hend, Z.mod_same by lia.
        reflexivity.
      * apply Hfull. rewrite Hcur1, Z.mod_small by lia. lia.
Qed.

(** Below the capacity the flag is not raised. *)
Lemma add_all_not_full capacity state_shape ts : forall b b',
  Z.of_nat capacity <= int32_max ->
  well_formed capacity state_shape b -> full b = false ->
  cursor b + Z.of_nat (length ts) < Z.of_nat capacity ->
  add_all b ts = Ok b' -> full b' = false.
Proof.
  induction ts as [|t ts IH]; intros b b' Hmax Hwf Hfull Hlen Hrun; simpl in *.
  - injection Hrun as <-. exact Hfull.
  - inv_binds. rename a into b1.
    pose proof (wf_cursor _ _ _ Hwf) as Hc.
    pose proof (add_transition_cursor _ _ _ _ _ Hmax Hwf Ha) as Hcur1.
    rewrite Z.mod_small in Hcur1 by lia.
    apply (IH b1 b' Hmax); try assumption.
    + eapply add_transition_well_formed; eassumption.
    + rewrite (add_transition_full _ _ _ Ha), Hfull, Hcur1.
      destruct (Z.eqb_spec (cursor b + 1) 0); [lia | reflexivity].
    + lia.
Qed.

(** Filling a storage without passing the end of the array: the
    transitions land in consecutive rows from [cursor] on. *)
Lemma add_all_fill capacity state_shape ts : forall b,
  Z.of_nat capacity <= int32_max ->
  well_formed capacity state_shape b -> Forall (fits state_shape) ts ->
  cursor b + Z.of_nat (length ts) <= Z.of_nat capacity ->
  exists b',
    add_all b ts = Ok b'
    /\ well_formed capacity state_shape b'
    /\ cursor b' = (cursor b + Z.of_nat (length ts)) mod Z.of_nat capacity
    /\ (cursor b + Z.of_nat (length ts) = Z.of_nat capacity -> full b' = true)
    /\ (forall k t, ts !! k = Some t -> row_at b' (Z.to_nat (cursor b) + k) = Some t)
    /\ (forall j, (j < Z.to_nat (cursor b))%nat -> row_at b' j = row_at b j).
Proof.
  induction ts as [|t ts IH]; intros b Hmax Hwf Hfits Hlen; simpl in *.
  - exists b. pose proof (wf_cursor _ _ _ Hwf).
    rewrite Z.add_0_r, Z.mod_small by lia.
    split_and!; try done.
    intros Hc. lia.
  - apply Forall_cons in Hfits as [Hfit Hfits].
    destruct (add_transition_fits _ _ _ _ Hmax Hwf Hfit) as (b1 & Hadd & Hcur & Hrow & Hother).
    pose proof (add_transition_well_formed _ _ _ _ _ Hmax Hwf Hadd) as Hwf1.
    pose proof (wf_cursor _ _ _ Hwf) as Hc.
    rewrite Hadd. simpl.
    destruct (Z.eq_dec (cursor b + 1) (Z.of_nat capacity)) as [Hend|Hmid].
    + assert (ts = []) as -> by (destruct ts; [done | simpl in Hlen; lia]).
      simpl. exists b1. rewrite Hend, Z.mod_same in Hcur by lia.
      split; [done |]. split; [done |]. split.
      { rewrite Hcur. replace (cursor b + Z.of_nat 1) with (Z.of_nat capacity) by lia.
        rewrite Z.mod_same by lia. done. }
      split.
      { intros _. rewrite (add_transition_full _ _ _ Hadd), Hcur. done. }
      split.
      { intros [|k] t' Hk; simpl in Hk; [| done]. injection Hk as <-.
        rewrite Nat.add_0_r. done. }
      intros j Hj. apply Hother. lia.
    + rewrite Z.mod_small in Hcur by lia.
      destruct (IH b1 Hmax Hwf1 Hfits) as (b' & Hall & Hwf' & Hcur' & Hfull' & Hrows' & Hlow');
        [lia |].
      exists b'. split; [done |]. split; [done |]. split.
      { rewrite Hcur', Hcur. f_equal. lia. }
      split.
      { intros Hsum. apply Hfull'. lia. }
      split.
      { intros [|k] t' Hk; simpl in Hk.
        - injection Hk as <-. rewrite Nat.add_0_r, Hlow' by lia. done.
        - rewrite <- (Hrows' k t' Hk). f_equal. lia. }
      intros j Hj. rewrite Hlow' by lia. apply Hother. lia.
Qed.

(** *** Sampling *)

Section SamplingFacts.
Context `{JaxRandom}.

Lemma sample_index_eq rng b :
  sample_index rng b = randint (split rng).2 0 (sample_bound b).
Proof. unfold sample_index. destruct (split rng). reflexivity. Qed.

Lemma sample_index_range rng b :
  0 < sample_bound b -> 0 <= sample_index rng b < sample_bound b.
Proof. intros Hpos. rewrite sample_index_eq. apply randint_range. assumption. Qed.

Lemma sample_bound_le capacity state_shape b :
  well_formed capacity state_shape b -> sample_bound b <= Z.of_nat capacity.
Proof.
  intros []. unfold sample_bound. rewrite wf_rewards0.
  destruct (Bool.eqb _ _); lia.
Qed.

Lemma sample_bound_full capacity state_shape b :
  well_formed capacity state_shape b -> full b = true ->
  sample_bound b = Z.of_nat capacity.
Proof.
  intros Hwf Hfull. unfold sample_bound.
  rewrite (wf_rewards _ _ _ Hwf), Hfull. reflexivity.
Qed.

(** With the drawn index in bounds, the call returns the stored row. *)
Lemma sample_transition_row capacity state_shape rng b :
  well_formed capacity state_shape b ->
  0 <= sample_index rng b < Z.of_nat capacity ->
  exists tr,
    row_at b (Z.to_nat (sample_index rng b)) = Some tr
    /\ sample_transition rng b = Ok tr.
Proof.
  intros [] Hi. unfold sample_transition.
  unfold sample_index, sample_bound in *. destruct (split rng) as [key subkey].
  set (i := randint subkey 0 _) in *.
  destruct (getitem_in_bounds (states b) i) as (s & Hs & ->); [lia |].
  destruct (getitem_in_bounds (actions b) i) as (a & Ha & ->); [lia |].
  destruct (getitem_in_bounds (rewards b) i) as (r & Hr & ->); [lia |].
  destruct (getitem_in_bounds (dones b) i) as (d & Hd & ->); [lia |].
  destruct (getitem_in_bounds (next_states b) i) as (n & Hn & ->); [lia |].
  simpl. eexists. split; [| reflexivity].
  unfold row_at. rewrite Hs, Ha, Hr, Hd, Hn. reflexivity.
Qed.

End SamplingFacts.

End BufferFacts.

(** ** A random source to run the definitions

    A deterministic stand-in for [jax.random] that meets the documented
    ranges; like the library's [randint], an empty range yields [minval]. *)

Module CounterRandom.

Definition half : f32 := S754_finite false 8388608 (-24).

Definition next_split (k : Z) : Z * Z := (2 * k + 1, 3 * k + 1).

Definition next_randint (k lo hi : Z) : Z :=
  if lo <? hi then lo + k mod (hi - lo) else lo.

Definition next_choice (k : Z) (n : nat) : nat := Z.to_nat (k mod Z.of_nat n).

Definition next_uniform (k : Z) : f32 := if Z.even k then F32.zero else half.

Lemma next_randint_range k lo hi : lo < hi -> lo <= next_randint k lo hi < hi.
Proof.
  intros Hlt. unfold next_randint. destruct (Z.ltb_spec lo hi); [| lia].
  pose proof (Z.mod_pos_bound k (hi - lo)). lia.
Qed.

Lemma next_choice_range k n : (0 < n)%nat -> (next_choice k n < n)%nat.
Proof.
  intros Hn. unfold next_choice.
  pose proof (Z.mod_pos_bound k (Z.of_nat n)). lia.
Qed.

Lemma next_uniform_range k :
  F32.leb F32.zero (next_uniform k) = true /\ F32.ltb (next_uniform k) F32.one = true.
Proof. unfold next_uniform. destruct (Z.even k); split; reflexivity. Qed.

Definition source : JaxRandom :=
  {| PRNGKey := Z;
     split := next_split;
     randint := next_randint;
     choice := next_choice;
     uniform := next_uniform;
     randint_range := next_randint_range;
     choice_range := next_choice_range;
     uniform_range := next_uniform_range |}.

End CounterRandom.

(** ** Runs used as concrete inputs *)

Module Scenario.

Import Buffer.

(** A transition of the shapes of a storage for states of shape [(1,)],
    with state [[s]]. *)
Definition transition_of (s : Z) : Transition :=
  (mkTensor [1%nat] [F32.of_Z s], mkTensor [1%nat] [s mod 2],
   mkTensor [1%nat] [F32.one], mkTensor [1%nat] [false],
   mkTensor [1%nat] [F32.of_Z (s + 1)]).

(** The storage reached from [init_buffer capacity (1,)] by adding the
    transitions with the given states, or the initial one if a call
    raised. *)
Definition storage_after (capacity : nat) (ss : list Z) : ReplayBufferStorage :=
  match add_all (init_buffer capacity [1%nat]) (map transition_of ss) with
  | Ok b => b
  | Raise _ => init_buffer capacity [1%nat]
  end.

(** Capacity 10 with three transitions added. *)
Definition three_of_ten : ReplayBufferStorage :=
  Eval vm_compute in storage_after 10 [0; 1; 2].

(** Capacity 4 with five transitions added. *)
Definition five_of_four : ReplayBufferStorage :=
  Eval vm_compute in storage_after 4 [0; 1; 2; 3; 4].

End Scenario.

(** ** The definitions on small inputs *)

Module Examples.

Import Buffer Scenario.

Example broadcast_scalar :
  broadcast_to (mkTensor [] [F32.one]) [2%nat; 2%nat]
  = Ok [F32.one; F32.one; F32.one; F32.one].
Proof. reflexivity. Qed.

Example broadcast_column :
  broadcast_to (mkTensor [2%nat; 1%nat] [1; 2]) [2%nat; 3%nat] = Ok [1; 1; 1; 2; 2; 2].
Proof. reflexivity. Qed.

Example broadcast_row :
  broadcast_to (mkTensor [3%nat] [1; 2; 3]) [2%nat; 3%nat] = Ok [1; 2; 3; 1; 2; 3].
Proof. reflexivity. Qed.

Example broadcast_mismatch :
  broadcast_to (mkTensor [3%nat] [1; 2; 3]) [4%nat] = Raise BroadcastError.
Proof. reflexivity. Qed.

Example broadcast_too_many_dimensions :
  broadcast_to (mkTensor [1%nat; 4%nat] [1; 2; 3; 4]) [4%nat] = Raise BroadcastError.
Proof. reflexivity. Qed.

Example wrap32_overflow : wrap32 (int32_max + 1) = -2147483648.
Proof. reflexivity. Qed.

Example three_of_ten_state :
  cursor three_of_ten = 3 /\ full three_of_ten = false.
Proof. split; reflexivity. Qed.

Example five_of_four_state :
  cursor five_of_four = 1 /\ full five_of_four = true
  /\ rows (states five_of_four)
     = [[F32.of_Z 4]; [F32.of_Z 1]; [F32.of_Z 2]; [F32.of_Z 3]].
Proof. split_and!; reflexivity. Qed.

Example sample_five_of_four :
  sample_transition (H := CounterRandom.source) 5 five_of_four = Ok (transition_of 4).
Proof. reflexivity. Qed.

Example argmax_first_largest :
  jnp_argmax [F32.zero; F32.one; F32.one] = Ok 1%nat.
Proof. reflexivity. Qed.

Example argmax_nan : jnp_argmax [F32.one; F32.nan; F32.infinity] = Ok 1%nat.
Proof. reflexivity. Qed.

Example max_nan : jnp_max [F32.one; F32.nan; F32.infinity] = Ok F32.nan.
Proof. reflexivity. Qed.

Example zero_times_infinity : F32.mul F32.zero F32.infinity = F32.nan.
Proof. reflexivity. Qed.

End Examples.

(** ** Claims about the replay buffer *)

Module BufferClaims.

Import Buffer BufferFacts Scenario.

(** The state of a transition replaced by [[s]]. *)
Definition with_state (s : Z) (o : Transition) : Transition :=
  let '(_, action, reward, done, next_state) := o in
  (mkTensor [1%nat] [F32.of_Z s], action, reward, done, next_state).

Definition state_of (t : Transition) : Tensor f32 := t.1.1.1.1.

Lemma row_at_state b i t :
  row_at b i = Some t -> rows (states b) !! i = Some (data (state_of t)).
Proof.
  unfold row_at. intros Hrow.
  destruct (rows (states b) !! i) as [s|]; [| discriminate]. simpl in Hrow.
  destruct (rows (actions b) !! i); [| discriminate]. simpl in Hrow.
  destruct (rows (rewards b) !! i); [| discriminate]. simpl in Hrow.
  destruct (rows (dones b) !! i); [| discriminate]. simpl in Hrow.
  destruct (rows (next_states b) !! i); [| discriminate]. simpl in Hrow.
  injection Hrow as <-. reflexivity.
Qed.

Lemma with_state_fits s o : fits [1%nat] o -> fits [1%nat] (with_state s o).
Proof.
  destruct o as [[[[state action] reward] done] next_state].
  intros (_ & Ha & Hr & Hd & Hn). repeat split; assumption.
Qed.

Lemma state_of_with_state s o : state_of (with_state s o) = mkTensor [1%nat] [F32.of_Z s].
Proof. destruct o as [[[[state action] reward] done] next_state]. reflexivity. Qed.

(** C1 (as amended): for a storage that holds at least one transition
    ([full], or [cursor > 0]), [sample_transition] makes one [randint] draw
    over [[0, capacity)] when [full] and over [[0, cursor)] otherwise, so the
    index has the library's uniform distribution over that range; the index
    lies in the range (below [cursor] when not [full]), and the call returns
    the five fields stored at that row. *)
Theorem sample_transition_valid_row (R : JaxRandom) (capacity : nat)
    (state_shape : list nat) (rng : PRNGKey) (b : ReplayBufferStorage) :
  well_formed capacity state_shape b ->
  full b = true \/ 0 < cursor b ->
  let bound := if full b then Z.of_nat capacity else cursor b in
  sample_index rng b = randint (split rng).2 0 bound
  /\ 0 <= sample_index rng b < bound
  /\ (full b = false -> sample_index rng b < cursor b)
  /\ exists tr,
       row_at b (Z.to_nat (sample_index rng b)) = Some tr
       /\ sample_transition rng b = Ok tr.
Proof.
  intros Hwf Hnonempty bound.
  assert (Hbound : sample_bound b = bound).
  { unfold sample_bound, bound. rewrite (wf_rewards _ _ _ Hwf).
    destruct (full b); reflexivity. }
  assert (Hpos : 0 < bound).
  { pose proof (wf_cursor _ _ _ Hwf). unfold bound.
    destruct Hnonempty as [-> | Hcur]; [lia |]. destruct (full b); lia. }
  assert (Hrange : 0 <= sample_index rng b < bound).
  { rewrite <- Hbound. apply sample_index_range. rewrite Hbound. exact Hpos. }
  split; [rewrite sample_index_eq, Hbound; reflexivity |].
  split; [exact Hrange |].
  split.
  - intros Hfull. unfold bound in Hrange. rewrite Hfull in Hrange. lia.
  - apply (sample_transition_row capacity state_shape); [exact Hwf |].
    pose proof (sample_bound_le _ _ _ Hwf). lia.
Qed.

Lemma three_of_ten_well_formed : well_formed 10 [1%nat] three_of_ten.
Proof. split; try reflexivity. simpl. lia. Defined.

Lemma sample_transition_valid_row_witness :
  well_formed 10 [1%nat] three_of_ten
  /\ (full three_of_ten = true \/ 0 < cursor three_of_ten)
  /\ @sample_index CounterRandom.source 7 three_of_ten < 3.
Proof.
  split; [exact three_of_ten_well_formed |].
  split; [right; reflexivity |].
  apply (sample_transition_valid_row CounterRandom.source 10 [1%nat] 7 three_of_ten);
    [exact three_of_ten_well_formed | right; reflexivity | reflexivity].
Defined.

(** C1 fails on a freshly initialised storage: [full] is false and
    [cursor] is 0, so no index lies in [[0, cursor)]; whatever the random
    source draws, the row that is read has an index [>= cursor], and the call
    returns the zero-filled row. *)
Lemma sample_transition_empty_buffer :
  let b := init_buffer 4 [1%nat] in
  full b = false /\ cursor b = 0
  /\ forall (R : JaxRandom) (rng : PRNGKey),
       ~ (0 <= sample_index rng b < cursor b)
       /\ cursor b <= read_index 4 (sample_index rng b)
       /\ sample_transition rng b
          = Ok (mkTensor [1%nat] [F32.zero], mkTensor [1%nat] [0],
                mkTensor [1%nat] [F32.zero], mkTensor [1%nat] [false],
                mkTensor [1%nat] [F32.zero]).
Proof.
  simpl. split; [reflexivity |]. split; [reflexivity |].
  intros R rng. split; [lia |]. split; [apply read_index_bounds; lia |].
  unfold sample_transition. simpl. destruct (split rng) as [key subkey].
  set (i := randint subkey 0 0). unfold getitem. simpl.
  change (Z.of_nat 4) with 4.
  assert (Hk : (Z.to_nat (read_index 4 i) < 4)%nat)
    by (pose proof (read_index_bounds 4 i); lia).
  revert Hk. generalize (Z.to_nat (read_index 4 i)).
  intros [|[|[|[|k]]]] Hk; try reflexivity. lia.
Qed.

(** C7: along every run of [add_transition] calls from [init_buffer] (of a
    capacity that is positive and fits an int32), the five arrays keep the
    capacity as leading dimension and [cursor] stays in [[0, capacity)].  A
    call advances the cursor to [(cursor + 1) mod capacity]; it raises [full]
    exactly when that advanced cursor is 0, that is when the cursor stood at
    [capacity - 1], and keeps the flag otherwise.  So [full] is true exactly
    when the run has reached the capacity, and once true it is true in every
    later storage.  A transition of the storage's shapes is always
    accepted. *)
Theorem storage_invariant (capacity : nat) (state_shape : list nat)
    (ts : list Transition) (b : ReplayBufferStorage) :
  (0 < capacity)%nat -> Z.of_nat capacity <= int32_max ->
  add_all (init_buffer capacity state_shape) ts = Ok b ->
  (length (rows (states b)) = capacity
   /\ length (rows (actions b)) = capacity
   /\ length (rows (rewards b)) = capacity
   /\ length (rows (dones b)) = capacity
   /\ length (rows (next_states b)) = capacity)
  /\ 0 <= cursor b < Z.of_nat capacity
  /\ cursor b = Z.of_nat (length ts) mod Z.of_nat capacity
  /\ (full b = true <-> (capacity <= length ts)%nat)
  /\ (forall t b', add_transition b t = Ok b' ->
        cursor b' = (cursor b + 1) mod Z.of_nat capacity
        /\ full b' = (cursor b' =? 0) || full b
        /\ (full b' = true <-> cursor b = Z.of_nat capacity - 1 \/ full b = true))
  /\ (forall ts' b', add_all b ts' = Ok b' -> full b = true -> full b' = true)
  /\ (forall t, fits state_shape t -> exists b', add_transition b t = Ok b').
Proof.
  intros Hpos Hmax Hrun.
  pose proof (init_buffer_well_formed capacity state_shape Hpos) as Hwf0.
  assert (Hwf : well_formed capacity state_shape b).
  { eapply add_all_well_formed; [exact Hmax | exact Hwf0 | exact Hrun]. }
  destruct (add_all_cursor _ _ _ _ _ Hmax Hwf0 Hrun) as [Hcur Hfull].
  simpl in Hcur, Hfull.
  pose proof (wf_cursor _ _ _ Hwf) as Hc.
  split; [destruct Hwf; tauto |].
  split; [exact Hc |].
  split; [exact Hcur |].
  split.
  { split.
    - intros Hb. destruct (le_lt_dec capacity (length ts)) as [Hle|Hlt]; [exact Hle |].
      rewrite (add_all_not_full capacity state_shape ts _ b Hmax Hwf0 eq_refl) in Hb;
        [discriminate | simpl; lia | exact Hrun].
    - intros Hle. apply Hfull. lia. }
  split.
  - intros t b' Hadd.
    pose proof (add_transition_cursor _ _ _ _ _ Hmax Hwf Hadd) as Hcur'.
    pose proof (add_transition_full _ _ _ Hadd) as Hfull'.
    split; [exact Hcur' |]. split; [exact Hfull' |].
    rewrite Hfull', Hcur'. rewrite orb_true_iff, Z.eqb_eq.
    destruct (Z.eq_dec (cursor b) (Z.of_nat capacity - 1)) as [Hend|Hmid].
    + replace (cursor b + 1) with (Z.of_nat capacity) by lia.
      rewrite Z.mod_same by lia. tauto.
    + rewrite Z.mod_small by lia. split; intros [Hz|Hf]; auto; lia.
  - split; [intros ts' b'; apply add_all_full_stays |].
    intros t Ht.
    destruct (add_transition_fits _ _ _ _ Hmax Hwf Ht) as (b' & Hadd & _).
    exists b'. exact Hadd.
Qed.

Lemma storage_invariant_witness :
  add_all (init_buffer 4 [1%nat]) (map transition_of [0; 1; 2; 3; 4]) = Ok five_of_four
  /\ 0 <= cursor five_of_four < 4
  /\ cursor five_of_four = 5 mod 4
  /\ (full five_of_four = true <-> (4 <= 5)%nat).
Proof.
  split; [reflexivity |].
  pose proof (storage_invariant 4 [1%nat] (map transition_of [0; 1; 2; 3; 4]) five_of_four
                ltac:(lia) ltac:(unfold int32_max; lia) eq_refl) as (_ & Hc & Hcur & Hfull & _).
  split; [exact Hc |]. split; [exact Hcur | exact Hfull].
Defined.

(** C9: a call changes only row [cursor]: in each of the five arrays every
    row at another index is the same before and after. *)
Theorem add_transition_frame (b : ReplayBufferStorage) (t : Transition)
    (b' : ReplayBufferStorage) (j : nat) :
  add_transition b t = Ok b' -> 0 <= cursor b -> Z.of_nat j <> cursor b ->
  rows (states b') !! j = rows (states b) !! j
  /\ rows (actions b') !! j = rows (actions b) !! j
  /\ rows (rewards b') !! j = rows (rewards b) !! j
  /\ rows (dones b') !! j = rows (dones b) !! j
  /\ rows (next_states b') !! j = rows (next_states b) !! j.
Proof.
  intros Hadd Hcur Hj.
  apply add_transition_inv in Hadd as (s & a & r & d & n & Hs & Ha & Hr & Hd & Hn & ->).
  simpl. split_and!; eapply at_set_other; eassumption.
Qed.

Lemma add_transition_frame_witness :
  rows (states five_of_four) !! 2%nat = rows (states (storage_after 4 [0; 1; 2; 3])) !! 2%nat.
Proof.
  apply (add_transition_frame (storage_after 4 [0; 1; 2; 3]) (transition_of 4)
           five_of_four 2); [reflexivity | vm_compute; discriminate | vm_compute; discriminate].
Defined.

(** After [capacity] fitting transitions the storage is full with the
    cursor back at 0, and one more overwrites row 0; sampling then returns
    the newest transition or one of those added after the first. *)
Lemma wrap_around_rows (capacity : nat) (state_shape : list nat)
    (ts : list Transition) (t : Transition) :
  (0 < capacity)%nat -> Z.of_nat capacity <= int32_max ->
  length ts = capacity -> Forall (fits state_shape) ts -> fits state_shape t ->
  exists b b',
    add_all (init_buffer capacity state_shape) ts = Ok b
    /\ full b = true /\ cursor b = 0
    /\ add_transition b t = Ok b'
    /\ row_at b' 0 = Some t
    /\ (forall i, (1 <= i < capacity)%nat -> row_at b' i = ts !! i)
    /\ (forall (R : JaxRandom) (rng : PRNGKey),
          exists i tr,
            sample_transition rng b' = Ok tr /\ row_at b' i = Some tr
            /\ (tr = t \/ ((1 <= i < capacity)%nat /\ ts !! i = Some tr))).
Proof.
  intros Hpos Hmax Hlen Hts Ht.
  pose proof (init_buffer_well_formed capacity state_shape Hpos) as Hwf0.
  destruct (add_all_fill capacity state_shape ts _ Hmax Hwf0 Hts)
    as (b & Hrun & Hwf & Hcur & Hfull & Hrows & _); [simpl; lia |].
  simpl in Hcur, Hfull, Hrows.
  rewrite Hlen, Z.mod_same in Hcur by lia.
  specialize (Hfull ltac:(lia)).
  destruct (add_transition_fits _ _ _ _ Hmax Hwf Ht) as (b' & Hadd & _ & Hrow & Hother).
  rewrite Hcur in Hrow, Hother. change (Z.to_nat 0) with 0%nat in Hrow, Hother.
  assert (Hlater : forall i, (1 <= i < capacity)%nat -> row_at b' i = ts !! i).
  { intros i Hi. rewrite Hother by lia.
    destruct (lookup_lt_is_Some_2 ts i) as [ti Hti]; [lia |].
    rewrite Hti. apply (Hrows i ti Hti). }
  exists b, b'. split_and!; try assumption.
  intros R rng.
  pose proof (add_transition_well_formed _ _ _ _ _ Hmax Hwf Hadd) as Hwf'.
  assert (Hfull' : full b' = true).
  { rewrite (add_transition_full _ _ _ Hadd), Hfull. apply orb_true_r. }
  assert (Hrange : 0 <= sample_index rng b' < Z.of_nat capacity).
  { rewrite <- (sample_bound_full _ _ _ Hwf' Hfull'). apply sample_index_range.
    rewrite (sample_bound_full _ _ _ Hwf' Hfull'). lia. }
  destruct (sample_transition_row capacity state_shape rng b' Hwf' Hrange)
    as (tr & Hstored & Hsample).
  remember (Z.to_nat (sample_index rng b')) as i eqn:Hi.
  exists i, tr. split_and!; try assumption.
  destruct i as [|i].
  - left. rewrite Hrow in Hstored. injection Hstored as <-. reflexivity.
  - right. split; [lia |]. rewrite <- Hlater by lia. assumption.
Qed.

(** C4: after exactly [capacity] calls from [init_buffer] (transitions of
    the storage's shapes are always accepted) the storage has [full = true]
    and [cursor = 0], and one more call overwrites row 0 with the new
    transition.  With capacity 4 and states [0], [1], [2], [3], [4]: after the
    fifth call row 0 holds state [4], and [sample_transition] returns a
    transition whose state is not [0], whatever the random source. *)
Theorem wrap_around :
  (forall (capacity : nat) (state_shape : list nat) (ts : list Transition)
          (b : ReplayBufferStorage),
     (0 < capacity)%nat -> Z.of_nat capacity <= int32_max ->
     length ts = capacity ->
     add_all (init_buffer capacity state_shape) ts = Ok b ->
     full b = true /\ cursor b = 0
     /\ forall t, fits state_shape t ->
          exists b', add_transition b t = Ok b' /\ row_at b' 0 = Some t)
  /\ (forall (capacity : nat) (state_shape : list nat) (ts : list Transition),
        (0 < capacity)%nat -> Z.of_nat capacity <= int32_max ->
        length ts = capacity -> Forall (fits state_shape) ts ->
        exists b, add_all (init_buffer capacity state_shape) ts = Ok b)
  /\ (forall o0 o1 o2 o3 o4 : Transition,
        Forall (fits [1%nat]) [o0; o1; o2; o3; o4] ->
        exists b b',
          add_all (init_buffer 4 [1%nat])
            [with_state 0 o0; with_state 1 o1; with_state 2 o2; with_state 3 o3] = Ok b
          /\ full b = true /\ cursor b = 0
          /\ add_transition b (with_state 4 o4) = Ok b'
          /\ rows (states b') !! 0%nat = Some [F32.of_Z 4]
          /\ forall (R : JaxRandom) (rng : PRNGKey),
               exists tr,
                 sample_transition rng b' = Ok tr
                 /\ state_of tr <> mkTensor [1%nat] [F32.of_Z 0]).
Proof.
  split_and!.
  - intros capacity state_shape ts b Hpos Hmax Hlen Hrun.
    pose proof (init_buffer_well_formed capacity state_shape Hpos) as Hwf0.
    pose proof (add_all_well_formed _ _ _ _ _ Hmax Hwf0 Hrun) as Hwf.
    destruct (add_all_cursor _ _ _ _ _ Hmax Hwf0 Hrun) as [Hcur Hfull].
    simpl in Hcur, Hfull. rewrite Hlen, Z.mod_same in Hcur by lia.
    split_and!; [apply Hfull; lia | exact Hcur |].
    intros t Ht.
    destruct (add_transition_fits _ _ _ _ Hmax Hwf Ht) as (b' & Hadd & _ & Hrow & _).
    rewrite Hcur in Hrow. exists b'. split; assumption.
  - intros capacity state_shape ts Hpos Hmax Hlen Hts.
    pose proof (init_buffer_well_formed capacity state_shape Hpos) as Hwf0.
    destruct (add_all_fill capacity state_shape ts _ Hmax Hwf0 Hts) as (b & Hrun & _);
      [simpl; lia |].
    exists b. exact Hrun.
  - intros o0 o1 o2 o3 o4 Hfit.
    apply Forall_cons in Hfit as [H0 Hfit]. apply Forall_cons in Hfit as [H1 Hfit].
    apply Forall_cons in Hfit as [H2 Hfit]. apply Forall_cons in Hfit as [H3 Hfit].
    apply Forall_cons in Hfit as [H4 _].
    destruct (wrap_around_rows 4 [1%nat]
                [with_state 0 o0; with_state 1 o1; with_state 2 o2; with_state 3 o3]
                (with_state 4 o4))
      as (b & b' & Hrun & Hfull & Hcur & Hadd & Hrow & _ & Hsample);
      [lia | unfold int32_max; lia | reflexivity
       | repeat (apply Forall_cons; split; [apply with_state_fits; assumption |]);
         apply Forall_nil_2
       | apply with_state_fits; assumption |].
    exists b, b'. split_and!; try assumption.
    + apply row_at_state in Hrow. rewrite state_of_with_state in Hrow. exact Hrow.
    + intros R rng. destruct (Hsample R rng) as (i & tr & Hok & _ & Hwhich).
      exists tr. split; [assumption |].
      destruct Hwhich as [-> | [Hi Hlook]].
      * rewrite state_of_with_state. discriminate.
      * destruct i as [|[|[|[|i]]]]; try lia; simpl in Hlook; injection Hlook as <-;
          rewrite state_of_with_state; discriminate.
Qed.

Lemma wrap_around_witness :
  full (storage_after 4 [0; 1; 2; 3]) = true /\ cursor (storage_after 4 [0; 1; 2; 3]) = 0
  /\ forall t, fits [1%nat] t ->
       exists b', add_transition (storage_after 4 [0; 1; 2; 3]) t = Ok b'
                  /\ row_at b' 0 = Some t.
Proof.
  apply (proj1 wrap_around 4%nat [1%nat] (map transition_of [0; 1; 2; 3])
           (storage_after 4 [0; 1; 2; 3]));
    [lia | unfold int32_max; lia | reflexivity | reflexivity].
Defined.

(** C8 fails: a state of shape [(1,)] is accepted by a storage whose rows
    have shape [(4,)], and its value is copied into all four places of the
    row. *)
Lemma add_transition_broadcasts :
  let b := init_buffer 2 [4%nat] in
  let t : Transition :=
    (mkTensor [1%nat] [F32.of_Z 7], mkTensor [1%nat] [1], mkTensor [1%nat] [F32.one],
     mkTensor [1%nat] [false], mkTensor [4%nat] [F32.one; F32.one; F32.one; F32.one]) in
  shape (state_of t) <> row_shape (states b)
  /\ exists b',
       add_transition b t = Ok b'
       /\ rows (states b') !! 0%nat
          = Some [F32.of_Z 7; F32.of_Z 7; F32.of_Z 7; F32.of_Z 7].
Proof.
  simpl. split; [discriminate |]. eexists. split; reflexivity.
Qed.

(** C8 (as amended): on a storage whose state array has rows,
    [add_transition] raises a shape error when the state cannot be broadcast
    to the shape of a row.  The call succeeds exactly when each of the five
    arrays has rows and each of the five fields can be broadcast to the shape
    of its row; the row written is then the broadcast value, so a state of
    another but compatible shape is stretched into the row without an error.
    A storage without rows refuses every transition with an index error. *)
Theorem add_transition_shape_check (b : ReplayBufferStorage)
    (state : Tensor f32) (action : Tensor Z) (reward : Tensor f32) (done : Tensor bool)
    (next_state : Tensor f32) :
  let t : Transition := (state, action, reward, done, next_state) in
  (rows (states b) <> [] ->
   broadcastable (shape state) (row_shape (states b)) = false ->
   add_transition b t = Raise BroadcastError)
  /\ ((exists b', add_transition b t = Ok b') <->
      (rows (states b) <> [] /\ rows (actions b) <> [] /\ rows (rewards b) <> []
       /\ rows (dones b) <> [] /\ rows (next_states b) <> [])
      /\ broadcastable (shape state) (row_shape (states b)) = true
      /\ broadcastable (shape action) (row_shape (actions b)) = true
      /\ broadcastable (shape reward) (row_shape (rewards b)) = true
      /\ broadcastable (shape done) (row_shape (dones b)) = true
      /\ broadcastable (shape next_state) (row_shape (next_states b)) = true)
  /\ (forall b', add_transition b t = Ok b' ->
      0 <= cursor b < Z.of_nat (length (rows (states b))) ->
      exists row,
        broadcast_to state (row_shape (states b)) = Ok row
        /\ rows (states b') !! Z.to_nat (cursor b) = Some row)
  /\ (rows (states b) = [] -> add_transition b t = Raise IndexError).
Proof.
  intros t. subst t.
  split; [| split; [split |]; [| | split]].
  - intros Hrows Hno. unfold add_transition.
    rewrite (at_set_rows (states b) _ _ Hrows).
    rewrite (broadcast_to_Raise _ _ Hno). reflexivity.
  - intros [b' Hadd].
    apply add_transition_inv in Hadd as (s & a & r & d & n & Hs & Ha & Hr & Hd & Hn & _).
    simpl in *.
    pose proof (proj1 (at_set_Ok_iff _ _ _) (ex_intro _ _ Hs)) as [? ?].
    pose proof (proj1 (at_set_Ok_iff _ _ _) (ex_intro _ _ Ha)) as [? ?].
    pose proof (proj1 (at_set_Ok_iff _ _ _) (ex_intro _ _ Hr)) as [? ?].
    pose proof (proj1 (at_set_Ok_iff _ _ _) (ex_intro _ _ Hd)) as [? ?].
    pose proof (proj1 (at_set_Ok_iff _ _ _) (ex_intro _ _ Hn)) as [? ?].
    tauto.
  - intros ((Rs & Ra & Rr & Rd & Rn) & Hs & Ha & Hr & Hd & Hn).
    destruct (proj2 (at_set_Ok_iff (states b) (cursor b) state) (conj Rs Hs)) as [s Es].
    destruct (proj2 (at_set_Ok_iff (actions b) (cursor b) action) (conj Ra Ha)) as [a Ea].
    destruct (proj2 (at_set_Ok_iff (rewards b) (cursor b) reward) (conj Rr Hr)) as [r Er].
    destruct (proj2 (at_set_Ok_iff (dones b) (cursor b) done) (conj Rd Hd)) as [d Ed].
    destruct (proj2 (at_set_Ok_iff (next_states b) (cursor b) next_state) (conj Rn Hn))
      as [n En].
    unfold add_transition. rewrite Es, Ea, Er, Ed, En. simpl. eauto.
  - intros b' Hadd Hcur.
    apply add_transition_inv in Hadd as (s & a & r & d & n & Hs & _ & _ & _ & _ & ->).
    simpl in *. exact (at_set_written _ _ _ _ Hs Hcur).
  - intros Hrows. unfold add_transition.
    rewrite (at_set_no_rows _ _ _ Hrows). reflexivity.
Qed.

End BufferClaims.

(** ** Reductions and gathers *)

Lemma argmax_from_spec (rest : list f32) : forall (pre : list f32) (best_i : nat) (best : f32),
  pre !! best_i = Some best ->
  (pre ++ rest) !! argmax_from best_i best (length pre) rest
  = Some (fold_left F32.maximum rest best).
Proof.
  induction rest as [|x rest IH]; intros pre best_i best Hbest; simpl.
  - rewrite app_nil_r. exact Hbest.
  - replace (pre ++ x :: rest) with ((pre ++ [x]) ++ rest) by (rewrite <- app_assoc; reflexivity).
    replace (S (length pre)) with (length (pre ++ [x])) by (rewrite length_app; simpl; lia).
    unfold F32.maximum at 2.
    destruct (F32.is_nan best); simpl.
    + apply IH. apply lookup_app_l_Some. exact Hbest.
    + destruct (F32.is_nan x); simpl.
      * apply IH. apply list_lookup_middle. reflexivity.
      * destruct (F32.ltb best x).
        -- apply IH. apply list_lookup_middle. reflexivity.
        -- apply IH. apply lookup_app_l_Some. exact Hbest.
Qed.

(** The value at the position [jnp.argmax] returns is the one [jnp.max]
    returns; both raise on an empty array. *)
Lemma jnp_max_at_argmax (q : list f32) :
  match jnp_max q, jnp_argmax q with
  | Ok m, Ok i => q !! i = Some m
  | Raise e, Raise e' => e = e'
  | _, _ => False
  end.
Proof.
  destruct q as [|x xs]; simpl; [reflexivity |].
  apply (argmax_from_spec xs [x] 0 x). reflexivity.
Qed.

Lemma jnp_argmax_lt (q : list f32) (i : nat) :
  jnp_argmax q = Ok i -> (i < length q)%nat.
Proof.
  intros Hi. pose proof (jnp_max_at_argmax q) as Hm. rewrite Hi in Hm.
  destruct (jnp_max q) as [m|]; [| contradiction].
  apply lookup_lt_Some in Hm. exact Hm.
Qed.

Lemma jnp_argmax_Ok (q : list f32) : q <> [] -> exists i, jnp_argmax q = Ok i.
Proof. destruct q; [congruence | simpl; eauto]. Qed.

Lemma getitem1_in_bounds {A} (q : list A) (i : nat) (x : A) :
  q !! i = Some x -> getitem1 q (Z.of_nat i) = Ok x.
Proof.
  intros Hx. unfold getitem1.
  pose proof (lookup_lt_Some _ _ _ Hx).
  rewrite read_index_in_bounds, Nat2Z.id by lia. rewrite Hx. reflexivity.
Qed.

Lemma result_mapM_arange {A} (rest : list A) : forall pre : list A,
  result_mapM (getitem1 (pre ++ rest)) (map Z.of_nat (seq (length pre) (length rest)))
  = Ok rest.
Proof.
  induction rest as [|x rest IH]; intros pre; simpl; [reflexivity |].
  rewrite (getitem1_in_bounds _ _ x) by (apply list_lookup_middle; reflexivity). simpl.
  specialize (IH (pre ++ [x])).
  rewrite <- app_assoc, length_app, Nat.add_1_r in IH. simpl in IH.
  rewrite IH. reflexivity.
Qed.

(** [q[jnp.arange(q.shape[0])]] is [q]. *)
Lemma take1_arange {A} (q : list A) :
  take1 q (jnp_arange (length q)) = Ok (mkTensor [length q] q).
Proof.
  unfold take1, jnp_arange. simpl.
  pose proof (result_mapM_arange q []) as Hall. simpl in Hall.
  rewrite Hall. reflexivity.
Qed.

(** ** Mapping through broadcasting *)








(** ** float32 arithmetic around zero *)

Module F32Facts.

(** The value with the sign of a zero forgotten. *)
Definition canon (x : f32) : f32 :=
  match x with
  | S754_zero _ => F32.zero
  | _ => x
  end.

Lemma sub_one_one : F32.sub F32.one F32.one = F32.zero.
Proof. reflexivity. Qed.

Lemma sub_one_zero : F32.sub F32.one F32.zero = F32.one.
Proof. reflexivity. Qed.

Lemma mul_finite_zero (x z : f32) :
  F32.is_finite x = true -> F32.is_zero z = true -> F32.is_zero (F32.mul x z) = true.
Proof. destruct x, z; simpl; intros; try discriminate; reflexivity. Qed.

Lemma mul_zero_finite (z x : f32) :
  F32.is_zero z = true -> F32.is_finite x = true -> F32.is_zero (F32.mul z x) = true.
Proof. destruct x, z; simpl; intros; try discriminate; reflexivity. Qed.

(** The masked bootstrap term of a terminal transition. *)
Lemma masked_is_zero (gamma m : f32) :
  F32.is_finite gamma = true -> F32.is_finite m = true ->
  F32.is_zero (F32.mul (F32.mul gamma (F32.sub F32.one (F32.of_bool true))) m) = true.
Proof.
  intros Hg Hm. apply mul_zero_finite; [| exact Hm].
  apply mul_finite_zero; [exact Hg | reflexivity].
Qed.


Lemma add_zero_same (r z : f32) :
  F32.is_zero z = true -> F32.same_number (F32.add r z) r.
Proof.
  destruct z as [sz| | |]; try discriminate. intros _.
  destruct r as [sr| | |]; simpl; try (left; reflexivity).
  right. destruct sr, sz; split; reflexivity.
Qed.

Lemma canon_add_zero (r z : f32) :
  F32.is_zero z = true -> canon (F32.add r z) = canon r.
Proof.
  destruct z as [sz| | |]; try discriminate. intros _.
  destruct r as [sr| | |]; simpl; try reflexivity.
  destruct sr, sz; reflexivity.
Qed.

(** The squared difference does not see the sign of a zero target. *)
Lemma square_sub_canon (q t : f32) :
  F32.mul (F32.sub q t) (F32.sub q t)
  = F32.mul (F32.sub q (canon t)) (F32.sub q (canon t)).
Proof.
  destruct t as [st| | |]; try reflexivity.
  destruct q as [sq| | |]; try reflexivity; destruct st; try reflexivity.
  destruct sq; reflexivity.
Qed.

(** A sample of [uniform] is never below an [epsilon] of zero. *)
Lemma ltb_zero_of_nonneg (u : f32) (s : bool) :
  F32.leb F32.zero u = true -> F32.ltb u (S754_zero s) = false.
Proof. destruct u as [su|su| |su m e]; try destruct su; cbv; intros; congruence. Qed.

End F32Facts.

(** ** The agent *)

Module ModelFacts.

Import Buffer Model F32Facts.

(** *** The parts of the loss, as the specification names them *)

(** Q(state; params) at the taken action. *)
Definition predicted_value (dqn : DQN) (params : DQNParameters dqn) (t : Transition)
  : result (Tensor f32) :=
  let '(state, action, _, _, _) := t in
  q_values ← apply dqn params state;
  take1 q_values action.

(** [reward + gamma * (1 - done) * next_value] *)
Definition bootstrapped (reward : Tensor f32) (done : Tensor bool)
    (gamma next_value : f32) : result (Tensor f32) :=
  tensor_binop F32.add reward
    (tensor_map
       (fun d => F32.mul (F32.mul gamma (F32.sub F32.one (F32.of_bool d))) next_value)
       done).

(** The next value of vanilla DQN: [max_a Q(next_state; target_params)[a]]. *)
Definition next_value (dqn : DQN) (target_params : DQNParameters dqn)
    (next_state : Tensor f32) : result f32 :=
  next_q_values ← apply dqn target_params next_state;
  jnp_max next_q_values.

(** The next value of double DQN: the action is chosen by [argmax] under
    [params] and valued under [target_params]. *)
Definition next_value_double (dqn : DQN) (params target_params : DQNParameters dqn)
    (next_state : Tensor f32) : result f32 :=
  next_q_values ← apply dqn params next_state;
  next_action ← jnp_argmax next_q_values;
  target_q_values ← apply dqn target_params next_state;
  getitem1 target_q_values (Z.of_nat next_action).

Definition td_target (dqn : DQN) (target_params : DQNParameters dqn) (t : Transition)
    (gamma : f32) : result (Tensor f32) :=
  let '(_, _, reward, done, next_state) := t in
  v ← next_value dqn target_params next_state;
  bootstrapped reward done gamma v.

Definition td_target_double (dqn : DQN) (params target_params : DQNParameters dqn)
    (t : Transition) (gamma : f32) : result (Tensor f32) :=
  let '(_, _, reward, done, next_state) := t in
  v ← next_value_double dqn params target_params next_state;
  bootstrapped reward done gamma v.

(** The sum of the squared differences. *)
Definition squared_error (q target : Tensor f32) : result f32 :=
  diff ← tensor_binop F32.sub q target;
  Ok (jnp_sum (tensor_map (fun x => F32.mul x x) diff)).

Lemma masked_map (done : Tensor bool) (gamma v : f32) :
  tensor_map (fun c => F32.mul c v)
    (tensor_map (F32.mul gamma)
       (tensor_map (fun d => F32.sub F32.one (F32.of_bool d)) done))
  = tensor_map
      (fun d => F32.mul (F32.mul gamma (F32.sub F32.one (F32.of_bool d))) v) done.
Proof. unfold tensor_map. simpl. rewrite !map_map. reflexivity. Qed.

Lemma compute_loss_form dqn params target_params t gamma :
  compute_loss dqn params target_params t gamma
  = (q ← predicted_value dqn params t;
     target ← td_target dqn target_params t gamma;
     squared_error q target).
Proof.
  destruct t as [[[[state action] reward] done] next_state].
  unfold compute_loss, predicted_value, td_target, next_value, bootstrapped, squared_error.
  destruct (apply dqn params state) as [q|e]; simpl; [| reflexivity].
  rewrite take1_arange. simpl.
  destruct (take1 q action) as [qa|e]; simpl; [| reflexivity].
  destruct (apply dqn target_params next_state) as [nq|e]; simpl; [| reflexivity].
  destruct (jnp_max nq) as [m|e]; simpl; [| reflexivity].
  rewrite masked_map. reflexivity.
Qed.

Lemma compute_loss_double_dqn_form dqn params target_params t gamma :
  compute_loss_double_dqn dqn params target_params t gamma
  = (q ← predicted_value dqn params t;
     target ← td_target_double dqn params target_params t gamma;
     squared_error q target).
Proof.
  destruct t as [[[[state action] reward] done] next_state].
  unfold compute_loss_double_dqn, predicted_value, td_target_double, next_value_double,
    bootstrapped, squared_error.
  destruct (apply dqn params state) as [q|e]; simpl; [| reflexivity].
  rewrite take1_arange. simpl.
  destruct (take1 q action) as [qa|e]; simpl; [| reflexivity].
  destruct (apply dqn params next_state) as [nq|e]; simpl; [| reflexivity].
  destruct (jnp_argmax nq) as [a|e]; simpl; [| reflexivity].
  destruct (apply dqn target_params next_state) as [tq|e]; simpl; [| reflexivity].
  rewrite take1_arange. simpl.
  destruct (getitem1 tq (Z.of_nat a)) as [v|e]; simpl; [| reflexivity].
  rewrite masked_map. reflexivity.
Qed.

(** With one set of parameters the two next values coincide. *)
Lemma next_value_double_same dqn params next_state :
  next_value_double dqn params params next_state = next_value dqn params next_state.
Proof.
  unfold next_value_double, next_value.
  destruct (apply dqn params next_state) as [nq|e] eqn:Hnq; simpl; [| reflexivity].
  pose proof (jnp_max_at_argmax nq) as Hm.
  destruct (jnp_max nq) as [m|e], (jnp_argmax nq) as [a|e']; simpl; try contradiction.
  - apply getitem1_in_bounds. exact Hm.
  - congruence.
Qed.

End ModelFacts.

(** ** The network of the repository as a [DQN] object *)

Module Network.

Import Model.

Lemma vecmat_length (features : nat) (k : list (list f32)) : forall (x acc : list f32),
  forallb (fun r => Nat.eqb (length r) features) k = true ->
  length acc = features ->
  length
    (fold_left (fun acc xr => zip_with F32.add acc (map (F32.mul (fst xr)) (snd xr)))
       (zip x k) acc) = features.
Proof.
  induction k as [|r k IH]; intros x acc Hk Hacc; destruct x as [|a x]; simpl; try assumption.
  simpl in Hk. apply andb_true_iff in Hk as [Hr Hk]. apply Nat.eqb_eq in Hr.
  apply IH; [exact Hk |].
  rewrite length_zip_with, length_map. lia.
Qed.

Lemma dense_check_Ok (inputs features : nat) (p : DenseParams) :
  dense_check inputs features p = Ok tt ->
  (0 < inputs)%nat /\ (0 < features)%nat
  /\ length (kernel p) = inputs
  /\ forallb (fun r => Nat.eqb (length r) features) (kernel p) = true
  /\ length (bias p) = features.
Proof.
  unfold dense_check.
  destruct (Nat.eqb_spec inputs 0), (Nat.eqb_spec features 0); simpl; try discriminate.
  destruct (_ && _) eqn:Hshape; [| discriminate]. intros _.
  apply andb_true_iff in Hshape as [Hshape Hbias].
  apply andb_true_iff in Hshape as [Hk Hrows]. apply Nat.eqb_eq in Hk, Hbias.
  split_and!; try assumption; lia.
Qed.

Lemma dense_apply_length (inputs features : nat) (p : DenseParams) (x : list f32) :
  dense_check inputs features p = Ok tt -> length (dense_apply features p x) = features.
Proof.
  intros Hcheck. apply dense_check_Ok in Hcheck as (_ & _ & _ & Hrows & Hbias).
  unfold dense_apply, vecmat. rewrite length_zip_with.
  rewrite (vecmat_length features); [lia | exact Hrows | apply length_replicate].
Qed.

Lemma dense_length (features : nat) (p : DenseParams) (x y : list f32) :
  dense features p x = Ok y -> length y = features.
Proof.
  unfold dense. intros Hy. inv_binds. subst y. destruct a.
  eapply dense_apply_length. eassumption.
Qed.

Lemma relu_length (x : list f32) : length (relu x) = length x.
Proof. apply length_map. Qed.

Lemma DQN_call_n_actions (n : nat) (p : DQNLayers) (state : Tensor f32) (q : list f32) :
  DQN_call n p state = Ok q -> length q = n.
Proof.
  unfold DQN_call. destruct (shape state) as [|k [|? ?]]; try discriminate.
  destruct (Nat.eqb k _); [| discriminate].
  intros Hq. inv_binds. subst q. eapply dense_length. eassumption.
Qed.

(** [DQN(n_actions=n, state_shape=(k,))] *)
Definition DQN_object (n : nat) : DQN :=
  mkDQN DQNLayers n (DQN_call n) (DQN_call_n_actions n).

(** [dqn = DQN(n_actions=2, state_shape=(4,))] *)
Definition dqn : DQN := DQN_object 2.

(** Parameters with every kernel entry zero and every bias equal to [v]. *)
Definition constant_dense (inputs features : nat) (v : f32) : DenseParams :=
  mkDense (replicate inputs (replicate features F32.zero)) (replicate features v).

Definition bias_layers (v : f32) : DQNLayers :=
  mkLayers (constant_dense 4 128 F32.zero) (constant_dense 128 64 F32.zero)
    (constant_dense 64 2 v).

(** Parameters for which the network answers [[q0; q1]] on every finite
    state. *)
Definition constant_q (q0 q1 : f32) : DQNLayers :=
  mkLayers (constant_dense 4 128 F32.zero) (constant_dense 128 64 F32.zero)
    (mkDense (replicate 64 (replicate 2 F32.zero)) [q0; q1]).

(** 0.99 rounded to float32 *)
Definition gamma_099 : f32 := S754_finite false 16609444 (-24).

End Network.

(** ** Claims about the agent *)

Module ModelClaims.

Import Buffer Model F32Facts ModelFacts Network.

(** *** Terminal transitions *)





Lemma add_zero_row (z : f32) (r : list f32) : forall d : list bool,
  F32.is_zero z = true -> length d = length r ->
  Forall2 F32.same_number (zip_with F32.add r (map (fun _ => z) d)) r.
Proof.
  induction r as [|x r IH]; intros [|b d] Hz Hlen; simpl in *; try discriminate.
  - constructor.
  - constructor; [apply add_zero_same; exact Hz | apply IH; [exact Hz | lia]].
Qed.

(** A terminal transition of the cartpole agent with the given next
    state. *)
Definition terminal_transition (next_state : list f32) : Transition :=
  (mkTensor [4%nat] (replicate 4 F32.one), mkTensor [1%nat] [1],
   mkTensor [1%nat] [F32.one], mkTensor [1%nat] [true], mkTensor [4%nat] next_state).

(** *** Double DQN *)

(** With different parameter sets that disagree on the best next action
    the two losses differ: under [params] the Q-values are [[0; 1]], under
    [target_params] they are [[2; 0]]. *)
Example double_dqn_differs :
  let t : Transition :=
    (mkTensor [4%nat] (replicate 4 F32.one), mkTensor [1%nat] [1],
     mkTensor [1%nat] [F32.one], mkTensor [1%nat] [false],
     mkTensor [4%nat] (replicate 4 F32.one)) in
  compute_loss_double_dqn dqn (constant_q F32.zero F32.one)
    (constant_q (F32.of_Z 2) F32.zero) t F32.one = Ok F32.zero
  /\ compute_loss dqn (constant_q F32.zero F32.one)
       (constant_q (F32.of_Z 2) F32.zero) t F32.one = Ok (F32.of_Z 4).
Proof. split; vm_compute; reflexivity. Qed.

(** *** The target network *)

(** C5: [update_target] makes [target_params] equal to [params] and leaves
    [params], the optimizer state and the other fields as they are; a second
    call changes nothing more. *)
Theorem update_target_copies_params {Fn P Tx Opt : Type} (state : DQNTrainState Fn P Tx Opt) :
  target_params (update_target state) = params state
  /\ params (update_target state) = params state
  /\ opt_state (update_target state) = opt_state state
  /\ tx (update_target state) = tx state
  /\ apply_fn (update_target state) = apply_fn state
  /\ step (update_target state) = step state
  /\ target_params (update_target (update_target state))
     = target_params (update_target state)
  /\ update_target (update_target state) = update_target state.
Proof. split_and!; reflexivity. Qed.

(** *** Action selection *)

Section SelectAction.
Context (R : JaxRandom).

Lemma select_action_cases (dqn : DQN) (rng : PRNGKey) (params : DQNParameters dqn)
    (state : Tensor f32) (epsilon : f32) (q : list f32) :
  apply dqn params state = Ok q -> (0 < n_actions dqn)%nat ->
  exists greedy,
    jnp_argmax q = Ok greedy
    /\ select_action dqn rng params state epsilon
       = Ok (if F32.ltb (uniform (split (split rng).1).2) epsilon
             then choice (split rng).2 (n_actions dqn) else greedy).
Proof.
  intros Hq Hn. pose proof (apply_n_actions dqn _ _ _ Hq) as Hlen.
  destruct (jnp_argmax_Ok q) as [greedy Hgreedy].
  { intros ->. simpl in Hlen. lia. }
  exists greedy. split; [exact Hgreedy |].
  unfold select_action. rewrite Hq. simpl. rewrite Hgreedy. simpl.
  destruct (split rng) as [key subkey]. simpl.
  rewrite Hlen. destruct (Nat.eqb_spec (n_actions dqn) 0) as [Hz|_]; [lia |]. simpl.
  destruct (split key) as [key' subkey']. reflexivity.
Qed.

(** C6: with [epsilon == 0] (of either sign) the call returns the greedy
    action [argmax_a Q(state; params)[a]] whatever the key; with
    [epsilon == 1] it returns the candidate random action, the draw of
    [jax.random.choice] over the [n_actions] actions, which lies below
    [n_actions]. *)
Theorem select_action_boundaries (dqn : DQN) (rng : PRNGKey) (params : DQNParameters dqn)
    (state : Tensor f32) (q : list f32) :
  apply dqn params state = Ok q -> (0 < n_actions dqn)%nat ->
  (forall s, exists greedy,
      jnp_argmax q = Ok greedy
      /\ select_action dqn rng params state (S754_zero s) = Ok greedy)
  /\ select_action dqn rng params state F32.one
     = Ok (choice (split rng).2 (n_actions dqn))
  /\ (choice (split rng).2 (n_actions dqn) < n_actions dqn)%nat.
Proof.
  intros Hq Hn. split_and!.
  - intros s.
    destruct (select_action_cases dqn rng params state (S754_zero s) q Hq Hn)
      as (greedy & Hgreedy & Hsel).
    exists greedy. split; [exact Hgreedy |].
    rewrite Hsel, ltb_zero_of_nonneg; [reflexivity | apply uniform_range].
  - destruct (select_action_cases dqn rng params state F32.one q Hq Hn)
      as (greedy & _ & Hsel).
    rewrite Hsel. rewrite (proj2 (uniform_range _)). reflexivity.
  - apply choice_range. exact Hn.
Qed.

End SelectAction.

Lemma select_action_boundaries_witness :
  select_action (H := CounterRandom.source) dqn 2 (bias_layers F32.zero)
    (mkTensor [4%nat] (replicate 4 F32.one)) F32.one = Ok 1%nat.
Proof.
  eapply (proj1 (proj2 (select_action_boundaries CounterRandom.source dqn 2
                          (bias_layers F32.zero) (mkTensor [4%nat] (replicate 4 F32.one))
                          [F32.zero; F32.zero] _ _))).
  Unshelve.
  - vm_compute. reflexivity.
  - simpl. lia.
Defined.

End ModelClaims.

(** * Further properties of the replay buffer *)

Module BufferRuns.

Import Buffer BufferFacts.

Lemma add_all_app (ts us : list Transition) : forall b,
  add_all b (ts ++ us) = add_all b ts ≫= (fun b' => add_all b' us).
Proof.
  induction ts as [|t ts IH]; intros b; simpl; [reflexivity |].
  destruct (add_transition b t) as [b1|e]; simpl; [apply IH | reflexivity].
Qed.

Lemma mod_apart (capacity k n : nat) :
  (k < n)%nat -> (n < k + capacity)%nat -> (k mod capacity)%nat <> (n mod capacity)%nat.
Proof.
  intros Hkn Hnk Heq.
  assert (Hcap : capacity <> 0%nat) by lia.
  pose proof (Nat.div_mod_eq k capacity) as Hk.
  pose proof (Nat.div_mod_eq n capacity) as Hn.
  rewrite Heq in Hk.
  assert (Hle : (k / capacity <= n / capacity)%nat) by (apply Nat.Div0.div_le_mono; lia).
  destruct (Nat.eq_dec (k / capacity)%nat (n / capacity)%nat) as [Hq|Hq].
  - rewrite Hq in Hk. lia.
  - assert (Hstep : (capacity * (k / capacity + 1) <= capacity * (n / capacity))%nat)
      by (apply Nat.mul_le_mono_l; lia).
    rewrite Nat.mul_add_distr_l, Nat.mul_1_r in Hstep. lia.
Qed.

Lemma to_nat_mod (n capacity : nat) :
  Z.to_nat (Z.of_nat n mod Z.of_nat capacity) = (n mod capacity)%nat.
Proof. rewrite <- Nat2Z.inj_mod. apply Nat2Z.id. Qed.

(** The storage after a run of fitting transitions from [init_buffer]:
    transition number [k] sits in row [k mod capacity] as long as fewer than
    [capacity] transitions came after it. *)
Lemma run_rows (capacity : nat) (state_shape : list nat) (ts : list Transition) :
  (0 < capacity)%nat -> Z.of_nat capacity <= int32_max ->
  Forall (fits state_shape) ts ->
  exists b,
    add_all (init_buffer capacity state_shape) ts = Ok b
    /\ well_formed capacity state_shape b
    /\ cursor b = Z.of_nat (length ts) mod Z.of_nat capacity
    /\ forall k t, ts !! k = Some t -> (length ts <= k + capacity)%nat ->
         row_at b (k mod capacity)%nat = Some t.
Proof.
  intros Hpos Hmax. induction ts as [|t ts IH] using rev_ind; intros Hfits.
  - exists (init_buffer capacity state_shape). split_and!.
    + reflexivity.
    + apply init_buffer_well_formed. exact Hpos.
    + simpl. rewrite Z.mod_0_l by lia. reflexivity.
    + intros k t Hk. rewrite lookup_nil in Hk. discriminate.
  - apply Forall_app in Hfits as [Hfits Hfit]. apply Forall_inv in Hfit.
    destruct (IH Hfits) as (b & Hrun & Hwf & Hcur & Hrows).
    destruct (add_transition_fits _ _ _ _ Hmax Hwf Hfit) as (b' & Hadd & Hcur' & Hrow & Hother).
    rewrite Hcur, to_nat_mod in Hrow, Hother.
    exists b'. split_and!.
    + rewrite add_all_app, Hrun. simpl. rewrite Hadd. reflexivity.
    + eapply add_transition_well_formed; eassumption.
    + rewrite Hcur', Hcur, Zplus_mod_idemp_l, length_app. simpl.
      f_equal. lia.
    + intros k t' Hk Hrecent. rewrite length_app in Hrecent. simpl in Hrecent.
      destruct (Nat.eq_dec k (length ts)) as [->|Hne].
      * rewrite list_lookup_middle in Hk by reflexivity. injection Hk as <-. exact Hrow.
      * assert (Hlt : (k < length ts)%nat).
        { apply lookup_lt_Some in Hk. rewrite length_app in Hk. simpl in Hk. lia. }
        rewrite lookup_app_l in Hk by exact Hlt.
        rewrite Hother by (apply mod_apart; lia).
        apply Hrows; [exact Hk | lia].
Qed.

(** Every window of [capacity] consecutive positions holds each row number
    once. *)
Lemma window_index (capacity i : nat) : forall base : nat,
  (i < capacity)%nat ->
  exists k, (base <= k < base + capacity)%nat /\ (k mod capacity)%nat = i.
Proof.
  intros base Hi. induction base as [|base (k & Hk & Hmod)].
  - exists i. split; [lia | apply Nat.mod_small; exact Hi].
  - destruct (Nat.eq_dec k base) as [->|Hne].
    + exists (base + capacity)%nat. split; [lia |].
      rewrite <- Hmod. replace (base + capacity)%nat with (base + 1 * capacity)%nat by lia.
      apply Nat.Div0.mod_add.
    + exists k. split; [lia | exact Hmod].
Qed.

(** X1: after [n] successful calls from [init_buffer] the cursor is
    [n mod capacity], and [full] is true exactly when [n >= capacity]. *)
Theorem cursor_and_full_after_run (capacity : nat) (state_shape : list nat)
    (ts : list Transition) (b : ReplayBufferStorage) :
  (0 < capacity)%nat -> Z.of_nat capacity <= int32_max ->
  add_all (init_buffer capacity state_shape) ts = Ok b ->
  cursor b = Z.of_nat (length ts mod capacity)
  /\ (full b = true <-> (capacity <= length ts)%nat).
Proof.
  intros Hpos Hmax Hrun.
  pose proof (init_buffer_well_formed capacity state_shape Hpos) as Hwf0.
  destruct (add_all_cursor _ _ _ _ _ Hmax Hwf0 Hrun) as [Hcur Hfull].
  simpl in Hcur, Hfull. split.
  - rewrite Hcur, Nat2Z.inj_mod. reflexivity.
  - split.
    + intros Hb. destruct (le_lt_dec capacity (length ts)) as [Hle|Hlt]; [exact Hle |].
      rewrite (add_all_not_full capacity state_shape ts _ b Hmax Hwf0 eq_refl) in Hb;
        [discriminate | simpl; lia | exact Hrun].
    + intros Hle. apply Hfull. lia.
Qed.

Lemma cursor_and_full_after_run_witness :
  cursor Scenario.five_of_four = Z.of_nat (5 mod 4)
  /\ (full Scenario.five_of_four = true <-> (4 <= 5)%nat).
Proof.
  apply (cursor_and_full_after_run 4 [1%nat] (map Scenario.transition_of [0; 1; 2; 3; 4])
           Scenario.five_of_four); [lia | unfold int32_max; lia | reflexivity].
Defined.

(** X2: the storage is a first-in-first-out window: after any run of
    fitting transitions from [init_buffer], transition number [k] is stored in
    row [k mod capacity] for each of the last [capacity] (or fewer)
    transitions of the run. *)
Theorem buffer_holds_most_recent (capacity : nat) (state_shape : list nat)
    (ts : list Transition) :
  (0 < capacity)%nat -> Z.of_nat capacity <= int32_max ->
  Forall (fits state_shape) ts ->
  exists b,
    add_all (init_buffer capacity state_shape) ts = Ok b
    /\ forall k t, ts !! k = Some t -> (length ts <= k + capacity)%nat ->
         row_at b (k mod capacity)%nat = Some t.
Proof.
  intros Hpos Hmax Hfits.
  destruct (run_rows capacity state_shape ts Hpos Hmax Hfits) as (b & Hrun & _ & _ & Hrows).
  exists b. split; assumption.
Qed.

Lemma buffer_holds_most_recent_witness :
  exists b,
    add_all (init_buffer 4 [1%nat]) (map Scenario.transition_of [0; 1; 2; 3; 4]) = Ok b
    /\ forall k t, map Scenario.transition_of [0; 1; 2; 3; 4] !! k = Some t ->
         (5 <= k + 4)%nat -> row_at b (k mod 4)%nat = Some t.
Proof.
  apply (buffer_holds_most_recent 4 [1%nat] (map Scenario.transition_of [0; 1; 2; 3; 4]));
    [lia | unfold int32_max; lia
     | repeat (apply Forall_cons; split; [repeat split |]); apply Forall_nil_2].
Defined.

(** X3: once at least one fitting transition was added, [sample_transition]
    returns one of the last [capacity] transitions of the run, whatever the
    random source: never a row that was not written, never a transition
    that was overwritten. *)
Theorem sample_returns_recent (R : JaxRandom) (capacity : nat) (state_shape : list nat)
    (ts : list Transition) (rng : PRNGKey) :
  (0 < capacity)%nat -> Z.of_nat capacity <= int32_max ->
  Forall (fits state_shape) ts -> ts <> [] ->
  exists b k tr,
    add_all (init_buffer capacity state_shape) ts = Ok b
    /\ sample_transition rng b = Ok tr
    /\ ts !! k = Some tr
    /\ (length ts <= k + capacity)%nat.
Proof.
  intros Hpos Hmax Hfits Hne.
  destruct (run_rows capacity state_shape ts Hpos Hmax Hfits)
    as (b & Hrun & Hwf & Hcur & Hrows).
  pose proof (init_buffer_well_formed capacity state_shape Hpos) as Hwf0.
  assert (Hlen : (0 < length ts)%nat) by (destruct ts; [congruence | simpl; lia]).
  assert (Hwindow : exists k : nat,
    (k < length ts)%nat /\ (length ts <= k + capacity)%nat
    /\ Z.of_nat (k mod capacity) = sample_index rng b).
  { destruct (le_lt_dec capacity (length ts)) as [Hle|Hlt].
    - assert (Hfull : full b = true).
      { apply (add_all_cursor _ _ _ _ _ Hmax Hwf0 Hrun). simpl. lia. }
      assert (Hrange : 0 <= sample_index rng b < Z.of_nat capacity).
      { rewrite <- (sample_bound_full _ _ _ Hwf Hfull). apply sample_index_range.
        rewrite (sample_bound_full _ _ _ Hwf Hfull). lia. }
      destruct (window_index capacity (Z.to_nat (sample_index rng b))
                  (length ts - capacity)) as (k & Hk & Hmod); [lia |].
      exists k. split_and!; [lia | lia | rewrite Hmod; lia].
    - assert (Hfull : full b = false).
      { apply (add_all_not_full capacity state_shape ts _ b Hmax Hwf0 eq_refl);
          [simpl; lia | exact Hrun]. }
      rewrite Z.mod_small in Hcur by lia.
      assert (Hbound : sample_bound b = Z.of_nat (length ts)).
      { unfold sample_bound. rewrite Hfull, Hcur. reflexivity. }
      assert (Hrange : 0 <= sample_index rng b < Z.of_nat (length ts)).
      { rewrite <- Hbound. apply sample_index_range. rewrite Hbound. lia. }
      exists (Z.to_nat (sample_index rng b)). split_and!; [lia | lia |].
      rewrite Nat.mod_small by lia. lia. }
  destruct Hwindow as (k & Hk & Hrecent & Hrow).
  destruct (lookup_lt_is_Some_2 ts k Hk) as [t Ht].
  pose proof (Hrows k t Ht Hrecent) as Hstored.
  destruct (sample_transition_row capacity state_shape rng b Hwf) as (tr & Htr & Hsample).
  { rewrite <- Hrow. pose proof (Nat.mod_upper_bound k capacity). lia. }
  rewrite <- Hrow, Nat2Z.id, Hstored in Htr. injection Htr as <-.
  exists b, k, t. split_and!; assumption.
Qed.

Lemma sample_returns_recent_witness :
  exists b k tr,
    add_all (init_buffer 4 [1%nat]) (map Scenario.transition_of [0; 1; 2; 3; 4]) = Ok b
    /\ sample_transition (H := CounterRandom.source) 5 b = Ok tr
    /\ map Scenario.transition_of [0; 1; 2; 3; 4] !! k = Some tr
    /\ (5 <= k + 4)%nat.
Proof.
  apply (sample_returns_recent CounterRandom.source 4 [1%nat]
           (map Scenario.transition_of [0; 1; 2; 3; 4]) 5);
    [lia | unfold int32_max; lia
     | repeat (apply Forall_cons; split; [repeat split |]); apply Forall_nil_2
     | discriminate].
Defined.

End BufferRuns.

(** * Shapes in the replay buffer *)

Module BufferShapes.

Import Buffer BufferFacts.

(** The data of a value has as many elements as its shape says. *)
Definition tensor_ok {A} (v : Tensor A) : Prop := length (data v) = numel (shape v).

Definition transition_ok (t : Transition) : Prop :=
  let '(state, action, reward, done, next_state) := t in
  tensor_ok state /\ tensor_ok action /\ tensor_ok reward /\ tensor_ok done
  /\ tensor_ok next_state.

(** Every row of an array has as many elements as the row shape says. *)
Definition array_rect {A} (arr : Array A) : Prop :=
  Forall (fun r => length r = numel (row_shape arr)) (rows arr).

Definition storage_rect (b : ReplayBufferStorage) : Prop :=
  array_rect (states b) /\ array_rect (actions b) /\ array_rect (rewards b)
  /\ array_rect (dones b) /\ array_rect (next_states b).

Lemma chunks_length {A} (w n : nat) : forall d : list A, length (chunks w n d) = n.
Proof. induction n as [|n IH]; intros d; simpl; [reflexivity | rewrite IH; reflexivity]. Qed.

Lemma chunks_uniform {A} (w n : nat) : forall d : list A,
  length d = (n * w)%nat -> Forall (fun c => length c = w) (chunks w n d).
Proof.
  induction n as [|n IH]; intros d Hd; simpl; [constructor |].
  simpl in Hd. constructor.
  - rewrite length_take. lia.
  - apply IH. rewrite length_drop. lia.
Qed.

Lemma concat_length_uniform {A} (len : nat) (l : list (list A)) :
  Forall (fun c => length c = len) l -> length (concat l) = (length l * len)%nat.
Proof.
  induction 1 as [|c l Hc _ IH]; simpl; [reflexivity |].
  rewrite length_app, IH, Hc. reflexivity.
Qed.

Lemma expand_length {A} (src : list nat) : forall (tgt : list nat) (d : list A),
  dims_compatible src tgt = true -> length d = numel src ->
  length (expand src tgt d) = numel tgt.
Proof.
  induction src as [|s src IH]; intros [|t tgt] d Hc Hd; simpl in *; try discriminate.
  - exact Hd.
  - apply andb_true_iff in Hc as [Hst Hc].
    destruct (Nat.eqb_spec s t) as [->|Hne].
    + rewrite (concat_length_uniform (numel tgt)).
      * rewrite length_map, chunks_length. reflexivity.
      * apply Forall_map. eapply Forall_impl; [apply chunks_uniform; exact Hd |].
        simpl. intros c Hlen. apply IH; assumption.
    + rewrite orb_false_r in Hst. apply Nat.eqb_eq in Hst.
      subst s. rewrite (concat_length_uniform (numel tgt)).
      * rewrite length_replicate. reflexivity.
      * apply Forall_replicate. apply IH; [exact Hc | lia].
Qed.

Lemma dims_compatible_pad (sh : list nat) (n : nat) : forall tgt : list nat,
  (n <= length tgt)%nat -> dims_compatible sh (drop n tgt) = true ->
  dims_compatible (replicate n 1%nat ++ sh) tgt = true.
Proof.
  induction n as [|n IH]; intros tgt Hn Hc; simpl.
  - rewrite drop_0 in Hc. exact Hc.
  - destruct tgt as [|t tgt]; simpl in *; [lia |].
    apply IH; [lia | exact Hc].
Qed.

Lemma numel_pad (sh : list nat) (n : nat) : numel (replicate n 1%nat ++ sh) = numel sh.
Proof. induction n as [|n IH]; simpl in *; [reflexivity | lia]. Qed.

Lemma broadcast_to_length {A} (v : Tensor A) (tgt : list nat) (row : list A) :
  tensor_ok v -> broadcast_to v tgt = Ok row -> length row = numel tgt.
Proof.
  unfold tensor_ok, broadcast_to. intros Hv.
  destruct (shape_eqb (shape v) tgt) eqn:Heq.
  - apply shape_eqb_true in Heq. intros Hrow. injection Hrow as <-. congruence.
  - destruct (_ && _) eqn:Hc; [| discriminate].
    intros Hrow. injection Hrow as <-.
    apply andb_true_iff in Hc as [Hlen Hc]. apply Nat.leb_le in Hlen.
    apply expand_length.
    + apply dims_compatible_pad; [lia | exact Hc].
    + rewrite numel_pad. exact Hv.
Qed.

Lemma at_set_rect {A} (arr : Array A) (i : Z) (v : Tensor A) (arr' : Array A) :
  array_rect arr -> tensor_ok v -> at_set arr i v = Ok arr' -> array_rect arr'.
Proof.
  unfold array_rect. intros Harr Hv Hset.
  rewrite at_set_rows in Hset by exact (at_set_Ok_rows _ _ _ _ Hset).
  inv_binds. cbv zeta in Hset.
  pose proof (broadcast_to_length _ _ _ Hv Ha) as Hlen.
  destruct (_ && _); injection Hset as <-; simpl; [| exact Harr].
  apply Forall_insert; assumption.
Qed.

Lemma jnp_zeros_rect {A} (z : A) (n : nat) (sh : list nat) : array_rect (jnp_zeros z n sh).
Proof. unfold array_rect. simpl. apply Forall_replicate. apply length_replicate. Qed.

Lemma add_transition_rect b t b' :
  storage_rect b -> transition_ok t -> add_transition b t = Ok b' -> storage_rect b'.
Proof.
  intros (Hs & Ha & Hr & Hd & Hn) Ht Hadd.
  apply add_transition_inv in Hadd as (s & a & r & d & n & Hs' & Ha' & Hr' & Hd' & Hn' & ->).
  destruct t as [[[[state action] reward] done] next_state].
  destruct Ht as (Hts & Hta & Htr & Htd & Htn). simpl in *.
  unfold storage_rect. simpl. split_and!.
  - exact (at_set_rect _ _ _ _ Hs Hts Hs').
  - exact (at_set_rect _ _ _ _ Ha Hta Ha').
  - exact (at_set_rect _ _ _ _ Hr Htr Hr').
  - exact (at_set_rect _ _ _ _ Hd Htd Hd').
  - exact (at_set_rect _ _ _ _ Hn Htn Hn').
Qed.

Lemma getitem_ok {A} (arr : Array A) (i : Z) (v : Tensor A) :
  getitem arr i = Ok v ->
  shape v = row_shape arr /\ exists j, rows arr !! j = Some (data v).
Proof.
  unfold getitem. destruct (rows arr !! _) as [row|] eqn:Hrow; [| discriminate].
  intros Hv. injection Hv as <-. simpl. eauto.
Qed.

Lemma getitem_rect {A} (arr : Array A) (i : Z) (v : Tensor A) :
  array_rect arr -> getitem arr i = Ok v -> tensor_ok v.
Proof.
  intros Harr Hget. apply getitem_ok in Hget as [Hshape [j Hj]].
  unfold tensor_ok. rewrite Hshape.
  apply (Forall_lookup_1 _ _ _ _ Harr Hj).
Qed.

(** X4: the arrays stay rectangular.  Along every successful run of
    [add_transition] calls from [init_buffer] with values whose data match
    their shapes (of the rows' shapes or broadcast to them), every row of each
    of the five arrays has exactly as many elements as the row shape says,
    and so has every field that [sample_transition] returns. *)
Theorem storage_stays_rectangular (R : JaxRandom) (capacity : nat)
    (state_shape : list nat) (ts : list Transition) (b : ReplayBufferStorage) :
  Forall transition_ok ts ->
  add_all (init_buffer capacity state_shape) ts = Ok b ->
  storage_rect b
  /\ forall (rng : PRNGKey) tr, sample_transition rng b = Ok tr -> transition_ok tr.
Proof.
  intros Hts Hrun.
  assert (Hrect : storage_rect b).
  { assert (Hinit : storage_rect (init_buffer capacity state_shape))
      by (repeat split; apply jnp_zeros_rect).
    revert Hinit Hrun. generalize (init_buffer capacity state_shape).
    induction Hts as [|t ts Ht _ IH]; intros b0 Hb0 Hrun; simpl in Hrun.
    - injection Hrun as <-. exact Hb0.
    - inv_binds. eapply IH; [| exact Hrun]. eapply add_transition_rect; eassumption. }
  split; [exact Hrect |].
  intros rng tr. unfold sample_transition. destruct (split rng) as [key subkey].
  intros Hsample. inv_binds. subst tr.
  destruct Hrect as (Hs & Ha' & Hr & Hd & Hn).
  split_and!.
  - exact (getitem_rect _ _ _ Hs Ha).
  - exact (getitem_rect _ _ _ Ha' Ha0).
  - exact (getitem_rect _ _ _ Hr Ha1).
  - exact (getitem_rect _ _ _ Hd Ha2).
  - exact (getitem_rect _ _ _ Hn Ha3).
Qed.

(** A transition whose state has shape [(1,)] for rows of shape [(2, 2)]. *)
Definition stretched_transition : Transition :=
  (mkTensor [1%nat] [F32.one], mkTensor [] [1], mkTensor [] [F32.one],
   mkTensor [] [true], mkTensor [2%nat; 1%nat] [F32.zero; F32.one]).

Lemma storage_stays_rectangular_witness :
  exists b,
    add_all (init_buffer 3 [2%nat; 2%nat]) [stretched_transition; stretched_transition] = Ok b
    /\ storage_rect b.
Proof.
  eexists. split; [vm_compute; reflexivity |].
  eapply (storage_stays_rectangular CounterRandom.source 3 [2%nat; 2%nat]
            [stretched_transition; stretched_transition]);
    [repeat constructor | vm_compute; reflexivity].
Defined.

(** X5: what [sample_transition] returns has the shapes that
    [add_transition] expects: state and next state of the state shape,
    action, reward and done of shape [(1,)].  It can be added back as it is,
    and is then stored unchanged in row [cursor]. *)
Theorem sampled_transition_fits (R : JaxRandom) (capacity : nat) (state_shape : list nat)
    (rng : PRNGKey) (b : ReplayBufferStorage) (tr : Transition) :
  Z.of_nat capacity <= int32_max ->
  well_formed capacity state_shape b ->
  sample_transition rng b = Ok tr ->
  fits state_shape tr
  /\ exists b', add_transition b tr = Ok b'
                /\ row_at b' (Z.to_nat (cursor b)) = Some tr.
Proof.
  intros Hmax Hwf Hsample.
  assert (Hfits : fits state_shape tr).
  { pose proof Hwf as []. unfold sample_transition in Hsample.
    destruct (split rng) as [key subkey]. inv_binds. subst tr.
    apply getitem_ok in Ha as [Hs _], Ha0 as [Hact _], Ha1 as [Hr _], Ha2 as [Hd _],
      Ha3 as [Hn _].
    repeat split; congruence. }
  split; [exact Hfits |].
  destruct (add_transition_fits _ _ _ _ Hmax Hwf Hfits) as (b' & Hadd & _ & Hrow & _).
  exists b'. split; assumption.
Qed.

Lemma sampled_transition_fits_witness :
  fits [1%nat] (Scenario.transition_of 4)
  /\ exists b', add_transition Scenario.five_of_four (Scenario.transition_of 4) = Ok b'
                /\ row_at b' (Z.to_nat (cursor Scenario.five_of_four))
                   = Some (Scenario.transition_of 4).
Proof.
  apply (sampled_transition_fits CounterRandom.source 4 [1%nat] 5 Scenario.five_of_four
           (Scenario.transition_of 4));
    [unfold int32_max; lia | split; try reflexivity; simpl; lia | reflexivity].
Defined.

(** X6: a transition whose action, reward and done flag are scalars (shape
    [()]) is accepted by a well-formed storage; each scalar is stored as a row
    of shape [(1,)], so reading the row back gives the values with shape
    [(1,)], not [()]. *)
Theorem scalar_fields_are_stored (capacity : nat) (state_shape : list nat)
    (b : ReplayBufferStorage) (state next_state : Tensor f32)
    (action : Z) (reward : f32) (done : bool) :
  Z.of_nat capacity <= int32_max ->
  well_formed capacity state_shape b ->
  shape state = state_shape -> shape next_state = state_shape ->
  exists b',
    add_transition b
      (state, mkTensor [] [action], mkTensor [] [reward], mkTensor [] [done], next_state)
    = Ok b'
    /\ row_at b' (Z.to_nat (cursor b))
       = Some (state, mkTensor [1%nat] [action], mkTensor [1%nat] [reward],
               mkTensor [1%nat] [done], next_state).
Proof.
  intros Hmax Hwf Hs Hn. pose proof Hwf as [].
  unfold add_transition.
  rewrite (at_set_exact (states b)); [simpl | congruence | lia].
  rewrite (at_set_exact (next_states b)); [simpl | congruence | lia].
  rewrite (at_set_rows (actions b)), (at_set_rows (rewards b)), (at_set_rows (dones b))
    by (intros Hrows; rewrite ?wf_actions0, ?wf_rewards0, ?wf_dones0 in *;
        apply (f_equal length) in Hrows; simpl in Hrows; lia).
  rewrite wf_action_shape0, wf_reward_shape0, wf_done_shape0. simpl.
  rewrite wf_actions0, wf_rewards0, wf_dones0, norm_index_nonneg by lia.
  destruct (Z.leb_spec 0 (cursor b)); [| lia].
  destruct (Z.ltb_spec (cursor b) (Z.of_nat capacity)); [| lia].
  simpl. eexists. split; [reflexivity |].
  unfold row_at. simpl.
  rewrite !list_lookup_insert_eq by lia. simpl.
  destruct state, next_state; simpl in *.
  rewrite wf_state_shape0, wf_next_state_shape0, Hs, Hn. reflexivity.
Qed.

Lemma scalar_fields_are_stored_witness :
  exists b',
    add_transition Scenario.three_of_ten
      (mkTensor [1%nat] [F32.one], mkTensor [] [1], mkTensor [] [F32.one],
       mkTensor [] [true], mkTensor [1%nat] [F32.zero])
    = Ok b'
    /\ row_at b' (Z.to_nat (cursor Scenario.three_of_ten))
       = Some (mkTensor [1%nat] [F32.one], mkTensor [1%nat] [1], mkTensor [1%nat] [F32.one],
               mkTensor [1%nat] [true], mkTensor [1%nat] [F32.zero]).
Proof.
  apply (scalar_fields_are_stored 10 [1%nat] Scenario.three_of_ten);
    [unfold int32_max; lia | split; try reflexivity; simpl; lia | reflexivity | reflexivity].
Defined.

End BufferShapes.

(** * The order of float32 values *)

Module F32Order.

(** A key whose lexicographic order is the order of the values that are not
    NaN: the class (negative infinity, negative, zero, positive, positive
    infinity), then exponent and mantissa. *)
Definition key (x : f32) : Z * Z * Z :=
  match x with
  | S754_nan => (3, 0, 0)
  | S754_infinity true => (-2, 0, 0)
  | S754_infinity false => (2, 0, 0)
  | S754_zero _ => (0, 0, 0)
  | S754_finite true m e => (-1, - e, Zneg m)
  | S754_finite false m e => (1, e, Zpos m)
  end.

Definition key_lt (a b : Z * Z * Z) : Prop :=
  a.1.1 < b.1.1
  \/ (a.1.1 = b.1.1 /\ (a.1.2 < b.1.2 \/ (a.1.2 = b.1.2 /\ a.2 < b.2))).

Ltac key_cases H :=
  unfold key_lt in *; simpl in *;
  first
    [ reflexivity
    | discriminate
    | lia
    | left; lia
    | right; reflexivity
    | destruct H as [H|H]; [lia | first [discriminate | injection H; intros; lia]] ].

Lemma compare_key (x y : f32) :
  F32.is_nan x = false -> F32.is_nan y = false ->
  (F32.ltb x y = true <-> key_lt (key x) (key y))
  /\ (F32.leb x y = true <-> key_lt (key x) (key y) \/ key x = key y).
Proof.
  unfold F32.ltb, F32.leb, SFltb, SFleb, SFcompare.
  destruct x as [sx|sx| |sx mx ex], y as [sy|sy| |sy my ey]; intros Hx Hy;
    try discriminate; try destruct sx; try destruct sy;
    try (split; split; intros H; key_cases H).
  - change (Pos.compare_cont Eq mx my) with (mx ?= my)%positive.
    destruct (Z.compare_spec ex ey) as [He|He|He];
      destruct (Pos.compare_spec mx my) as [Hm|Hm|Hm]; subst;
      split; split; intros H; key_cases H.
  - change (Pos.compare_cont Eq mx my) with (mx ?= my)%positive.
    destruct (Z.compare_spec ex ey) as [He|He|He];
      destruct (Pos.compare_spec mx my) as [Hm|Hm|Hm]; subst;
      split; split; intros H; key_cases H.
Qed.

Lemma ltb_not_nan (x y : f32) :
  F32.ltb x y = true -> F32.is_nan x = false /\ F32.is_nan y = false.
Proof.
  unfold F32.ltb, SFltb, SFcompare.
  destruct x, y; intros; try discriminate; split; reflexivity.
Qed.

Lemma leb_not_nan (x y : f32) :
  F32.leb x y = true -> F32.is_nan x = false /\ F32.is_nan y = false.
Proof.
  unfold F32.leb, SFleb, SFcompare.
  destruct x, y; intros; try discriminate; split; reflexivity.
Qed.

Lemma leb_refl (x : f32) : F32.is_nan x = false -> F32.leb x x = true.
Proof. intros Hx. apply (compare_key x x Hx Hx). right. reflexivity. Qed.

Lemma ltb_leb (x y : f32) : F32.ltb x y = true -> F32.leb x y = true.
Proof.
  intros H. destruct (ltb_not_nan _ _ H) as [Hx Hy].
  apply (compare_key x y Hx Hy). left. apply (compare_key x y Hx Hy). exact H.
Qed.

Lemma ltb_leb_trans (x y z : f32) :
  F32.ltb x y = true -> F32.leb y z = true -> F32.ltb x z = true.
Proof.
  intros Hxy Hyz.
  destruct (ltb_not_nan _ _ Hxy) as [Hx Hy]. destruct (leb_not_nan _ _ Hyz) as [_ Hz].
  apply (compare_key x y Hx Hy) in Hxy. apply (compare_key y z Hy Hz) in Hyz.
  apply (compare_key x z Hx Hz).
  destruct Hyz as [Hyz | <-]; [| exact Hxy].
  unfold key_lt in *. lia.
Qed.

Lemma leb_ltb_trans (x y z : f32) :
  F32.leb x y = true -> F32.ltb y z = true -> F32.ltb x z = true.
Proof.
  intros Hxy Hyz.
  destruct (leb_not_nan _ _ Hxy) as [Hx Hy]. destruct (ltb_not_nan _ _ Hyz) as [_ Hz].
  apply (compare_key x y Hx Hy) in Hxy. apply (compare_key y z Hy Hz) in Hyz.
  apply (compare_key x z Hx Hz).
  destruct Hxy as [Hxy | ->]; [| exact Hyz].
  unfold key_lt in *. lia.
Qed.

(** Values that are not NaN are comparable. *)
Lemma leb_total (x y : f32) :
  F32.is_nan x = false -> F32.is_nan y = false ->
  F32.ltb x y = false -> F32.leb y x = true.
Proof.
  intros Hx Hy Hlt. apply (compare_key y x Hy Hx).
  assert (Hnot : ~ key_lt (key x) (key y)).
  { intros Hk. apply (compare_key x y Hx Hy) in Hk. congruence. }
  destruct (key x) as [[cx ex] mx], (key y) as [[cy ey] my].
  unfold key_lt in *. simpl in *.
  destruct (Z.eq_dec cx cy) as [->|?]; [| left; lia].
  destruct (Z.eq_dec ex ey) as [->|?]; [| left; lia].
  destruct (Z.eq_dec mx my) as [->|?]; [right; reflexivity | left; lia].
Qed.

End F32Order.

(** * Further properties of the agent *)

Module GreedyChoice.

Import Buffer Model F32Facts ModelFacts F32Order.

Definition no_nan (q : list f32) : Prop := Forall (fun x => F32.is_nan x = false) q.

Lemma argmax_from_optimal (rest : list f32) :
  forall (pre : list f32) (best_i : nat) (best : f32),
  no_nan (pre ++ rest) ->
  pre !! best_i = Some best ->
  (forall j y, pre !! j = Some y -> F32.leb y best = true) ->
  (forall j y, (j < best_i)%nat -> pre !! j = Some y -> F32.ltb y best = true) ->
  exists v,
    (pre ++ rest) !! argmax_from best_i best (length pre) rest = Some v
    /\ (forall j y, (pre ++ rest) !! j = Some y -> F32.leb y v = true)
    /\ (forall j y, (j < argmax_from best_i best (length pre) rest)%nat ->
          (pre ++ rest) !! j = Some y -> F32.ltb y v = true).
Proof.
  induction rest as [|x rest IH]; intros pre best_i best Hnan Hbest Hle Hlt.
  - simpl. rewrite app_nil_r. exists best. split_and!; assumption.
  - assert (Hbn : F32.is_nan best = false).
    { apply (Forall_lookup_1 _ _ best_i best Hnan). apply lookup_app_l_Some. exact Hbest. }
    assert (Hxn : F32.is_nan x = false).
    { apply (Forall_lookup_1 _ _ (length pre) x Hnan). apply list_lookup_middle. reflexivity. }
    pose proof (lookup_lt_Some _ _ _ Hbest) as Hbi.
    simpl. rewrite Hbn, Hxn. simpl.
    replace (pre ++ x :: rest) with ((pre ++ [x]) ++ rest) in *
      by (rewrite <- app_assoc; reflexivity).
    replace (S (length pre)) with (length (pre ++ [x])) by (rewrite length_app; simpl; lia).
    destruct (F32.ltb best x) eqn:Hcmp.
    + apply IH; [exact Hnan | apply list_lookup_middle; reflexivity | |].
      * intros j y Hj. apply lookup_app_Some in Hj as [Hj | [_ Hj]].
        -- apply ltb_leb. eapply leb_ltb_trans; [eapply Hle; exact Hj | exact Hcmp].
        -- apply list_lookup_singleton_Some in Hj as [_ <-]. apply leb_refl. exact Hxn.
      * intros j y Hjlt Hj. rewrite lookup_app_l in Hj by exact Hjlt.
        eapply leb_ltb_trans; [eapply Hle; exact Hj | exact Hcmp].
    + apply IH; [exact Hnan | apply lookup_app_l_Some; exact Hbest | |].
      * intros j y Hj. apply lookup_app_Some in Hj as [Hj | [_ Hj]].
        -- eapply Hle. exact Hj.
        -- apply list_lookup_singleton_Some in Hj as [_ <-].
           apply leb_total; assumption.
      * intros j y Hjlt Hj. rewrite lookup_app_l in Hj by lia.
        eapply Hlt; eassumption.
Qed.

(** Without NaN the position [jnp.argmax] returns holds a largest value,
    and every value before it is strictly smaller. *)
Lemma jnp_argmax_optimal (q : list f32) (a : nat) :
  no_nan q -> jnp_argmax q = Ok a ->
  exists v,
    q !! a = Some v
    /\ (forall j y, q !! j = Some y -> F32.leb y v = true)
    /\ (forall j y, (j < a)%nat -> q !! j = Some y -> F32.ltb y v = true).
Proof.
  destruct q as [|x xs]; simpl; [discriminate |].
  intros Hnan Ha. injection Ha as <-.
  apply (argmax_from_optimal xs [x] 0 x); [exact Hnan | reflexivity | |].
  - intros [|j] y Hj; simpl in Hj; [| rewrite lookup_nil in Hj; discriminate].
    injection Hj as <-. apply leb_refl.
    apply (Forall_lookup_1 _ _ 0%nat x Hnan). reflexivity.
  - intros j y Hj. lia.
Qed.


Section Greedy.
Context (R : JaxRandom).

(** X7: with [epsilon == 0] and Q-values without NaN, the action that
    [select_action] returns has a largest Q-value, and every action with a
    smaller index has a strictly smaller Q-value: ties go to the lowest
    index. *)
Theorem greedy_action_is_best (dqn : DQN) (rng : PRNGKey) (params : DQNParameters dqn)
    (state : Tensor f32) (q : list f32) (s : bool) (action : nat) :
  apply dqn params state = Ok q -> no_nan q ->
  select_action dqn rng params state (S754_zero s) = Ok action ->
  exists v,
    q !! action = Some v
    /\ (forall j y, q !! j = Some y -> F32.leb y v = true)
    /\ (forall j y, (j < action)%nat -> q !! j = Some y -> F32.ltb y v = true).
Proof.
  intros Hq Hnan Hsel.
  assert (Hgreedy : jnp_argmax q = Ok action).
  { unfold select_action in Hsel. rewrite Hq in Hsel. simpl in Hsel.
    destruct (jnp_argmax q) as [greedy|e]; simpl in Hsel; [| discriminate].
    destruct (split rng) as [key subkey].
    destruct (Nat.eqb (length q) 0); simpl in Hsel; [discriminate |].
    destruct (split key) as [key' subkey'].
    rewrite ltb_zero_of_nonneg in Hsel by apply uniform_range.
    exact Hsel. }
  apply jnp_argmax_optimal; assumption.
Qed.

(** X8: raising [epsilon] can only turn a greedy choice into the random
    candidate.  If for [epsilon1 <= epsilon2] (and everything else equal) the
    two calls return different actions, the one for [epsilon1] is the greedy
    action and the one for [epsilon2] is the candidate of
    [jax.random.choice]. *)
Theorem epsilon_monotone (dqn : DQN) (rng : PRNGKey) (params : DQNParameters dqn)
    (state : Tensor f32) (epsilon1 epsilon2 : f32) (q : list f32) (a1 a2 : nat) :
  apply dqn params state = Ok q ->
  F32.leb epsilon1 epsilon2 = true ->
  select_action dqn rng params state epsilon1 = Ok a1 ->
  select_action dqn rng params state epsilon2 = Ok a2 ->
  a1 <> a2 ->
  jnp_argmax q = Ok a1 /\ a2 = choice (split rng).2 (n_actions dqn).
Proof.
  intros Hq Hle Hsel1 Hsel2 Hne.
  pose proof (apply_n_actions dqn _ _ _ Hq) as Hlen.
  unfold select_action in Hsel1, Hsel2. rewrite Hq in Hsel1, Hsel2. simpl in Hsel1, Hsel2.
  destruct (jnp_argmax q) as [greedy|e]; simpl in Hsel1, Hsel2; [| discriminate].
  destruct (split rng) as [key subkey]. simpl.
  destruct (Nat.eqb (length q) 0); simpl in Hsel1, Hsel2; [discriminate |].
  destruct (split key) as [key' subkey'].
  injection Hsel1 as Hsel1. injection Hsel2 as Hsel2. rewrite Hlen in Hsel1, Hsel2.
  destruct (F32.ltb (uniform subkey') epsilon1) eqn:H1.
  - rewrite (ltb_leb_trans _ _ _ H1 Hle) in Hsel2. congruence.
  - destruct (F32.ltb (uniform subkey') epsilon2); [| congruence].
    subst. split; reflexivity.
Qed.

(** X9: a network without actions gives no action: [select_action] raises
    for every key, state and [epsilon]. *)
Theorem select_action_without_actions (dqn : DQN) (rng : PRNGKey)
    (params : DQNParameters dqn) (state : Tensor f32) (epsilon : f32) :
  n_actions dqn = 0%nat ->
  exists e, select_action dqn rng params state epsilon = Raise e.
Proof.
  intros Hzero. unfold select_action.
  destruct (apply dqn params state) as [q|e] eqn:Hq; simpl; [| eauto].
  pose proof (apply_n_actions dqn _ _ _ Hq) as Hlen. rewrite Hzero in Hlen.
  destruct q; [| discriminate]. simpl. eauto.
Qed.

End Greedy.

Definition unit_state : Tensor f32 := mkTensor [4%nat] (replicate 4 F32.one).

Lemma greedy_action_is_best_witness :
  exists v,
    [F32.one; F32.one] !! 0%nat = Some v
    /\ (forall j y, [F32.one; F32.one] !! j = Some y -> F32.leb y v = true)
    /\ (forall j y, (j < 0)%nat -> [F32.one; F32.one] !! j = Some y -> F32.ltb y v = true).
Proof.
  apply (greedy_action_is_best CounterRandom.source Network.dqn 2
           (Network.constant_q F32.one F32.one) unit_state [F32.one; F32.one] false 0);
    [vm_compute; reflexivity | repeat constructor | vm_compute; reflexivity].
Defined.

Lemma epsilon_monotone_witness :
  jnp_argmax [F32.one; F32.zero] = Ok 0%nat
  /\ 1%nat = @choice CounterRandom.source (@split CounterRandom.source 2).2
               (n_actions Network.dqn).
Proof.
  apply (epsilon_monotone CounterRandom.source Network.dqn 2
           (Network.constant_q F32.one F32.zero) unit_state F32.zero F32.one
           [F32.one; F32.zero] 0 1);
    [vm_compute; reflexivity | reflexivity | vm_compute; reflexivity
     | vm_compute; reflexivity | discriminate].
Defined.

Lemma select_action_without_actions_witness :
  exists e,
    select_action (H := CounterRandom.source) (Network.DQN_object 0) 2
      (Network.bias_layers F32.zero) unit_state F32.one = Raise e.
Proof.
  apply (select_action_without_actions CounterRandom.source (Network.DQN_object 0) 2
           (Network.bias_layers F32.zero) unit_state F32.one).
  reflexivity.
Defined.



End GreedyChoice.

Module LossFacts.

Import Buffer Model F32Facts ModelFacts.

(** NaN, or a value whose sign bit is clear. *)
Definition not_negative (x : f32) : bool :=
  match x with
  | S754_nan => true
  | S754_zero s | S754_infinity s | S754_finite s _ _ => negb s
  end.

Lemma binary_round_aux_sign (sx : bool) (mx ex : Z) (lx : location) :
  match binary_round_aux F32.prec F32.emax sx mx ex lx with
  | S754_nan => True
  | S754_zero s | S754_infinity s | S754_finite s _ _ => s = sx
  end.
Proof.
  unfold binary_round_aux.
  destruct (shr_fexp _ _ _ _ _) as [mrs e].
  destruct (shr_fexp _ _ _ _ _) as [mrs' e'].
  destruct (shr_m mrs'); [reflexivity | | exact I].
  destruct (Z.leb _ _); reflexivity.
Qed.

Lemma square_not_negative (x : f32) : not_negative (F32.mul x x) = true.
Proof.
  destruct x as [sx|sx| |sx m e]; simpl.
  - destruct sx; reflexivity.
  - destruct sx; reflexivity.
  - reflexivity.
  - unfold F32.mul, SFmul.
    pose proof (binary_round_aux_sign (xorb sx sx) (Zpos (m * m)) (e + e) loc_Exact)
      as Hsign.
    destruct (binary_round_aux _ _ _ _ _ _); simpl; subst; destruct sx; reflexivity.
Qed.

Lemma add_not_negative (a b : f32) :
  not_negative a = true -> not_negative b = true -> not_negative (F32.add a b) = true.
Proof.
  destruct a as [sa|sa| |sa ma ea], b as [sb|sb| |sb mb eb]; simpl;
    try destruct sa; try destruct sb; intros Ha Hb; try discriminate; try reflexivity.
  unfold F32.add, SFadd, binary_normalize, binary_round. simpl.
  destruct (shl_align _ _ _) as [mz ez].
  pose proof (binary_round_aux_sign false (Zpos mz) ez loc_Exact) as Hsign.
  destruct (binary_round_aux _ _ _ _ _ _); simpl; subst; reflexivity.
Qed.

Lemma sum_not_negative (l : list f32) : forall acc : f32,
  Forall (fun x => not_negative x = true) l -> not_negative acc = true ->
  not_negative (fold_left F32.add l acc) = true.
Proof.
  induction l as [|x l IH]; intros acc Hl Hacc; simpl; [exact Hacc |].
  apply Forall_cons in Hl as [Hx Hl].
  apply IH; [exact Hl | apply add_not_negative; assumption].
Qed.

Lemma squared_error_not_negative (q target : Tensor f32) (loss : f32) :
  squared_error q target = Ok loss -> not_negative loss = true.
Proof.
  unfold squared_error. intros Hloss. inv_binds. subst loss.
  unfold jnp_sum. simpl. apply sum_not_negative; [| reflexivity].
  apply Forall_map. apply Forall_true. intros x. apply square_not_negative.
Qed.

Lemma not_negative_order (x : f32) :
  not_negative x = true ->
  F32.ltb x F32.zero = false /\ (x = F32.nan \/ F32.leb F32.zero x = true).
Proof.
  destruct x as [s|s| |s m e]; try destruct s; simpl; intros Hx; try discriminate;
    split; try reflexivity; try (left; reflexivity); right; reflexivity.
Qed.

(** X11: a loss is never negative: whenever [compute_loss] or
    [compute_loss_double_dqn] returns a value, it is NaN or at least zero. *)
Theorem loss_is_not_negative (dqn : DQN) (params target_params : DQNParameters dqn)
    (t : Transition) (gamma : f32) :
  (forall loss, compute_loss dqn params target_params t gamma = Ok loss ->
     F32.ltb loss F32.zero = false
     /\ (loss = F32.nan \/ F32.leb F32.zero loss = true))
  /\ (forall loss, compute_loss_double_dqn dqn params target_params t gamma = Ok loss ->
        F32.ltb loss F32.zero = false
        /\ (loss = F32.nan \/ F32.leb F32.zero loss = true)).
Proof.
  split; intros loss Hloss; apply not_negative_order.
  - rewrite compute_loss_form in Hloss. inv_binds.
    eapply squared_error_not_negative. eassumption.
  - rewrite compute_loss_double_dqn_form in Hloss. inv_binds.
    eapply squared_error_not_negative. eassumption.
Qed.



End LossFacts.

Module FixedPoint.

Import Buffer Model F32Facts ModelFacts.

Lemma sub_self (x : f32) : F32.is_finite x = true -> F32.sub x x = F32.zero.
Proof.
  destruct x as [sx|sx| |sx m e]; intros Hx; try discriminate.
  - destruct sx; reflexivity.
  - unfold F32.sub, SFsub. rewrite Z.sub_diag. reflexivity.
Qed.

Lemma squared_error_self (q : Tensor f32) :
  Forall (fun x => F32.is_finite x = true) (data q) ->
  squared_error q q = Ok F32.zero.
Proof.
  intros Hq. unfold squared_error, tensor_binop. rewrite shape_eqb_refl. simpl.
  f_equal. unfold jnp_sum. simpl.
  induction Hq as [|x d Hx _ IH]; simpl; [reflexivity |].
  rewrite (sub_self x Hx). exact IH.
Qed.

(** X14: a loss vanishes at a fixed point: when the predicted value equals
    the TD target (the same array, with finite entries), [compute_loss] and
    [compute_loss_double_dqn] return [+0]. *)
Theorem perfect_prediction_has_zero_loss (dqn : DQN)
    (params target_params : DQNParameters dqn) (t : Transition) (gamma : f32)
    (q : Tensor f32) :
  predicted_value dqn params t = Ok q ->
  Forall (fun x => F32.is_finite x = true) (data q) ->
  (td_target dqn target_params t gamma = Ok q ->
   compute_loss dqn params target_params t gamma = Ok F32.zero)
  /\ (td_target_double dqn params target_params t gamma = Ok q ->
      compute_loss_double_dqn dqn params target_params t gamma = Ok F32.zero).
Proof.
  intros Hq Hfinite. split; intros Htarget.
  - rewrite compute_loss_form, Hq. simpl. rewrite Htarget. simpl.
    apply squared_error_self. exact Hfinite.
  - rewrite compute_loss_double_dqn_form, Hq. simpl. rewrite Htarget. simpl.
    apply squared_error_self. exact Hfinite.
Qed.

Lemma perfect_prediction_has_zero_loss_witness :
  compute_loss Network.dqn (Network.constant_q F32.zero F32.one)
    (Network.constant_q F32.zero F32.one)
    (ModelClaims.terminal_transition (replicate 4 F32.one)) Network.gamma_099
  = Ok F32.zero.
Proof.
  apply (perfect_prediction_has_zero_loss Network.dqn (Network.constant_q F32.zero F32.one)
           (Network.constant_q F32.zero F32.one)
           (ModelClaims.terminal_transition (replicate 4 F32.one)) Network.gamma_099
           (mkTensor [1%nat] [F32.one]));
    [vm_compute; reflexivity | repeat constructor | vm_compute; reflexivity].
Defined.

End FixedPoint.

(** * The agent on states of any shape *)

(** ** Arrays under relations *)

Module TensorFacts.

Import BufferShapes.

Lemma Forall2_diag {A} (R : A -> A -> Prop) (l : list A) :
  Forall (fun a => R a a) l -> Forall2 R l l.
Proof. induction 1; constructor; assumption. Qed.

Lemma Forall2_left {A B} (P : A -> Prop) (l : list A) (k : list B) :
  Forall2 (fun a _ => P a) l k -> Forall P l.
Proof. induction 1; constructor; assumption. Qed.

Lemma Forall2_map_both {A B A' B'} (R : A' -> B' -> Prop) (f : A -> A') (g : B -> B')
    (l : list A) (k : list B) :
  Forall2 (fun a b => R (f a) (g b)) l k -> Forall2 R (map f l) (map g k).
Proof. induction 1; simpl; constructor; assumption. Qed.

Lemma Forall2_replicate_both {A B} (R : A -> B -> Prop) (n : nat) (a : A) (b : B) :
  R a b -> Forall2 R (replicate n a) (replicate n b).
Proof. intros Hab. induction n; simpl; constructor; assumption. Qed.

Lemma Forall2_concat_both {A B} (R : A -> B -> Prop) (l : list (list A)) (k : list (list B)) :
  Forall2 (Forall2 R) l k -> Forall2 R (concat l) (concat k).
Proof. induction 1; simpl; [constructor | apply Forall2_app; assumption]. Qed.

Lemma Forall2_chunks {A B} (R : A -> B -> Prop) (w n : nat) : forall d1 d2,
  Forall2 R d1 d2 -> Forall2 (Forall2 R) (chunks w n d1) (chunks w n d2).
Proof.
  induction n as [|n IH]; intros d1 d2 Hd; simpl; constructor.
  - apply Forall2_take. exact Hd.
  - apply IH. apply Forall2_drop. exact Hd.
Qed.

Lemma Forall2_zip_with {A A' B B' C C'} (RA : A -> A' -> Prop) (RB : B -> B' -> Prop)
    (RC : C -> C' -> Prop) (f : A -> B -> C) (g : A' -> B' -> C')
    (a1 : list A) (a2 : list A') :
  (forall a a' b b', RA a a' -> RB b b' -> RC (f a b) (g a' b')) ->
  Forall2 RA a1 a2 -> forall b1 b2, Forall2 RB b1 b2 ->
  Forall2 RC (zip_with f a1 b1) (zip_with g a2 b2).
Proof.
  intros Hf Ha. induction Ha as [|a a' a1 a2 Haa _ IH]; intros b1 b2 Hb; simpl.
  - constructor.
  - destruct Hb as [|b b' b1 b2 Hbb Hb]; constructor; [apply Hf; assumption | apply IH; exact Hb].
Qed.

(** Broadcasting moves elements around and copies them; it keeps a relation
    that holds element by element. *)
Lemma expand_Forall2 {A B} (R : A -> B -> Prop) (src : list nat) :
  forall (tgt : list nat) (d1 : list A) (d2 : list B),
  Forall2 R d1 d2 -> Forall2 R (expand src tgt d1) (expand src tgt d2).
Proof.
  induction src as [|s src IH]; intros tgt d1 d2 Hd; simpl; [exact Hd |].
  destruct tgt as [|t tgt]; [exact Hd |].
  destruct (Nat.eqb s t).
  - apply Forall2_concat_both, Forall2_map_both.
    eapply Forall2_impl; [apply Forall2_chunks; exact Hd |].
    intros c1 c2 Hc. apply IH. exact Hc.
  - apply Forall2_concat_both, Forall2_replicate_both, IH. exact Hd.
Qed.

(** Two results that raise the same error, or are arrays of one shape whose
    elements are related. *)
Definition agree {C C'} (RC : C -> C' -> Prop) (r1 : result (Tensor C))
    (r2 : result (Tensor C')) : Prop :=
  match r1, r2 with
  | Ok t1, Ok t2 => shape t1 = shape t2 /\ Forall2 RC (data t1) (data t2)
  | Raise e1, Raise e2 => e1 = e2
  | _, _ => False
  end.

Lemma tensor_binop_agree {A A' B B' C C'} (RA : A -> A' -> Prop) (RB : B -> B' -> Prop)
    (RC : C -> C' -> Prop) (f : A -> B -> C) (g : A' -> B' -> C')
    (x1 : Tensor A) (x2 : Tensor A') (y1 : Tensor B) (y2 : Tensor B') :
  (forall a a' b b', RA a a' -> RB b b' -> RC (f a b) (g a' b')) ->
  shape x1 = shape x2 -> shape y1 = shape y2 ->
  Forall2 RA (data x1) (data x2) -> Forall2 RB (data y1) (data y2) ->
  agree RC (tensor_binop f x1 y1) (tensor_binop g x2 y2).
Proof.
  intros Hf Hx Hy Hdx Hdy. unfold tensor_binop, stretch. rewrite Hx, Hy.
  destruct (shape_eqb (shape x2) (shape y2)); simpl.
  - split; [reflexivity |]. exact (Forall2_zip_with _ _ _ _ _ _ _ Hf Hdx _ _ Hdy).
  - destruct (broadcast_shapes (shape x2) (shape y2)) as [out|]; simpl; [| reflexivity].
    split; [reflexivity |].
    apply (Forall2_zip_with RA RB RC); [exact Hf | |]; apply expand_Forall2; assumption.
Qed.

(** What holds of every element of the operands holds, through the
    operation, of every element of the result. *)
Lemma tensor_binop_Forall {A B C} (PA : A -> Prop) (PB : B -> Prop) (Q : C -> Prop)
    (f : A -> B -> C) (x : Tensor A) (y : Tensor B) (t : Tensor C) :
  (forall a b, PA a -> PB b -> Q (f a b)) ->
  Forall PA (data x) -> Forall PB (data y) ->
  tensor_binop f x y = Ok t -> Forall Q (data t).
Proof.
  intros Hf Hx Hy Ht.
  pose proof (tensor_binop_agree (fun a _ => PA a) (fun b _ => PB b) (fun c (_ : C) => Q c)
                f f x x y y) as Hagree.
  rewrite Ht in Hagree. simpl in Hagree.
  eapply Forall2_left, Hagree; try reflexivity.
  - intros a _ b _. apply Hf.
  - apply Forall2_diag. exact Hx.
  - apply Forall2_diag. exact Hy.
Qed.

Lemma numel_app (a b : list nat) : numel (a ++ b) = (numel a * numel b)%nat.
Proof. induction a as [|x a IH]; simpl; [lia | rewrite IH; lia]. Qed.

Lemma concat_chunks {A} (w n : nat) : forall d : list A,
  length d = (n * w)%nat -> concat (chunks w n d) = d.
Proof.
  induction n as [|n IH]; intros d Hd; simpl in *.
  - destruct d; [reflexivity | discriminate].
  - rewrite IH by (rewrite length_drop; lia). apply take_drop.
Qed.

Lemma chunks_singletons {A} (n : nat) : forall d : list A,
  length d = n -> chunks 1 n d = map (fun x => [x]) d.
Proof.
  induction n as [|n IH]; intros [|x d] Hd; simpl in *; try discriminate; [reflexivity |].
  rewrite drop_0, IH by lia. reflexivity.
Qed.

Lemma chunks_whole {A} (n : nat) (d : list A) : length d = n -> chunks n 1 d = [d].
Proof. intros Hd. simpl. rewrite take_ge by lia. reflexivity. Qed.

Lemma getitem1_map {A B} (f : A -> B) (l : list A) (i : Z) :
  getitem1 (map f l) i = (x ← getitem1 l i; Ok (f x)).
Proof.
  unfold getitem1. rewrite length_map.
  change (map f l) with (f <$> l). rewrite list_lookup_fmap.
  destruct (l !! _); reflexivity.
Qed.

Lemma result_mapM_getitem1_map {A B} (f : A -> B) (l : list A) (idx : list Z) :
  result_mapM (getitem1 (map f l)) idx
  = (vals ← result_mapM (getitem1 l) idx; Ok (map f vals)).
Proof.
  induction idx as [|i idx IH]; simpl; [reflexivity |].
  rewrite getitem1_map, IH.
  destruct (getitem1 l i); simpl; [| reflexivity].
  destruct (result_mapM (getitem1 l) idx); reflexivity.
Qed.

Lemma concat_singletons {A} (l : list A) : concat (map (fun x => [x]) l) = l.
Proof. induction l as [|x l IH]; simpl; [reflexivity | rewrite IH; reflexivity]. Qed.

(** [x[jnp.arange(x.shape[0])]] is [x]. *)
Lemma take0_arange {A} (x : Tensor A) (d : nat) (rest : list nat) :
  shape x = d :: rest -> tensor_ok x ->
  take0 x (jnp_arange d) = Ok (mkTensor (d :: rest) (data x)).
Proof.
  unfold tensor_ok. intros Hshape Hok. rewrite Hshape in Hok. simpl in Hok.
  unfold take0. rewrite Hshape. simpl.
  pose proof (result_mapM_arange (chunks (numel rest) d (data x)) []) as Hall.
  simpl in Hall. rewrite chunks_length in Hall. rewrite Hall. simpl.
  rewrite concat_chunks by exact Hok. reflexivity.
Qed.

(** On an array of one axis the gather along axis 0 picks elements. *)
Lemma take0_one_axis {A} (x : Tensor A) (n : nat) (idx : Tensor Z) :
  shape x = [n] -> length (data x) = n ->
  take0 x idx = (t ← take1 (data x) idx; Ok (mkTensor (shape idx) (data t))).
Proof.
  intros Hshape Hlen. unfold take0, take1. rewrite Hshape. simpl.
  rewrite chunks_singletons by exact Hlen.
  rewrite result_mapM_getitem1_map.
  destruct (result_mapM (getitem1 (data x)) (data idx)) as [vals|e]; simpl; [| reflexivity].
  rewrite concat_singletons, app_nil_r. reflexivity.
Qed.

(** On an array of one axis the reduction along the last axis is the
    reduction of the whole array, with a result of shape [()]. *)
Lemma reduce_last_one_axis {A B} (f : list A -> result B) (x : Tensor A) (n : nat) :
  f [] = Raise EmptyReduction ->
  shape x = [n] -> length (data x) = n ->
  reduce_last f x = (v ← f (data x); Ok (mkTensor [] [v])).
Proof.
  intros Hf Hshape Hlen. unfold reduce_last. rewrite Hshape. simpl.
  destruct (Nat.eqb_spec n 0) as [->|Hn].
  - destruct (data x); [| discriminate]. rewrite Hf. reflexivity.
  - rewrite take_ge by lia. destruct (f (data x)); reflexivity.
Qed.

(** The shape after a reduction along the last axis. *)
Lemma reduce_last_shape {A B} (f : list A -> result B) (x : Tensor A) (r : Tensor B) :
  reduce_last f x = Ok r ->
  shape r = removelast (shape x) /\ length (data r) = numel (shape r).
Proof.
  unfold reduce_last. destruct (last (shape x)) as [n|]; [| discriminate].
  destruct (Nat.eqb n 0); [discriminate |].
  intros Hr. inv_binds. subst r. simpl. split; [reflexivity |].
  assert (Hlen : forall (l : list (list A)) vals, result_mapM f l = Ok vals ->
                   length vals = length l).
  { clear. induction l as [|c l IH]; simpl; intros vals Hv.
    - injection Hv as <-. reflexivity.
    - inv_binds. subst vals. simpl. rewrite (IH _ Ha0). reflexivity. }
  rewrite (Hlen _ _ Ha), chunks_length. reflexivity.
Qed.

(** *** Broadcasting a value to its own shape, and a scalar to any shape *)

Lemma expand_same {A} (sh : list nat) : forall d : list A,
  length d = numel sh -> expand sh sh d = d.
Proof.
  induction sh as [|s sh IH]; intros d Hd; simpl; [reflexivity |].
  rewrite Nat.eqb_refl. simpl in Hd.
  rewrite <- (concat_chunks (numel sh) s d) at 2 by exact Hd. f_equal.
  assert (Hrows : Forall (fun c => length c = numel sh) (chunks (numel sh) s d))
    by (apply chunks_uniform; exact Hd).
  induction Hrows as [|c l Hc _ IHl]; simpl; [reflexivity |].
  rewrite (IH c Hc), IHl. reflexivity.
Qed.

Lemma concat_replicate_replicate {A} (t n : nat) (c : A) :
  concat (replicate t (replicate n c)) = replicate (t * n) c.
Proof.
  induction t as [|t IH]; simpl; [reflexivity |].
  rewrite IH, replicate_add. reflexivity.
Qed.

Lemma expand_cons {A} (s t : nat) (src tgt : list nat) (d : list A) :
  expand (s :: src) (t :: tgt) d
  = if Nat.eqb s t
    then concat (map (expand src tgt) (chunks (numel src) s d))
    else concat (replicate t (expand src tgt d)).
Proof. reflexivity. Qed.

Lemma expand_scalar {A} (c : A) (sh : list nat) :
  expand (replicate (length sh) 1%nat) sh [c] = replicate (numel sh) c.
Proof.
  induction sh as [|t sh IH]; [reflexivity |].
  change (replicate (length (t :: sh)) 1%nat) with (1%nat :: replicate (length sh) 1%nat).
  change (numel (t :: sh)) with (t * numel sh)%nat.
  rewrite expand_cons.
  destruct (Nat.eqb_spec 1 t) as [<-|Hne].
  - pose proof (numel_pad [] (length sh)) as Hone. rewrite app_nil_r in Hone.
    rewrite Hone. simpl. rewrite IH, app_nil_r, Nat.add_0_r. reflexivity.
  - rewrite IH. apply concat_replicate_replicate.
Qed.

Lemma zip_with_replicate {A B C} (f : A -> B -> C) (c : B) (l : list A) : forall n : nat,
  (length l <= n)%nat -> zip_with f l (replicate n c) = map (fun a => f a c) l.
Proof.
  induction l as [|a l IH]; intros [|n] Hn; simpl in *; try reflexivity; try lia.
  rewrite IH by lia. reflexivity.
Qed.

Lemma broadcast_shapes_scalar (sh : list nat) : broadcast_shapes sh [] = Some sh.
Proof.
  unfold broadcast_shapes.
  replace (broadcast_dims_rev (rev sh) (rev [])) with (Some (rev sh))
    by (destruct (rev sh); reflexivity).
  rewrite rev_involutive. reflexivity.
Qed.

(** An operation with a scalar array as second operand acts on each element
    of the first. *)
Lemma tensor_binop_scalar {A B C} (f : A -> B -> C) (x : Tensor A) (c : B) :
  tensor_ok x ->
  tensor_binop f x (mkTensor [] [c]) = Ok (tensor_map (fun a => f a c) x).
Proof.
  unfold tensor_ok, tensor_binop, tensor_map. intros Hx. simpl.
  destruct (shape_eqb (shape x) []) eqn:Hnil.
  - apply shape_eqb_true in Hnil. rewrite Hnil in Hx. simpl in Hx.
    destruct (data x) as [|a [|? ?]]; try discriminate. reflexivity.
  - rewrite broadcast_shapes_scalar. unfold stretch. simpl.
    rewrite Nat.sub_diag, Nat.sub_0_r, app_nil_r. simpl.
    rewrite expand_same by exact Hx. rewrite expand_scalar.
    rewrite zip_with_replicate by lia. reflexivity.
Qed.

Lemma Forall2_of_Forall {A B} (P : A -> Prop) (Q : B -> Prop) (l : list A) :
  Forall P l -> forall k : list B, Forall Q k -> length l = length k ->
  Forall2 (fun a b => P a /\ Q b) l k.
Proof.
  induction 1 as [|a l Ha _ IH]; intros k Hk Hlen; destruct Hk as [|b k Hb Hk];
    simpl in Hlen; try discriminate; constructor.
  - split; assumption.
  - apply IH; [exact Hk | lia].
Qed.

End TensorFacts.

(** ** The parts of the losses *)

Module ModelNDFacts.

Import Buffer ModelND F32Facts BufferShapes TensorFacts.

(** Q(state; params) at the taken action:
    [q_values[jnp.arange(q_values.shape[0])][action]]. *)
Definition predicted_value (dqn : DQN) (params : DQNParameters dqn) (t : Transition)
  : result (Tensor f32) :=
  let '(state, action, _, _, _) := t in
  q_values ← apply dqn params state;
  n ← shape0 q_values;
  q_rows ← take0 q_values (jnp_arange n);
  take0 q_rows action.

(** [gamma * (1.0 - done)] *)
Definition discount (gamma : f32) (done : Tensor bool) : Tensor f32 :=
  tensor_map (F32.mul gamma) (tensor_map (fun d => F32.sub F32.one (F32.of_bool d)) done).

(** [reward + gamma * (1.0 - done) * next_value] *)
Definition bootstrapped (reward : Tensor f32) (done : Tensor bool) (gamma : f32)
    (next_value : Tensor f32) : result (Tensor f32) :=
  masked ← tensor_binop F32.mul (discount gamma done) next_value;
  tensor_binop F32.add reward masked.

(** The next value of vanilla DQN:
    [jnp.max(Q(next_state; target_params), axis=-1)]. *)
Definition next_value (dqn : DQN) (target_params : DQNParameters dqn)
    (next_state : Tensor f32) : result (Tensor f32) :=
  next_q_values ← apply dqn target_params next_state;
  reduce_last jnp_max next_q_values.

(** The next value of double DQN: the target Q-values indexed along axis 0
    by the positions that [argmax] picks along the last axis under
    [params]. *)
Definition next_value_double (dqn : DQN) (params target_params : DQNParameters dqn)
    (next_state : Tensor f32) : result (Tensor f32) :=
  next_q_values ← apply dqn params next_state;
  next_actions ← reduce_last jnp_argmax next_q_values;
  target_q_values ← apply dqn target_params next_state;
  m ← shape0 target_q_values;
  target_rows ← take0 target_q_values (jnp_arange m);
  take0 target_rows (tensor_map Z.of_nat next_actions).

Definition td_target (dqn : DQN) (target_params : DQNParameters dqn) (t : Transition)
    (gamma : f32) : result (Tensor f32) :=
  let '(_, _, reward, done, next_state) := t in
  v ← next_value dqn target_params next_state;
  bootstrapped reward done gamma v.

Definition td_target_double (dqn : DQN) (params target_params : DQNParameters dqn)
    (t : Transition) (gamma : f32) : result (Tensor f32) :=
  let '(_, _, reward, done, next_state) := t in
  v ← next_value_double dqn params target_params next_state;
  bootstrapped reward done gamma v.

Lemma compute_loss_parts dqn params target_params t gamma :
  compute_loss dqn params target_params t gamma
  = (q ← predicted_value dqn params t;
     target ← td_target dqn target_params t gamma;
     ModelFacts.squared_error q target).
Proof.
  destruct t as [[[[state action] reward] done] next_state].
  unfold compute_loss, predicted_value, td_target, next_value, bootstrapped,
    ModelFacts.squared_error, discount.
  destruct (apply dqn params state) as [q|e]; simpl; [| reflexivity].
  destruct (shape0 q) as [n|e]; simpl; [| reflexivity].
  destruct (take0 q (jnp_arange n)) as [rows|e]; simpl; [| reflexivity].
  destruct (take0 rows action) as [qa|e]; simpl; [| reflexivity].
  destruct (apply dqn target_params next_state) as [nq|e]; simpl; [| reflexivity].
  destruct (reduce_last jnp_max nq) as [m|e]; simpl; [| reflexivity].
  destruct (tensor_binop F32.mul _ m) as [masked|e]; simpl; reflexivity.
Qed.

Lemma compute_loss_double_dqn_parts dqn params target_params t gamma :
  compute_loss_double_dqn dqn params target_params t gamma
  = (q ← predicted_value dqn params t;
     target ← td_target_double dqn params target_params t gamma;
     ModelFacts.squared_error q target).
Proof.
  destruct t as [[[[state action] reward] done] next_state].
  unfold compute_loss_double_dqn, predicted_value, td_target_double, next_value_double,
    bootstrapped, ModelFacts.squared_error, discount.
  destruct (apply dqn params state) as [q|e]; simpl; [| reflexivity].
  destruct (shape0 q) as [n|e]; simpl; [| reflexivity].
  destruct (take0 q (jnp_arange n)) as [rows|e]; simpl; [| reflexivity].
  destruct (take0 rows action) as [qa|e]; simpl; [| reflexivity].
  destruct (apply dqn params next_state) as [nq|e]; simpl; [| reflexivity].
  destruct (reduce_last jnp_argmax nq) as [na|e]; simpl; [| reflexivity].
  destruct (apply dqn target_params next_state) as [tq|e]; simpl; [| reflexivity].
  destruct (shape0 tq) as [m|e]; simpl; [| reflexivity].
  destruct (take0 tq (jnp_arange m)) as [trows|e]; simpl; [| reflexivity].
  destruct (take0 trows _) as [sel|e]; simpl; [| reflexivity].
  destruct (tensor_binop F32.mul _ sel) as [masked|e]; simpl; reflexivity.
Qed.

(** The Q-values of a state of one axis: one axis of [n_actions] values. *)
Lemma apply_one_axis (dqn : DQN) (params : DQNParameters dqn) (state q : Tensor f32) :
  length (shape state) = 1%nat -> apply dqn params state = Ok q ->
  shape q = [n_actions dqn] /\ length (data q) = n_actions dqn.
Proof.
  intros Hone Hq. destruct (apply_shape dqn _ _ _ Hq) as (_ & Hshape & Hlen).
  destruct (shape state) as [|k [|? ?]]; try discriminate.
  simpl in Hshape. rewrite Hshape in Hlen. simpl in Hlen.
  split; [exact Hshape | lia].
Qed.

Lemma next_value_shape (dqn : DQN) (tp : DQNParameters dqn) (ns mx : Tensor f32) :
  next_value dqn tp ns = Ok mx ->
  shape mx = removelast (shape ns) /\ tensor_ok mx.
Proof.
  unfold next_value. intros Hmx. inv_binds.
  destruct (apply_shape dqn _ _ _ Ha) as (_ & Hshape & _).
  destruct (reduce_last_shape _ _ _ Hmx) as [Hsh Hlen].
  split; [| exact Hlen].
  rewrite Hsh, Hshape. apply removelast_last.
Qed.

(** For a next state of one axis the next value of vanilla DQN is the
    largest target Q-value. *)
Lemma next_value_one_axis (dqn : DQN) (tp : DQNParameters dqn) (ns : Tensor f32) :
  length (shape ns) = 1%nat ->
  next_value dqn tp ns
  = (nq ← apply dqn tp ns; m ← jnp_max (data nq); Ok (mkTensor [] [m])).
Proof.
  intros Hone. unfold next_value.
  destruct (apply dqn tp ns) as [nq|e] eqn:Hnq; simpl; [| reflexivity].
  destruct (apply_one_axis _ _ _ _ Hone Hnq) as [Hshape Hlen].
  apply (reduce_last_one_axis jnp_max nq (n_actions dqn)); [reflexivity | assumption..].
Qed.

(** For a next state of one axis the next value of double DQN is the target
    Q-value of the action that [argmax] picks under [params]. *)
Lemma next_value_double_one_axis (dqn : DQN) (params tp : DQNParameters dqn)
    (ns : Tensor f32) :
  length (shape ns) = 1%nat ->
  next_value_double dqn params tp ns
  = (nq ← apply dqn params ns;
     a ← jnp_argmax (data nq);
     tq ← apply dqn tp ns;
     v ← getitem1 (data tq) (Z.of_nat a);
     Ok (mkTensor [] [v])).
Proof.
  intros Hone. unfold next_value_double.
  destruct (apply dqn params ns) as [nq|e] eqn:Hnq; simpl; [| reflexivity].
  destruct (apply_one_axis _ _ _ _ Hone Hnq) as [Hshape Hlen].
  rewrite (reduce_last_one_axis jnp_argmax nq (n_actions dqn)) by (reflexivity || assumption).
  destruct (jnp_argmax (data nq)) as [a|e]; simpl; [| reflexivity].
  destruct (apply dqn tp ns) as [tq|e] eqn:Htq; simpl; [| reflexivity].
  destruct (apply_one_axis _ _ _ _ Hone Htq) as [Htshape Htlen].
  unfold shape0. rewrite Htshape. simpl.
  assert (Hok : tensor_ok tq) by (unfold tensor_ok; rewrite Htshape; simpl; lia).
  rewrite (take0_arange tq (n_actions dqn) [] Htshape Hok). simpl.
  rewrite (take0_one_axis _ (n_actions dqn)) by (reflexivity || assumption).
  unfold take1. simpl.
  destruct (getitem1 (data tq) (Z.of_nat a)); reflexivity.
Qed.

(** With one set of parameters and a next state of one axis the two next
    values coincide. *)
Lemma next_value_double_same_params (dqn : DQN) (params : DQNParameters dqn)
    (ns : Tensor f32) :
  length (shape ns) = 1%nat ->
  next_value_double dqn params params ns = next_value dqn params ns.
Proof.
  intros Hone. rewrite next_value_double_one_axis, next_value_one_axis by exact Hone.
  destruct (apply dqn params ns) as [nq|e]; simpl; [| reflexivity].
  pose proof (jnp_max_at_argmax (data nq)) as Hm.
  destruct (jnp_max (data nq)) as [m|e], (jnp_argmax (data nq)) as [a|e'];
    simpl; try contradiction.
  - rewrite (getitem1_in_bounds _ _ _ Hm). reflexivity.
  - congruence.
Qed.

End ModelNDFacts.

(** ** The network of the repository on states of any shape *)

Module NetworkND.

Import ModelND BufferShapes TensorFacts.

Lemma DQN_call_shape (n : nat) (p : Model.DQNLayers) (state q : Tensor f32) :
  DQN_call n p state = Ok q ->
  shape state <> []
  /\ shape q = removelast (shape state) ++ [n]
  /\ length (data q) = numel (shape q).
Proof.
  unfold DQN_call. destruct (last (shape state)) as [k|] eqn:Hlast; [| discriminate].
  intros Hq. inv_binds. subst q. simpl.
  split; [intros Hnil; rewrite Hnil in Hlast; discriminate |].
  split; [reflexivity |].
  destruct a1.
  rewrite (concat_length_uniform n).
  - rewrite !length_map, chunks_length, numel_app. simpl. lia.
  - apply Forall_map, Forall_true. intros x.
    eapply Network.dense_apply_length. eassumption.
Qed.

(** [DQN(n_actions=n, state_shape=...)] *)
Definition DQN_object (n : nat) : DQN :=
  mkDQN Model.DQNLayers n (DQN_call n) (DQN_call_shape n).

(** [dqn = DQN(n_actions=2, state_shape=(4,))] *)
Definition dqn : DQN := DQN_object 2.

(** A kernel whose entry at row [i] and column [j] is one, the others
    zero. *)
Definition single_entry (inputs features i j : nat) : list (list f32) :=
  map (fun r =>
         map (fun c => if Nat.eqb r i && Nat.eqb c j then F32.one else F32.zero)
           (seq 0 features))
    (seq 0 inputs).

(** Parameters for which the Q-values of a state [(x0, x1, x2, x3)] are
    [(0, max(x0, 0))]. *)
Definition first_input_layers : Model.DQNLayers :=
  Model.mkLayers
    (Model.mkDense (single_entry 4 128 0 0) (replicate 128 F32.zero))
    (Model.mkDense (single_entry 128 64 0 0) (replicate 64 F32.zero))
    (Model.mkDense (single_entry 64 2 0 1) (replicate 2 F32.zero)).

Example first_input_q_values :
  DQN_call 2 first_input_layers
    (mkTensor [2%nat; 4%nat]
       [F32.zero; F32.zero; F32.zero; F32.zero; F32.one; F32.zero; F32.zero; F32.zero])
  = Ok (mkTensor [2%nat; 2%nat] [F32.zero; F32.zero; F32.zero; F32.one]).
Proof. vm_compute. reflexivity. Qed.

Example constant_q_values :
  DQN_call 2 (Network.constant_q F32.one F32.zero)
    (mkTensor [1%nat; 4%nat] (replicate 4 F32.one))
  = Ok (mkTensor [1%nat; 2%nat] [F32.one; F32.zero]).
Proof. vm_compute. reflexivity. Qed.

(** Without actions the last layer has a kernel without columns, which flax
    refuses: the forward pass raises. *)
Example no_actions (p : Model.DQNLayers) (state : Tensor f32) :
  exists e, DQN_call 0 p state = Raise e.
Proof.
  unfold DQN_call. destruct (last (shape state)) as [k|]; [| eauto].
  destruct (Model.dense_check k 128 _); simpl; [| eauto].
  destruct (Model.dense_check 128 64 _); simpl; [| eauto].
  eauto.
Qed.

End NetworkND.

(** ** float32 arithmetic with NaN *)

Module F32Nan.

Import F32Facts.

(** [gamma * (1.0 - done)] for [done == true]: a zero, or NaN when [gamma]
    is infinite or NaN. *)
Definition zero_or_nan (x : f32) : Prop := F32.is_zero x = true \/ x = F32.nan.

Lemma discount_true (gamma : f32) :
  zero_or_nan (F32.mul gamma (F32.sub F32.one (F32.of_bool true))).
Proof.
  change (F32.sub F32.one (F32.of_bool true)) with F32.zero.
  destruct gamma as [s|s| |s m e]; [left | right | right | left]; reflexivity.
Qed.

Lemma mul_masked_same (a b1 b2 : f32) :
  zero_or_nan a -> F32.is_finite b1 = true -> F32.is_finite b2 = true ->
  F32.same_number (F32.mul a b1) (F32.mul a b2).
Proof.
  intros [Hz | ->] H1 H2.
  - right. split; apply mul_zero_finite; assumption.
  - left. reflexivity.
Qed.

Lemma mul_masked_nan (a b : f32) :
  zero_or_nan a -> F32.is_finite b = false -> F32.mul a b = F32.nan.
Proof.
  intros [Hz | ->] Hb; [| reflexivity].
  destruct a; try discriminate. destruct b; try discriminate; reflexivity.
Qed.

Lemma canon_add_same (a b1 b2 : f32) :
  F32.same_number b1 b2 -> canon (F32.add a b1) = canon (F32.add a b2).
Proof.
  intros [-> | [H1 H2]]; [reflexivity |].
  rewrite !canon_add_zero by assumption. reflexivity.
Qed.

Lemma square_sub_same (q t1 t2 : f32) :
  canon t1 = canon t2 ->
  F32.mul (F32.sub q t1) (F32.sub q t1) = F32.mul (F32.sub q t2) (F32.sub q t2).
Proof.
  intros Ht. rewrite (square_sub_canon q t1), (square_sub_canon q t2), Ht. reflexivity.
Qed.

Lemma add_nan_r (a : f32) : F32.add a F32.nan = F32.nan.
Proof. destruct a; reflexivity. Qed.

Lemma add_nan_l (a : f32) : F32.add F32.nan a = F32.nan.
Proof. reflexivity. Qed.

Lemma sub_nan_r (a : f32) : F32.sub a F32.nan = F32.nan.
Proof. destruct a; reflexivity. Qed.

Lemma sum_from_nan (l : list f32) : fold_left F32.add l F32.nan = F32.nan.
Proof. induction l as [|x l IH]; simpl; [reflexivity | exact IH]. Qed.

End F32Nan.

(** ** Claims about the agent on states of any shape *)

Module ModelNDClaims.

Import Buffer ModelND F32Facts F32Nan ModelNDFacts NetworkND BufferShapes TensorFacts.

(** *** Action selection *)

(** C10 fails for a state with a leading batch axis: the Q-values then have
    two axes and [jnp.argmax] without [axis] returns a position in the
    flattened array.  For two states whose Q-values are [[0, 0]] and
    [[0, 1]], the cartpole network with two actions and [epsilon == 0]
    gives the action 3, whatever the key. *)
Lemma select_action_flattened_index :
  let state :=
    mkTensor [2%nat; 4%nat]
      [F32.zero; F32.zero; F32.zero; F32.zero; F32.one; F32.zero; F32.zero; F32.zero] in
  n_actions dqn = 2%nat
  /\ apply dqn first_input_layers state
     = Ok (mkTensor [2%nat; 2%nat] [F32.zero; F32.zero; F32.zero; F32.one])
  /\ forall (R : JaxRandom) (rng : PRNGKey),
       select_action dqn rng first_input_layers state F32.zero = Ok 3%nat.
Proof.
  intros state. split; [reflexivity |].
  assert (Hq : apply dqn first_input_layers state
               = Ok (mkTensor [2%nat; 2%nat] [F32.zero; F32.zero; F32.zero; F32.one]))
    by exact first_input_q_values.
  split; [exact Hq |].
  intros R rng. unfold select_action. rewrite Hq. simpl.
  destruct (split rng) as [key subkey]. simpl.
  destruct (split key) as [key' subkey'].
  rewrite (ltb_zero_of_nonneg _ false) by apply uniform_range. reflexivity.
Qed.

Section SelectAction.
Context (R : JaxRandom).

(** The value of a call whose network answers with [q]. *)
Lemma select_action_value (dqn : DQN) (rng : PRNGKey) (params : DQNParameters dqn)
    (state : Tensor f32) (epsilon : f32) (q : Tensor f32) :
  apply dqn params state = Ok q ->
  select_action dqn rng params state epsilon
  = (greedy ← jnp_argmax (data q);
     if Nat.eqb (n_actions dqn) 0 then Raise EmptyReduction
     else Ok (if F32.ltb (uniform (split (split rng).1).2) epsilon
              then choice (split rng).2 (n_actions dqn) else greedy)).
Proof.
  intros Hq. unfold select_action. rewrite Hq. simpl.
  destruct (apply_shape dqn _ _ _ Hq) as (_ & Hshape & _).
  destruct (jnp_argmax (data q)) as [greedy|e]; simpl; [| reflexivity].
  destruct (split rng) as [key subkey]. simpl.
  unfold shape_last. rewrite Hshape, last_snoc. simpl.
  destruct (Nat.eqb (n_actions dqn) 0); simpl; [reflexivity |].
  destruct (split key) as [key' subkey']. reflexivity.
Qed.

(** C10 (as amended): for a state of one axis (no batch axis), whatever the
    key, the parameters and [epsilon], an action that [select_action] returns
    lies in [[0, n_actions)], and the call does return one whenever the
    network answers for the state and has at least one action.  For a state
    of any shape the action lies below [n_actions] or below the number of
    Q-values. *)
Theorem select_action_in_range (dqn : DQN) (rng : PRNGKey) (params : DQNParameters dqn)
    (state : Tensor f32) (epsilon : f32) :
  (forall action, length (shape state) = 1%nat ->
     select_action dqn rng params state epsilon = Ok action ->
     (action < n_actions dqn)%nat)
  /\ (forall q, length (shape state) = 1%nat ->
        apply dqn params state = Ok q -> (0 < n_actions dqn)%nat ->
        exists action,
          select_action dqn rng params state epsilon = Ok action
          /\ (action < n_actions dqn)%nat)
  /\ (forall q action, apply dqn params state = Ok q ->
        select_action dqn rng params state epsilon = Ok action ->
        (action < Nat.max (n_actions dqn) (length (data q)))%nat).
Proof.
  assert (Hany : forall q action, apply dqn params state = Ok q ->
            select_action dqn rng params state epsilon = Ok action ->
            exists greedy,
              jnp_argmax (data q) = Ok greedy
              /\ (0 < n_actions dqn)%nat
              /\ action = if F32.ltb (uniform (split (split rng).1).2) epsilon
                          then choice (split rng).2 (n_actions dqn) else greedy).
  { intros q action Hq. rewrite (select_action_value _ _ _ _ _ _ Hq).
    destruct (jnp_argmax (data q)) as [greedy|e]; simpl; [| discriminate].
    destruct (Nat.eqb_spec (n_actions dqn) 0) as [Hz|Hnz]; [discriminate |].
    intros Hsel. injection Hsel as <-.
    exists greedy. split; [reflexivity |]. split; [lia | reflexivity]. }
  split_and!.
  - intros action Hone Hsel.
    destruct (apply dqn params state) as [q|e] eqn:Hq;
      [| unfold select_action in Hsel; rewrite Hq in Hsel; discriminate].
    destruct (Hany q action eq_refl Hsel) as (greedy & Hgreedy & Hn & ->).
    destruct (apply_one_axis _ _ _ _ Hone Hq) as [_ Hlen].
    apply jnp_argmax_lt in Hgreedy.
    destruct (F32.ltb _ _); [apply choice_range; exact Hn | lia].
  - intros q Hone Hq Hn.
    destruct (apply_one_axis _ _ _ _ Hone Hq) as [Hshape Hlen].
    destruct (jnp_argmax_Ok (data q)) as [greedy Hgreedy].
    { intros Hnil. rewrite Hnil in Hlen. simpl in Hlen. lia. }
    rewrite (select_action_value _ _ _ _ _ _ Hq), Hgreedy. simpl.
    destruct (Nat.eqb_spec (n_actions dqn) 0) as [Hz|_]; [lia |].
    eexists. split; [reflexivity |].
    apply jnp_argmax_lt in Hgreedy.
    destruct (F32.ltb _ _); [apply choice_range; exact Hn | lia].
  - intros q action Hq Hsel.
    destruct (Hany q action Hq Hsel) as (greedy & Hgreedy & Hn & ->).
    apply jnp_argmax_lt in Hgreedy.
    destruct (F32.ltb _ _); [pose proof (choice_range (split rng).2 _ Hn) |]; lia.
Qed.

End SelectAction.

Lemma select_action_in_range_witness :
  exists action,
    select_action (H := CounterRandom.source) dqn 2 (Network.bias_layers F32.zero)
      (mkTensor [4%nat] (replicate 4 F32.one)) Network.gamma_099 = Ok action
    /\ (action < 2)%nat.
Proof.
  apply (proj1 (proj2 (select_action_in_range CounterRandom.source dqn 2
                         (Network.bias_layers F32.zero)
                         (mkTensor [4%nat] (replicate 4 F32.one)) Network.gamma_099))
           (mkTensor [2%nat] [F32.zero; F32.zero]));
    [reflexivity | vm_compute; reflexivity | simpl; lia].
Defined.

(** *** Double DQN *)

(** C3 fails for states with a leading batch axis, also with
    [params == target_params].  The vanilla target takes the largest
    Q-value of each row, of shape [(1,)]; double DQN indexes the target
    Q-values along axis 0 and so takes whole rows, of shape [(1, 2)].  With
    Q-values [[1, 0]], reward 1, [done == false] and [gamma == 1] the vanilla
    loss is [(1 - 2)^2 + (0 - 2)^2 = 5] and the double DQN loss is
    [(1 - 2)^2 + (0 - 1)^2 = 2]. *)
Lemma double_dqn_differs_with_batch_axis :
  let params := Network.constant_q F32.one F32.zero in
  let t : Transition :=
    (mkTensor [1%nat; 4%nat] (replicate 4 F32.one), mkTensor [1%nat] [0],
     mkTensor [1%nat] [F32.one], mkTensor [1%nat] [false],
     mkTensor [1%nat; 4%nat] (replicate 4 F32.one)) in
  compute_loss dqn params params t F32.one = Ok (F32.of_Z 5)
  /\ compute_loss_double_dqn dqn params params t F32.one = Ok (F32.of_Z 2)
  /\ F32.of_Z 5 <> F32.of_Z 2.
Proof. split_and!; [vm_compute; reflexivity | vm_compute; reflexivity | discriminate]. Qed.

(** C3 (as amended): both losses are the squared error between the same
    predicted value and a TD target, and differ in the target only.  For a
    next state of one axis (no batch axis) double DQN values under
    [target_params] the action that [argmax] picks under [params], and with
    [params] for both parameter sets the two losses are equal, for every such
    transition and [gamma]. *)
Theorem double_dqn_vs_vanilla (dqn : DQN) (params target_params : DQNParameters dqn)
    (t : Transition) (gamma : f32) :
  compute_loss dqn params target_params t gamma
  = (q ← predicted_value dqn params t;
     target ← td_target dqn target_params t gamma;
     ModelFacts.squared_error q target)
  /\ compute_loss_double_dqn dqn params target_params t gamma
     = (q ← predicted_value dqn params t;
        target ← td_target_double dqn params target_params t gamma;
        ModelFacts.squared_error q target)
  /\ (length (shape t.2) = 1%nat ->
      next_value_double dqn params target_params t.2
      = (nq ← apply dqn params t.2;
         a ← jnp_argmax (data nq);
         tq ← apply dqn target_params t.2;
         v ← getitem1 (data tq) (Z.of_nat a);
         Ok (mkTensor [] [v])))
  /\ (length (shape t.2) = 1%nat ->
      compute_loss dqn params params t gamma
      = compute_loss_double_dqn dqn params params t gamma).
Proof.
  split; [apply compute_loss_parts |]. split; [apply compute_loss_double_dqn_parts |].
  split; [apply next_value_double_one_axis |].
  intros Hone. rewrite compute_loss_parts, compute_loss_double_dqn_parts.
  destruct t as [[[[state action] reward] done] next_state]. simpl in Hone.
  unfold td_target, td_target_double.
  rewrite next_value_double_same_params by exact Hone. reflexivity.
Qed.

Lemma double_dqn_vs_vanilla_witness :
  let params := Network.constant_q F32.one F32.zero in
  let t : Transition :=
    (mkTensor [4%nat] (replicate 4 F32.one), mkTensor [1%nat] [0],
     mkTensor [1%nat] [F32.one], mkTensor [1%nat] [false],
     mkTensor [4%nat] (replicate 4 F32.one)) in
  compute_loss dqn params params t F32.one = compute_loss_double_dqn dqn params params t F32.one.
Proof.
  intros params t.
  apply (proj2 (proj2 (proj2 (double_dqn_vs_vanilla dqn params params t F32.one)))).
  reflexivity.
Defined.

(** *** Terminal transitions *)

Lemma discount_terminal (gamma : f32) (done : Tensor bool) :
  Forall (fun d => d = true) (data done) ->
  Forall zero_or_nan (data (discount gamma done)).
Proof.
  intros Hdone. unfold discount, tensor_map. simpl.
  apply Forall_map, Forall_map.
  eapply Forall_impl; [exact Hdone |].
  simpl. intros d ->. apply discount_true.
Qed.

Lemma discount_ok (gamma : f32) (done : Tensor bool) :
  tensor_ok done -> tensor_ok (discount gamma done).
Proof. unfold tensor_ok, discount, tensor_map. simpl. rewrite !length_map. tauto. Qed.

(** With [done == true] two finite next values give the same target up to
    the sign of zeros. *)
Lemma bootstrapped_same (reward : Tensor f32) (done : Tensor bool) (gamma : f32)
    (mx1 mx2 : Tensor f32) :
  Forall (fun d => d = true) (data done) ->
  shape mx1 = shape mx2 ->
  Forall2 (fun a b => F32.is_finite a = true /\ F32.is_finite b = true) (data mx1) (data mx2) ->
  agree (fun u v => canon u = canon v)
    (bootstrapped reward done gamma mx1) (bootstrapped reward done gamma mx2).
Proof.
  intros Hdone Hshape Hfin. unfold bootstrapped.
  pose proof (tensor_binop_agree (fun a a' => a = a' /\ zero_or_nan a)
                (fun b b' => F32.is_finite b = true /\ F32.is_finite b' = true)
                F32.same_number F32.mul F32.mul
                (discount gamma done) (discount gamma done) mx1 mx2) as Hmask.
  assert (Hm : agree F32.same_number
                 (tensor_binop F32.mul (discount gamma done) mx1)
                 (tensor_binop F32.mul (discount gamma done) mx2)).
  { apply Hmask; try assumption; try reflexivity.
    - intros a a' b b' [<- Ha] [Hb Hb']. apply mul_masked_same; assumption.
    - apply Forall2_diag. eapply Forall_impl; [apply discount_terminal; exact Hdone |].
      simpl. intros a Ha. split; [reflexivity | exact Ha]. }
  clear Hmask.
  destruct (tensor_binop F32.mul (discount gamma done) mx1) as [m1|e1],
    (tensor_binop F32.mul (discount gamma done) mx2) as [m2|e2];
    simpl in Hm; try contradiction; simpl.
  - destruct Hm as [Hsh Hd].
    apply (tensor_binop_agree eq F32.same_number); try assumption; try reflexivity.
    intros a a' b b' <- Hb. apply canon_add_same. exact Hb.
  - exact Hm.
Qed.

Lemma squared_error_agree (q : Tensor f32) (r1 r2 : result (Tensor f32)) :
  agree (fun u v => canon u = canon v) r1 r2 ->
  (target ← r1; ModelFacts.squared_error q target)
  = (target ← r2; ModelFacts.squared_error q target).
Proof.
  destruct r1 as [t1|e1], r2 as [t2|e2]; simpl; try contradiction; [| congruence].
  intros [Hsh Hd]. unfold ModelFacts.squared_error.
  assert (Hdiff : agree (fun u v => F32.mul u u = F32.mul v v)
                    (tensor_binop F32.sub q t1) (tensor_binop F32.sub q t2)).
  { apply (tensor_binop_agree eq (fun u v => canon u = canon v)); try assumption;
      try reflexivity.
    intros a a' b b' <- Hb. apply square_sub_same. exact Hb. }
  destruct (tensor_binop F32.sub q t1) as [d1|e1], (tensor_binop F32.sub q t2) as [d2|e2];
    simpl in Hdiff; try contradiction; simpl; [| congruence].
  destruct Hdiff as [_ Hsq]. unfold jnp_sum, tensor_map. simpl. do 2 f_equal.
  induction Hsq as [|u v d1' d2' Huv _ IH]; simpl; [reflexivity |].
  rewrite Huv, IH. reflexivity.
Qed.

(** C2 (as amended): for a transition with [done == true],
    - the loss is the same for any two next states with the same leading
      (batch) axes, so for any two without batch axis, and any two sets of
      target parameters for which the next values
      [max_a Q(next_state; target_params)] are all finite;
    - with a finite [gamma], arrays [reward] and [done] of one shape, a next
      state of one axis and finite next value, the TD target has the shape
      of [reward] and its numbers, element by element (a zero may change its
      sign; rewards below the smallest normal number are left out);
    - when the next values are all infinite or NaN, every element of the TD
      target is NaN, and the loss is NaN, unless the difference between the
      predicted value and the target has no element, when it is [+0]. *)
Theorem terminal_masking (dqn : DQN) (params tp1 tp2 : DQNParameters dqn)
    (state : Tensor f32) (action : Tensor Z) (reward : Tensor f32) (done : Tensor bool)
    (ns1 ns2 : Tensor f32) (gamma : f32) :
  Forall (fun d => d = true) (data done) ->
  (forall mx1 mx2,
     removelast (shape ns1) = removelast (shape ns2) ->
     next_value dqn tp1 ns1 = Ok mx1 ->
     Forall (fun m => F32.is_finite m = true) (data mx1) ->
     next_value dqn tp2 ns2 = Ok mx2 ->
     Forall (fun m => F32.is_finite m = true) (data mx2) ->
     compute_loss dqn params tp1 (state, action, reward, done, ns1) gamma
     = compute_loss dqn params tp2 (state, action, reward, done, ns2) gamma)
  /\ (forall mx1,
        next_value dqn tp1 ns1 = Ok mx1 ->
        Forall (fun m => F32.is_finite m = true) (data mx1) ->
        F32.is_finite gamma = true ->
        length (shape ns1) = 1%nat -> shape done = shape reward ->
        tensor_ok reward -> tensor_ok done ->
        Forall (fun r => F32.is_subnormal r = false) (data reward) ->
        exists target,
          td_target dqn tp1 (state, action, reward, done, ns1) gamma = Ok target
          /\ shape target = shape reward
          /\ Forall2 F32.same_number (data target) (data reward))
  /\ (forall mx1 q target diff,
        next_value dqn tp1 ns1 = Ok mx1 ->
        Forall (fun m => F32.is_finite m = false) (data mx1) ->
        predicted_value dqn params (state, action, reward, done, ns1) = Ok q ->
        td_target dqn tp1 (state, action, reward, done, ns1) gamma = Ok target ->
        tensor_binop F32.sub q target = Ok diff ->
        Forall (fun x => x = F32.nan) (data target)
        /\ compute_loss dqn params tp1 (state, action, reward, done, ns1) gamma
           = Ok (match data diff with [] => F32.zero | _ :: _ => F32.nan end)).
Proof.
  intros Hdone. split_and!.
  - intros mx1 mx2 Hshape Hm1 Hfin1 Hm2 Hfin2.
    rewrite !compute_loss_parts. unfold predicted_value, td_target.
    destruct (apply dqn params state ≫= _) as [q|e]; simpl; [| reflexivity].
    rewrite Hm1, Hm2. simpl.
    destruct (next_value_shape _ _ _ _ Hm1) as [Hsh1 Hok1].
    destruct (next_value_shape _ _ _ _ Hm2) as [Hsh2 Hok2].
    assert (Hsh : shape mx1 = shape mx2) by congruence.
    apply squared_error_agree, bootstrapped_same; [exact Hdone | exact Hsh |].
    apply Forall2_of_Forall; [exact Hfin1 | exact Hfin2 |].
    unfold tensor_ok in Hok1, Hok2. congruence.
  - intros mx1 Hm1 Hfin1 Hgamma Hone Hshape Hreward Hok _.
    rewrite next_value_one_axis in Hm1 by exact Hone. inv_binds. subst mx1.
    apply Forall_inv in Hfin1. rename a0 into m.
    unfold td_target, next_value. rewrite Ha. simpl.
    destruct (apply_one_axis _ _ _ _ Hone Ha) as [Hqshape Hqlen].
    rewrite (reduce_last_one_axis jnp_max a (n_actions dqn)) by (reflexivity || assumption).
    rewrite Ha0. simpl. unfold bootstrapped.
    rewrite tensor_binop_scalar by (apply discount_ok; exact Hok). simpl.
    unfold tensor_binop. simpl. rewrite Hshape, shape_eqb_refl.
    eexists. split; [reflexivity |]. simpl. split; [reflexivity |].
    rewrite !map_map.
    rewrite (map_ext_Forall _
               (fun _ => F32.mul (F32.mul gamma (F32.sub F32.one (F32.of_bool true))) m)).
    + apply ModelClaims.add_zero_row; [apply masked_is_zero; assumption |].
      unfold tensor_ok in Hreward, Hok. congruence.
    + eapply Forall_impl; [exact Hdone |]. simpl. intros d ->. reflexivity.
  - intros mx1 q target diff Hm1 Hinf Hq Htarget Hdiff.
    assert (Hnan : Forall (fun x => x = F32.nan) (data target)).
    { unfold td_target in Htarget. rewrite Hm1 in Htarget. simpl in Htarget.
      unfold bootstrapped in Htarget. inv_binds.
      assert (Hmasked : Forall (fun x => x = F32.nan) (data a)).
      { eapply (tensor_binop_Forall zero_or_nan (fun m => F32.is_finite m = false));
          [| apply discount_terminal; exact Hdone | exact Hinf | exact Ha].
        intros x y Hx Hy. apply mul_masked_nan; assumption. }
      eapply (tensor_binop_Forall (fun _ => True) (fun x => x = F32.nan));
        [| apply Forall_true; exact (fun _ => I) | exact Hmasked | exact Htarget].
      intros x y _ ->. apply add_nan_r. }
    split; [exact Hnan |].
    rewrite compute_loss_parts, (bind_Ok _ _ _ Hq). cbv beta.
    rewrite (bind_Ok _ _ _ Htarget). cbv beta.
    unfold ModelFacts.squared_error. rewrite Hdiff. simpl. f_equal.
    assert (Hd : Forall (fun x => x = F32.nan) (data diff)).
    { eapply (tensor_binop_Forall (fun _ => True) (fun x => x = F32.nan));
        [| apply Forall_true; exact (fun _ => I) | exact Hnan | exact Hdiff].
      intros x y _ ->. apply sub_nan_r. }
    unfold jnp_sum, tensor_map. simpl.
    destruct Hd as [|x d -> _]; simpl; [reflexivity |].
    apply sum_from_nan.
Qed.

Lemma terminal_masking_witness :
  compute_loss dqn (Network.bias_layers F32.zero) (Network.bias_layers F32.zero)
    (ModelClaims.terminal_transition (replicate 4 F32.zero)) Network.gamma_099
  = compute_loss dqn (Network.bias_layers F32.zero) (Network.bias_layers F32.one)
      (ModelClaims.terminal_transition (replicate 4 F32.one)) Network.gamma_099
  /\ (exists target,
        td_target dqn (Network.bias_layers F32.zero)
          (ModelClaims.terminal_transition (replicate 4 F32.zero)) Network.gamma_099
        = Ok target
        /\ shape target = [1%nat]
        /\ Forall2 F32.same_number (data target) [F32.one])
  /\ compute_loss dqn (Network.bias_layers F32.zero) (Network.bias_layers F32.infinity)
       (ModelClaims.terminal_transition (replicate 4 F32.zero)) Network.gamma_099
     = Ok F32.nan.
Proof.
  pose proof (fun tp1 tp2 =>
    terminal_masking dqn (Network.bias_layers F32.zero) tp1 tp2
      (mkTensor [4%nat] (replicate 4 F32.one)) (mkTensor [1%nat] [1])
      (mkTensor [1%nat] [F32.one]) (mkTensor [1%nat] [true])
      (mkTensor [4%nat] (replicate 4 F32.zero)) (mkTensor [4%nat] (replicate 4 F32.one))
      Network.gamma_099 ltac:(repeat constructor)) as Hmask.
  split_and!.
  - apply (proj1 (Hmask (Network.bias_layers F32.zero) (Network.bias_layers F32.one))
             (mkTensor [] [F32.zero]) (mkTensor [] [F32.one]));
      [reflexivity | vm_compute; reflexivity | repeat constructor
       | vm_compute; reflexivity | repeat constructor].
  - apply (proj1 (proj2 (Hmask (Network.bias_layers F32.zero) (Network.bias_layers F32.zero)))
             (mkTensor [] [F32.zero]));
      [vm_compute; reflexivity | repeat constructor | reflexivity | reflexivity
       | reflexivity | reflexivity | reflexivity | repeat constructor].
  - apply (proj2 (proj2 (Hmask (Network.bias_layers F32.infinity)
                           (Network.bias_layers F32.zero)))
             (mkTensor [] [F32.infinity]) (mkTensor [1%nat] [F32.zero])
             (mkTensor [1%nat] [F32.nan]) (mkTensor [1%nat] [F32.nan]));
      [vm_compute; reflexivity | repeat constructor | vm_compute; reflexivity
       | vm_compute; reflexivity | vm_compute; reflexivity].
Defined.

(** C2 fails when the next Q-values are not finite: with [done == true] the
    masked term is [0 * max], which is NaN for an infinite or NaN maximum, so
    the loss changes with [next_state] (a NaN entry) and with
    [target_params] (an infinite bias). *)
Lemma terminal_masking_not_finite :
  compute_loss dqn (Network.bias_layers F32.zero) (Network.bias_layers F32.zero)
    (ModelClaims.terminal_transition (replicate 4 F32.zero)) Network.gamma_099 = Ok F32.one
  /\ compute_loss dqn (Network.bias_layers F32.zero) (Network.bias_layers F32.zero)
       (ModelClaims.terminal_transition (F32.nan :: replicate 3 F32.zero)) Network.gamma_099
     = Ok F32.nan
  /\ compute_loss dqn (Network.bias_layers F32.zero) (Network.bias_layers F32.infinity)
       (ModelClaims.terminal_transition (replicate 4 F32.zero)) Network.gamma_099
     = Ok F32.nan.
Proof. split_and!; vm_compute; reflexivity. Qed.

End ModelNDClaims.

(** ** States of one axis

    On a state without batch axis the functions of [ModelND] are those of
    [Model]: the Q-values have one axis, the gathers pick elements, the
    reductions along the last axis reduce the whole array, and the next value
    is a scalar. *)

Module OneAxis.

Import Buffer BufferShapes TensorFacts ModelNDFacts.

(** The Q-values of a network for the states of one axis, as a list. *)
Definition apply_one_axis_list (dqn : ModelND.DQN) (params : ModelND.DQNParameters dqn)
    (state : Tensor f32) : result (list f32) :=
  match shape state with
  | [_] => q ← ModelND.apply dqn params state; Ok (data q)
  | _ => Raise ParamShapeError
  end.

Lemma apply_one_axis_list_length (dqn : ModelND.DQN) (params : ModelND.DQNParameters dqn)
    (state : Tensor f32) (q : list f32) :
  apply_one_axis_list dqn params state = Ok q -> length q = ModelND.n_actions dqn.
Proof.
  unfold apply_one_axis_list.
  destruct (shape state) as [|k [|? ?]] eqn:Hshape; try discriminate.
  intros Hq. inv_binds. subst q.
  apply (ModelNDFacts.apply_one_axis dqn params state a); [rewrite Hshape; reflexivity | exact Ha].
Qed.

(** A network seen through its calls on states of one axis. *)
Definition restrict (dqn : ModelND.DQN) : Model.DQN :=
  Model.mkDQN (ModelND.DQNParameters dqn) (ModelND.n_actions dqn)
    (apply_one_axis_list dqn) (apply_one_axis_list_length dqn).

Section SelectAction.
Context (R : JaxRandom).

Lemma select_action_one_axis (dqn : ModelND.DQN) (rng : PRNGKey)
    (params : ModelND.DQNParameters dqn) (state : Tensor f32) (epsilon : f32) :
  length (shape state) = 1%nat ->
  ModelND.select_action dqn rng params state epsilon
  = Model.select_action (restrict dqn) rng params state epsilon.
Proof.
  intros Hone. unfold ModelND.select_action, Model.select_action. simpl.
  unfold apply_one_axis_list.
  destruct (shape state) as [|k [|? ?]] eqn:Hshape; try discriminate.
  destruct (ModelND.apply dqn params state) as [q|e] eqn:Hq; simpl; [| reflexivity].
  destruct (ModelNDFacts.apply_one_axis dqn params state q) as [Hqshape Hqlen];
    [rewrite Hshape; reflexivity | exact Hq |].
  destruct (jnp_argmax (data q)) as [greedy|e]; simpl; [| reflexivity].
  destruct (split rng) as [key subkey].
  unfold shape_last. rewrite Hqshape, Hqlen. reflexivity.
Qed.

End SelectAction.

(** The predicted value of a state of one axis. *)
Lemma predicted_value_one_axis (dqn : ModelND.DQN) (params : ModelND.DQNParameters dqn)
    (state q : Tensor f32) (action : Tensor Z) :
  length (shape state) = 1%nat -> ModelND.apply dqn params state = Ok q ->
  (n ← shape0 q; q_rows ← take0 q (jnp_arange n); take0 q_rows action)
  = (q_rows ← take1 (data q) (jnp_arange (length (data q))); take1 (data q_rows) action).
Proof.
  intros Hone Hq.
  destruct (ModelNDFacts.apply_one_axis dqn params state q Hone Hq) as [Hshape Hlen].
  unfold shape0. rewrite Hshape. simpl.
  assert (Hok : tensor_ok q) by (unfold tensor_ok; rewrite Hshape; simpl; lia).
  rewrite (take0_arange q _ [] Hshape Hok). simpl.
  rewrite (take0_one_axis _ (ModelND.n_actions dqn)) by (reflexivity || assumption).
  rewrite take1_arange. simpl.
  unfold take1. destruct (result_mapM _ _); reflexivity.
Qed.

(** [q_values[jnp.arange(q_values.shape[0])][action]] for a state of one
    axis. *)
Lemma predicted_value_restrict (dqn : ModelND.DQN) (params : ModelND.DQNParameters dqn)
    (t : Transition) :
  length (shape t.1.1.1.1) = 1%nat ->
  predicted_value dqn params t = ModelFacts.predicted_value (restrict dqn) params t.
Proof.
  destruct t as [[[[state action] reward] done] next_state]. simpl. intros Hone.
  unfold apply_one_axis_list.
  destruct (shape state) as [|k [|? ?]] eqn:Hshape; try discriminate.
  destruct (ModelND.apply dqn params state) as [q|e] eqn:Hq; simpl; [| reflexivity].
  pose proof (predicted_value_one_axis dqn params state q action) as Hpred.
  rewrite Hshape in Hpred. rewrite (Hpred eq_refl Hq), take1_arange. reflexivity.
Qed.

Lemma compute_loss_one_axis (dqn : ModelND.DQN) (params tp : ModelND.DQNParameters dqn)
    (state : Tensor f32) (action : Tensor Z) (reward : Tensor f32) (done : Tensor bool)
    (next_state : Tensor f32) (gamma : f32) :
  length (shape state) = 1%nat -> length (shape next_state) = 1%nat -> tensor_ok done ->
  ModelND.compute_loss dqn params tp (state, action, reward, done, next_state) gamma
  = Model.compute_loss (restrict dqn) params tp (state, action, reward, done, next_state)
      gamma.
Proof.
  intros Hone Hnext Hdone.
  rewrite compute_loss_parts, ModelFacts.compute_loss_form.
  rewrite predicted_value_restrict by exact Hone.
  destruct (ModelFacts.predicted_value (restrict dqn) params _) as [qa|e]; simpl;
    [| reflexivity].
  rewrite next_value_one_axis by exact Hnext.
  unfold ModelFacts.next_value. simpl. unfold apply_one_axis_list.
  destruct (shape next_state) as [|k' [|? ?]] eqn:Hnshape; try discriminate.
  destruct (ModelND.apply dqn tp next_state) as [nq|e]; simpl; [| reflexivity].
  destruct (jnp_max (data nq)) as [m|e]; simpl; [| reflexivity].
  unfold bootstrapped, ModelFacts.bootstrapped.
  rewrite tensor_binop_scalar by (apply (ModelNDClaims.discount_ok gamma); exact Hdone).
  simpl. unfold discount. rewrite ModelFacts.masked_map. reflexivity.
Qed.

Lemma compute_loss_double_dqn_one_axis (dqn : ModelND.DQN)
    (params tp : ModelND.DQNParameters dqn)
    (state : Tensor f32) (action : Tensor Z) (reward : Tensor f32) (done : Tensor bool)
    (next_state : Tensor f32) (gamma : f32) :
  length (shape state) = 1%nat -> length (shape next_state) = 1%nat -> tensor_ok done ->
  ModelND.compute_loss_double_dqn dqn params tp (state, action, reward, done, next_state)
    gamma
  = Model.compute_loss_double_dqn (restrict dqn) params tp
      (state, action, reward, done, next_state) gamma.
Proof.
  intros Hone Hnext Hdone.
  rewrite compute_loss_double_dqn_parts, ModelFacts.compute_loss_double_dqn_form.
  rewrite predicted_value_restrict by exact Hone.
  destruct (ModelFacts.predicted_value (restrict dqn) params _) as [qa|e]; simpl;
    [| reflexivity].
  rewrite next_value_double_one_axis by exact Hnext.
  unfold ModelFacts.next_value_double. simpl. unfold apply_one_axis_list.
  destruct (shape next_state) as [|k' [|? ?]] eqn:Hnshape; try discriminate.
  destruct (ModelND.apply dqn params next_state) as [nq|e]; simpl; [| reflexivity].
  destruct (jnp_argmax (data nq)) as [a|e]; simpl; [| reflexivity].
  destruct (ModelND.apply dqn tp next_state) as [tq|e]; simpl; [| reflexivity].
  destruct (getitem1 (data tq) (Z.of_nat a)) as [v|e]; simpl; [| reflexivity].
  unfold bootstrapped, ModelFacts.bootstrapped.
  rewrite tensor_binop_scalar by (apply (ModelNDClaims.discount_ok gamma); exact Hdone).
  simpl. unfold discount. rewrite ModelFacts.masked_map. reflexivity.
Qed.

(** The forward pass of the repository's network on a state of one axis. *)
Lemma DQN_call_one_axis (n : nat) (p : Model.DQNLayers) (state : Tensor f32) (k : nat) :
  shape state = [k] -> length (data state) = k ->
  ModelND.DQN_call n p state = (q ← Model.DQN_call n p state; Ok (mkTensor [n] q)).
Proof.
  intros Hshape Hlen. unfold ModelND.DQN_call, Model.DQN_call, Model.dense.
  rewrite Hshape. simpl. rewrite Hlen, Nat.eqb_refl, take_ge by lia.
  destruct (Model.dense_check k 128 _) as [[]|e] eqn:H0; simpl; [| reflexivity].
  rewrite Network.relu_length, (Network.dense_apply_length _ _ _ _ H0).
  destruct (Model.dense_check 128 64 _) as [[]|e] eqn:H1; simpl; [| reflexivity].
  rewrite Network.relu_length, (Network.dense_apply_length _ _ _ _ H1).
  destruct (Model.dense_check 64 n _) as [[]|e] eqn:H2; simpl; [| reflexivity].
  rewrite app_nil_r. reflexivity.
Qed.

End OneAxis.
